(** * Ecological metrics engine of the biodiversity explorer

    A shallow embedding of the metric routines of
    [metrics/landcover_metrics.py], [metrics/gbif_metrics.py] and of the
    "Run Analysis" block of [streamlit_app.py], followed by the properties
    the specification states about them.

    Conventions of the embedding.
    - Python [int] is [Z]; a Python [dict] is an association list in
      insertion order (iteration order and the stability of [sorted] are
      observable), well formed when its keys are pairwise distinct.
    - Python floats are idealised: a quotient of two integers is an exact
      rational ([Q]); anything that goes through [log] or [** 0.5] is a real
      number ([R]).  Rounding is not modelled, except for the area ceiling,
      where a comparison decides on the last place: module [Binary64] reads
      that block in binary64 floating point.
    - A Python exception is the [Raise] branch of [result]. *)

From Stdlib Require Import ZArith QArith Qreals Reals Lra Lia List Bool.
From Stdlib Require Import String Ascii DecimalString Permutation Sorted.
From Stdlib Require Floats.
Import ListNotations.

Set Implicit Arguments.

(** ** The fragment of the Python runtime the sources rely on *)

Module Py.

Inductive exn : Type :=
| ZeroDivisionError
| KeyError
| ValueError.

Inductive result (A : Type) : Type :=
| Ok (a : A)
| Raise (e : exn).

Arguments Ok {A} a.
Arguments Raise {A} e.

Definition bind {A B : Type} (c : result A) (k : A -> result B) : result B :=
  match c with
  | Ok a => k a
  | Raise e => Raise e
  end.

Definition raises {A : Type} (c : result A) : Prop :=
  exists e, c = Raise e.

Definition returns {A : Type} (c : result A) : Prop :=
  exists a, c = Ok a.

(** A list comprehension whose body may raise: elements are evaluated from
    left to right and the first exception aborts the comprehension. *)
Fixpoint comprehension {A B : Type} (f : A -> result B) (l : list A)
  : result (list B) :=
  match l with
  | [] => Ok []
  | x :: l' =>
      bind (f x) (fun y =>
      bind (comprehension f l') (fun ys => Ok (y :: ys)))
  end.

(** Dictionary keys: the sources meet strings (the histogram keys the
    raster service sends) and integers (the legend, hand-written test
    histograms).  A string never equals an integer. *)
Inductive key : Type :=
| KStr (s : string)
| KInt (n : Z).

Definition key_eqb (a b : key) : bool :=
  match a, b with
  | KStr s, KStr t => String.eqb s t
  | KInt n, KInt m => Z.eqb n m
  | _, _ => false
  end.

Definition dict (V : Type) : Type := list (key * V).

Definition keys {V : Type} (d : dict V) : list key := map fst d.
Definition values {V : Type} (d : dict V) : list V := map snd d.
Definition items {V : Type} (d : dict V) : list (key * V) := d.

(** Keys of a dictionary are pairwise distinct. *)
Definition wf {V : Type} (d : dict V) : Prop := NoDup (keys d).

(** [d.get(k, default)] *)
Fixpoint get {V : Type} (d : dict V) (k : key) (default : V) : V :=
  match d with
  | [] => default
  | (k', v) :: d' => if key_eqb k' k then v else get d' k default
  end.

(** [sum(xs)]: left to right, from the integer 0. *)
Definition sum (xs : list Z) : Z := fold_left Z.add xs 0%Z.
Definition qsum (xs : list Q) : Q := fold_left Qplus xs 0%Q.
Definition rsum (xs : list R) : R := fold_left Rplus xs 0%R.

(** [a / b] on integers: true division. *)
Definition truediv (a b : Z) : result Q :=
  if (b =? 0)%Z then Raise ZeroDivisionError
  else Ok (inject_Z a / inject_Z b)%Q.

(** [p > 0] on a quotient. *)
Definition qpos (p : Q) : bool := negb (Qle_bool p 0).

(** [math.log(x)]: a domain error outside the positive reals. *)
Definition math_log (x : Q) : result R :=
  if qpos x then Ok (ln (Q2R x)) else Raise ValueError.

(** [str(n)] for an integer. *)
Definition str (n : Z) : string := NilZero.string_of_int (Z.to_int n).

(** [int(s)] for a string of ASCII text, as the keys of a histogram are:
    surrounding white space (tab, line feed, vertical tab, form feed,
    carriage return and space) is stripped, one sign is allowed, and the
    rest must be decimal digits, where single underscores may separate
    digits.  The separators [0x1C] to [0x1F] are not white space for
    [int]: [int("\x1f10")] raises [ValueError]. *)
Definition is_space (c : ascii) : bool :=
  let n := nat_of_ascii c in
  ((9 <=? n) && (n <=? 13) || (n =? 32))%nat.

Definition digit_of (c : ascii) : option Z :=
  let n := nat_of_ascii c in
  if ((48 <=? n) && (n <=? 57))%nat then Some (Z.of_nat (n - 48)) else None.

Fixpoint lstrip (s : string) : string :=
  match s with
  | String c s' => if is_space c then lstrip s' else s
  | EmptyString => EmptyString
  end.

Fixpoint rstrip (s : string) : string :=
  match s with
  | String c s' =>
      match rstrip s' with
      | EmptyString => if is_space c then EmptyString else String c EmptyString
      | t => String c t
      end
  | EmptyString => EmptyString
  end.

Fixpoint digits (acc : Z) (after_digit : bool) (s : string) : option Z :=
  match s with
  | EmptyString => if after_digit then Some acc else None
  | String c s' =>
      match digit_of c with
      | Some d => digits (10 * acc + d)%Z true s'
      | None =>
          if (Ascii.eqb c "_"%char && after_digit)%bool
          then digits acc false s'
          else None
      end
  end.

Definition int_of_string (s : string) : result Z :=
  let body := rstrip (lstrip s) in
  let parsed :=
    match body with
    | String "-"%char s' => option_map Z.opp (digits 0%Z false s')
    | String "+"%char s' => digits 0%Z false s'
    | _ => digits 0%Z false body
    end in
  match parsed with
  | Some n => Ok n
  | None => Raise ValueError
  end.

(** [int(k)] for a dictionary key. *)
Definition int (k : key) : result Z :=
  match k with
  | KStr s => int_of_string s
  | KInt n => Ok n
  end.

(** [sorted(items, key=lambda x: x[1], reverse=True)]: a stable sort, so
    items of equal count keep their original relative order. *)
Fixpoint insert_desc (x : key * Z) (l : list (key * Z)) : list (key * Z) :=
  match l with
  | [] => [x]
  | y :: l' =>
      if (snd y <=? snd x)%Z then x :: y :: l'
      else y :: insert_desc x l'
  end.

Definition sorted_by_count_desc (l : list (key * Z)) : list (key * Z) :=
  fold_right insert_desc [] l.

(** [l[:n]] *)
Definition slice_to {A : Type} (l : list A) (n : Z) : list A :=
  if (n <? 0)%Z then firstn (List.length l - Z.to_nat (- n)) l
  else firstn (Z.to_nat n) l.

End Py.

Import Py.

Declare Scope py_scope.
Delimit Scope py_scope with py.
Notation "x <- c ;; k" := (bind c (fun x => k))
  (at level 61, c at next level, right associativity) : py_scope.
Notation "' p <- c ;; k" := (bind c (fun p => k))
  (at level 61, p pattern, c at next level, right associativity) : py_scope.

(** ** [metrics/landcover_metrics.py] *)

Module Landcover.

Local Open Scope py_scope.

Definition landcover_classes : list (Z * string) :=
  [ (10%Z, "Tree cover"%string);
    (20%Z, "Shrubland"%string);
    (30%Z, "Grassland"%string);
    (40%Z, "Cropland"%string);
    (50%Z, "Built-up"%string);
    (60%Z, "Sparse vegetation"%string);
    (70%Z, "Snow and ice"%string);
    (80%Z, "Permanent water"%string);
    (90%Z, "Herbaceous wetland"%string);
    (95%Z, "Mangroves"%string);
    (100%Z, "Moss and lichen"%string) ].

(** [landcover_classes[code]] *)
Fixpoint legend_lookup (legend : list (Z * string)) (code : Z) : result string :=
  match legend with
  | [] => Raise KeyError
  | (c, label) :: legend' =>
      if (c =? code)%Z then Ok label else legend_lookup legend' code
  end.

(** [[count / total for count in counts.values()]] *)
Definition proportions (counts : dict Z) : result (list Q) :=
  let total := sum (values counts) in
  comprehension (fun count => truediv count total) (values counts).

Definition get_shannon_index (counts : dict Z) : result R :=
  ps <- proportions counts ;;
  Ok (- rsum (map (fun p => Q2R p * ln (Q2R p)) (filter qpos ps)))%R.

Definition get_simpson_index (counts : dict Z) : result Q :=
  ps <- proportions counts ;;
  Ok (1 - qsum (map (fun p => p ^ 2) ps))%Q.

Definition get_evenness_index (counts : dict Z) : result R :=
  let number_of_classes := List.length counts in
  shannon <- get_shannon_index counts ;;
  if (1 <? number_of_classes)%nat
  then Ok (shannon / ln (INR number_of_classes))%R
  else Ok 0%R.

Definition natural_classes : list Z := [10; 20; 30; 90; 95; 100]%Z.
Definition anthropogenic_classes : list Z := [40; 50; 60; 70; 80]%Z.

Definition get_natural_habitat_fraction (counts : dict Z) : result Q :=
  let natural_count :=
    sum (map (fun cls => get counts (KStr (str cls)) 0%Z) natural_classes) in
  let total := sum (values counts) in
  if (0 <? total)%Z then truediv natural_count total else Ok 0%Q.

Definition get_anthropogenic_habitat_fraction (counts : dict Z) : result Q :=
  let anthro_count :=
    sum (map (fun cls => get counts (KStr (str cls)) 0%Z) anthropogenic_classes) in
  let total := sum (values counts) in
  if (0 <? total)%Z then truediv anthro_count total else Ok 0%Q.

Definition get_top_5_landcover (counts : dict Z)
  : result (list (string * Z * Q)) :=
  let top_5 := firstn 5 (sorted_by_count_desc (items counts)) in
  let total := sum (values counts) in
  comprehension
    (fun '(cls, count) =>
       code <- int cls ;;
       label <- legend_lookup landcover_classes code ;;
       share <- truediv count total ;;
       Ok (label, count, share * 100)%Q)
    top_5.

(** The scenario histogram of the specification, [{10:700, 40:300}], as
    the raster service sends it (keys are strings) and as a literal with
    integer keys. *)
Definition scenario_histogram : dict Z :=
  [ (KStr "10", 700%Z); (KStr "40", 300%Z) ].

Definition integer_keyed_histogram : dict Z :=
  [ (KInt 10, 700%Z); (KInt 40, 300%Z) ].

(** A histogram whose only class has no pixel. *)
Definition zero_pixel_histogram : dict Z := [ (KStr "10", 0%Z) ].

(** A histogram that records a class without any pixel. *)
Definition zero_count_histogram : dict Z :=
  [ (KStr "10", 1%Z); (KStr "20", 1%Z); (KStr "30", 0%Z) ].

(** A histogram with a class code that the legend does not list. *)
Definition unlisted_code_histogram : dict Z :=
  [ (KStr "10", 5%Z); (KStr "11", 7%Z) ].

End Landcover.

(** ** [metrics/gbif_metrics.py] *)

Module Gbif.

Local Open Scope py_scope.

(** One occurrence of the search response.  The only field the metrics
    read is the optional ["species"] entry; the GBIF key tells records
    apart. *)
Record OccurrenceRecord : Type := {
  gbif_key : Z;
  species : option string
}.

Definition per_page : Z := 300%Z.

Section Paging.

(** The occurrence data source: the result list answered to a search
    request with the given [offset] and [limit]. *)
Variable search : Z -> Z -> list OccurrenceRecord.

(** The body of [for i in range(pages)], with [remaining] iterations left.
    Besides [occurrences] the loop threads the list of pages it received,
    a ghost trace the properties on paging are stated on. *)
Fixpoint page_loop (remaining : nat) (i : Z)
    (occurrences : list OccurrenceRecord)
    (fetched : list (list OccurrenceRecord))
  : list OccurrenceRecord * list (list OccurrenceRecord) :=
  match remaining with
  | O => (occurrences, fetched)
  | S remaining' =>
      let offset := (i * per_page)%Z in
      let results := search offset per_page in
      let occurrences' := occurrences ++ results in
      let fetched' := fetched ++ [results] in
      if (Z.of_nat (List.length results) <? per_page)%Z
      then (occurrences', fetched')
      else page_loop remaining' (i + 1)%Z occurrences' fetched'
  end.

Definition run_pages (n_records : Z)
  : list OccurrenceRecord * list (list OccurrenceRecord) :=
  let pages := (n_records / per_page + 1)%Z in
  page_loop (Z.to_nat pages) 0%Z [] [].

Definition pages_fetched (n_records : Z) : list (list OccurrenceRecord) :=
  snd (run_pages n_records).

Definition get_gbif_sample (n_records : Z) : list OccurrenceRecord :=
  slice_to (fst (run_pages n_records)) n_records.

End Paging.

(** A data source that holds 450 occurrences. *)
Definition small_source (offset limit : Z) : list OccurrenceRecord :=
  map (fun k => {| gbif_key := k; species := None |})
      (map Z.of_nat
         (seq (Z.to_nat offset)
              (Z.to_nat (Z.min limit (Z.max 0 (450 - offset)))))).

(** [collections.Counter]: counts per species, in order of first
    appearance. *)
Fixpoint counter_add (c : list (string * Z)) (s : string) : list (string * Z) :=
  match c with
  | [] => [(s, 1%Z)]
  | (t, n) :: c' =>
      if String.eqb t s then (t, (n + 1)%Z) :: c'
      else (t, n) :: counter_add c' s
  end.

Definition Counter (l : list string) : list (string * Z) :=
  fold_left counter_add l [].

(** [max(xs)] *)
Definition max (xs : list Z) : result Z :=
  match xs with
  | [] => Raise ValueError
  | x :: xs' => Ok (fold_left Z.max xs' x)
  end.

Record DiversityIndices : Type := {
  species_richness : Z;
  shannon_index : R;
  simpson_index : Q;
  evenness : R;
  berger_parker_dominance : Q
}.

(** The scenario sample of the specification, species A, A, B, with one
    record that carries no species added. *)
Definition scenario_sample : list OccurrenceRecord :=
  [ {| gbif_key := 1%Z; species := Some "A"%string |};
    {| gbif_key := 2%Z; species := None |};
    {| gbif_key := 3%Z; species := Some "A"%string |};
    {| gbif_key := 4%Z; species := Some "B"%string |} ].

(** A sample none of whose records carries a species. *)
Definition unidentified_sample : list OccurrenceRecord :=
  [ {| gbif_key := 7%Z; species := None |};
    {| gbif_key := 8%Z; species := None |} ].

Definition zero_indices : DiversityIndices :=
  {| species_richness := 0%Z;
     shannon_index := 0%R;
     simpson_index := 0%Q;
     evenness := 0%R;
     berger_parker_dominance := 0%Q |}.

(** [[occ['species'] for occ in occurrences if 'species' in occ]] *)
Definition species_list (occurrences : list OccurrenceRecord) : list string :=
  flat_map (fun occ => match species occ with
                       | Some s => [s]
                       | None => []
                       end) occurrences.

Definition get_biodiversity_indices (occurrences : list OccurrenceRecord)
  : result DiversityIndices :=
  let species_list := species_list occurrences in
  match species_list with
  | [] => Ok zero_indices
  | _ :: _ =>
      let species_counts := Counter species_list in
      let N := sum (map snd species_counts) in
      let S := List.length species_counts in
      terms <- comprehension
                 (fun n => q <- truediv n N ;;
                           l <- math_log q ;;
                           Ok (Q2R q * l)%R)
                 (map snd species_counts) ;;
      let shannon := (- rsum terms)%R in
      squares <- comprehension
                   (fun n => q <- truediv n N ;; Ok (q ^ 2)%Q)
                   (map snd species_counts) ;;
      let simpson := (1 - qsum squares)%Q in
      let evenness :=
        if (1 <? S)%nat then (shannon / ln (INR S))%R else 0%R in
      top <- max (map snd species_counts) ;;
      berger_parker <- truediv top N ;;
      Ok {| species_richness := Z.of_nat S;
            shannon_index := shannon;
            simpson_index := simpson;
            evenness := evenness;
            berger_parker_dominance := berger_parker |}
  end.

End Gbif.

(** ** The "Run Analysis" block of [streamlit_app.py] *)

Module App.

Local Open Scope py_scope.

(** Earth Engine geometry is an external service; the block uses these
    five requests.  Lengths are metres, areas square metres. *)
Class GeometryService : Type := {
  geometry : Type;
  area : geometry -> R;
  centroid : geometry -> geometry;
  buffer : geometry -> R -> geometry;
  bounds : geometry -> geometry
}.

Section AreaLimit.

Context {G : GeometryService}.

(** Lines 184-191, with the ceiling as a parameter, in exact arithmetic:
    the square root and the comparison are those of the reals.  Module
    [Binary64] below is the same block in floating point. *)
Definition enforce_area_limit (max_km2 : R) (aoi_ee : geometry) : geometry :=
  let area_km2 := (area aoi_ee / 1000000)%R in
  if Rlt_dec max_km2 area_km2 then
    let centroid := centroid aoi_ee in
    let side_m := sqrt (max_km2 * 1000000) in
    bounds (buffer centroid (side_m / 2))
  else aoi_ee.

Definition MAX_AOI_KM2 : R := 500%R.

End AreaLimit.

(** A point of a local planar frame, in metres. *)
Record point : Type := { east : R; north : R }.

(** What can be observed of the geometries the service answers: the
    south-west and north-east corners of [g.bounds()] and the coordinates
    of a point geometry, read in a planar frame. *)
Class PlanarReading (G : GeometryService) : Type := {
  corners : geometry -> point * point;
  position : geometry -> point
}.

(** The planar laws of the service: the bounds of a centroid buffered by
    [r] metres is the box of half-width [r] about it. *)
Record planar_laws {G : GeometryService} {P : PlanarReading G} : Prop := {
  box_corners : forall (a : geometry) (r : R), (0 <= r)%R ->
    corners (bounds (buffer (centroid a) r)) =
      ({| east := east (position (centroid a)) - r;
          north := north (position (centroid a)) - r |},
       {| east := east (position (centroid a)) + r;
          north := north (position (centroid a)) + r |})%R;
  box_area : forall (a : geometry) (r : R), (0 <= r)%R ->
    area (bounds (buffer (centroid a) r)) = ((2 * r) * (2 * r))%R;
  box_centroid : forall (a : geometry) (r : R), (0 <= r)%R ->
    centroid (bounds (buffer (centroid a) r)) = centroid a
}.

(** [g] is the axis-aligned square of side [side] metres centred on the
    point geometry [c]. *)
Definition square_about {G : GeometryService} {P : PlanarReading G}
    (g c : geometry) (side : R) : Prop :=
  corners g =
    ({| east := east (position c) - side / 2;
        north := north (position c) - side / 2 |},
     {| east := east (position c) + side / 2;
        north := north (position c) + side / 2 |})%R
  /\ area g = (side * side)%R.

(** A planar instance of the service: points, discs and boxes. *)
Inductive shape : Type :=
| Pt (p : point)
| Disc (c : point) (r : R)
| Box (sw ne : point).

Definition shift (p : point) (d : R) : point :=
  {| east := east p + d; north := north p + d |}%R.

Definition middle (sw ne : point) : point :=
  {| east := (east sw + east ne) / 2; north := (north sw + north ne) / 2 |}%R.

Definition shape_area (g : shape) : R :=
  match g with
  | Pt _ => 0
  | Disc _ r => PI * (r * r)
  | Box sw ne => (east ne - east sw) * (north ne - north sw)
  end%R.

Definition shape_position (g : shape) : point :=
  match g with
  | Pt p => p
  | Disc c _ => c
  | Box sw ne => middle sw ne
  end.

Definition shape_centroid (g : shape) : shape := Pt (shape_position g).

Definition shape_buffer (g : shape) (d : R) : shape :=
  match g with
  | Pt p => Disc p d
  | Disc c r => Disc c (r + d)
  | Box sw ne => Box (shift sw (- d)) (shift ne d)
  end.

Definition shape_corners (g : shape) : point * point :=
  match g with
  | Pt p => (p, p)
  | Disc c r => (shift c (- r), shift c r)
  | Box sw ne => (sw, ne)
  end.

Definition shape_bounds (g : shape) : shape :=
  Box (fst (shape_corners g)) (snd (shape_corners g)).

#[export] Instance Plane : GeometryService := {|
  geometry := shape;
  area := shape_area;
  centroid := shape_centroid;
  buffer := shape_buffer;
  bounds := shape_bounds
|}.

#[export] Instance PlaneReading : PlanarReading Plane := {|
  corners := shape_corners;
  position := shape_position
|}.

(** A drawn rectangle of 30 km by 30 km, 900 square kilometres, and one of
    10 km by 10 km. *)
Definition oversized_aoi : shape :=
  Box {| east := 0; north := 0 |} {| east := 30000; north := 30000 |}.

Definition modest_aoi : shape :=
  Box {| east := 0; north := 0 |} {| east := 10000; north := 10000 |}.

(** Lines 379-392: the summary of the rating histogram.  [ndvi_rating] is
    the histogram [get_ndvi_rating_summary] returns, keyed by the rating
    as a string. *)
Record RatingSummary : Type := {
  total_pix : Z;
  good_vegetation : Z;
  bad_vegetation : Z;
  bad_vegetation_perc : Q;
  bad_vegetation_ha : Q
}.

Definition rating_summary (ndvi_rating : dict Z) (scale_adjusted : Z)
  : result RatingSummary :=
  let total_pix := sum (values ndvi_rating) in
  let good_vegetation :=
    (get ndvi_rating (KStr "3") 0 +
     get ndvi_rating (KStr "4") 0 +
     get ndvi_rating (KStr "5") 0)%Z in
  let bad_vegetation :=
    (get ndvi_rating (KStr "1") 0 +
     get ndvi_rating (KStr "2") 0)%Z in
  share <- truediv bad_vegetation total_pix ;;
  let bad_vegetation_perc := (share * 100)%Q in
  hectares <- truediv (bad_vegetation * scale_adjusted ^ 2) (10 ^ 4) ;;
  Ok {| total_pix := total_pix;
        good_vegetation := good_vegetation;
        bad_vegetation := bad_vegetation;
        bad_vegetation_perc := bad_vegetation_perc;
        bad_vegetation_ha := hectares |}.

End App.

(** ** The area ceiling in binary64

    Python computes the side of the substitute in binary64 floating point
    and the service answers areas as binary64 numbers.  This is the block
    of lines 184-191 once more, with [float] where module [App] has the
    reals.  [x ** 0.5] is read as the correctly rounded square root, which
    is its value at the ceiling of the application,
    [(500 * 1e6) ** 0.5 = 22360.679774997898]. *)

Module Binary64.

Import PrimFloat.

Local Open Scope float_scope.

Class GeometryService : Type := {
  geometry : Type;
  area : geometry -> float;
  centroid : geometry -> geometry;
  buffer : geometry -> float -> geometry;
  bounds : geometry -> geometry
}.

Section AreaLimit.

Context {G : GeometryService}.

Definition enforce_area_limit (max_km2 : float) (aoi_ee : geometry) : geometry :=
  let area_km2 := area aoi_ee / 1e6 in
  if max_km2 <? area_km2 then
    let centroid := centroid aoi_ee in
    let side_m := sqrt (max_km2 * 1e6) in
    bounds (buffer centroid (side_m / 2))
  else aoi_ee.

(** The test [area_km2 > MAX_AOI_KM2] of line 186. *)
Definition exceeds (max_km2 : float) (aoi_ee : geometry) : bool :=
  max_km2 <? area aoi_ee / 1e6.

End AreaLimit.

Definition MAX_AOI_KM2 : float := 500.

(** A ceiling whose side is computed without rounding: the square root of
    [400 * 1e6] is exactly 20000. *)
Definition round_ceiling : float := 400.

(** The planar instance of the service, computed in binary64. *)
Record point : Type := { east : float; north : float }.

Inductive shape : Type :=
| Pt (p : point)
| Disc (c : point) (r : float)
| Box (sw ne : point).

Definition shift (p : point) (d : float) : point :=
  {| east := east p + d; north := north p + d |}.

Definition middle (sw ne : point) : point :=
  {| east := (east sw + east ne) / 2; north := (north sw + north ne) / 2 |}.

(** The area of a disc takes the binary64 value of pi,
    3.141592653589793. *)
Definition shape_area (g : shape) : float :=
  match g with
  | Pt _ => 0
  | Disc _ r => 0x1.921fb54442d18p+1 * (r * r)
  | Box sw ne => (east ne - east sw) * (north ne - north sw)
  end.

Definition shape_position (g : shape) : point :=
  match g with
  | Pt p => p
  | Disc c _ => c
  | Box sw ne => middle sw ne
  end.

Definition shape_centroid (g : shape) : shape := Pt (shape_position g).

Definition shape_buffer (g : shape) (d : float) : shape :=
  match g with
  | Pt p => Disc p d
  | Disc c r => Disc c (r + d)
  | Box sw ne => Box (shift sw (- d)) (shift ne d)
  end.

Definition shape_corners (g : shape) : point * point :=
  match g with
  | Pt p => (p, p)
  | Disc c r => (shift c (- r), shift c r)
  | Box sw ne => (sw, ne)
  end.

Definition shape_bounds (g : shape) : shape :=
  Box (fst (shape_corners g)) (snd (shape_corners g)).

#[export] Instance Plane : GeometryService := {|
  geometry := shape;
  area := shape_area;
  centroid := shape_centroid;
  buffer := shape_buffer;
  bounds := shape_bounds
|}.

(** The easting of the south-west corner of the bounds of a shape, and
    equality of two floating-point numbers as a test. *)
Definition west (g : shape) : float := east (fst (shape_corners g)).

Definition same_number (x y : float) : bool := x =? y.

(** A drawn square of 32 km by 32 km, 1024 square kilometres, centred on
    the point 6 km east and north of the origin of the frame. *)
Definition oversized_aoi : shape :=
  Box {| east := -10000; north := -10000 |} {| east := 22000; north := 22000 |}.

(** A drawn square of 10 km by 10 km. *)
Definition modest_aoi : shape :=
  Box {| east := 0; north := 0 |} {| east := 10000; north := 10000 |}.

End Binary64.

(** ** Vocabulary of the specification *)

Module Spec.

Import Landcover.

(** Membership of a key in a list of keys, as a test. *)
Definition among (ks : list key) (k : key) : bool := existsb (key_eqb k) ks.

Definition natural_keys : list key :=
  map (fun cls => KStr (str cls)) natural_classes.

Definition anthropogenic_keys : list key :=
  map (fun cls => KStr (str cls)) anthropogenic_classes.

(** Counts are pixel counts: none is negative. *)
Definition pixel_counts (h : dict Z) : Prop :=
  Forall (fun v => 0 <= v)%Z (values h).

(** The entries of neither habitat group. *)
Definition other_class (kv : key * Z) : bool :=
  negb (among natural_keys (fst kv) || among anthropogenic_keys (fst kv)).

Definition no_string_key (h : dict Z) : Prop :=
  forall s, ~ In (KStr s) (keys h).

(** Labelling: the legend entry of a histogram key, the five entries the
    table is built from, and what a row of the table says of its entry. *)
Definition label_of (cls : key) : result string :=
  bind (int cls) (fun code => legend_lookup landcover_classes code).

Definition top_5 (h : dict Z) : list (key * Z) :=
  firstn 5 (sorted_by_count_desc (items h)).

(** The closed legend: the eleven documented class codes.  A key lies
    outside the legend when it is not the text of a number, or is a number
    that is none of the eleven. *)
Definition documented_codes : list Z :=
  [10; 20; 30; 40; 50; 60; 70; 80; 90; 95; 100]%Z.

Definition outside_legend (cls : key) : Prop :=
  int cls = Raise ValueError \/
  exists code, int cls = Ok code /\ ~ In code documented_codes.

Definition count_desc (a b : key * Z) : Prop := (snd b <= snd a)%Z.

Definition row_label (row : string * Z * Q) : string := fst (fst row).
Definition row_count (row : string * Z * Q) : Z := snd (fst row).
Definition row_percent (row : string * Z * Q) : Q := snd row.

Definition row_of (total : Z) (kv : key * Z) (row : string * Z * Q) : Prop :=
  label_of (fst kv) = Ok (row_label row) /\
  row_count row = snd kv /\
  (row_percent row == inject_Z (snd kv) / inject_Z total * 100)%Q.

(** Occurrence samples: the records that carry a species identifier, and
    the number of distinct species among them. *)
Definition has_species (occ : Gbif.OccurrenceRecord) : bool :=
  match Gbif.species occ with
  | Some _ => true
  | None => false
  end.

Definition distinct_species (occurrences : list Gbif.OccurrenceRecord) : nat :=
  List.length (nodup string_dec (Gbif.species_list occurrences)).

(** The records of a sample that carry the species [s]. *)
Definition bears (s : string) (occ : Gbif.OccurrenceRecord) : bool :=
  match Gbif.species occ with
  | Some t => String.eqb t s
  | None => false
  end.

(** Paging: a page is short when it holds fewer records than the page
    size; the offset of the [j]-th request. *)
Definition short (page : list Gbif.OccurrenceRecord) : Prop :=
  (Z.of_nat (List.length page) < Gbif.per_page)%Z.

Definition request_offset (j : nat) : Z := (Z.of_nat j * Gbif.per_page)%Z.

(** The stop rule as the specification words it: paging goes on until
    [max_records] is reached, so a further page is requested only while
    the pages received hold fewer than [max_records] records. *)
Definition requested_below_cap (pages : list (list Gbif.OccurrenceRecord))
    (max_records : Z) : Prop :=
  forall j, (0 < j < List.length pages)%nat ->
    (Z.of_nat (List.length (List.concat (firstn j pages))) < max_records)%Z.

(** The formulas of the specification for a class histogram, over the
    reals: [share] is [p = count/total], the Shannon index sums over the
    classes with a positive count, and evenness divides by the logarithm of
    the number of classes present, that is, of positive count. *)
Definition big_sum (xs : list R) : R := fold_right Rplus 0%R xs.

Definition share (h : dict Z) (count : Z) : R :=
  (IZR count / IZR (sum (values h)))%R.

Definition present (h : dict Z) : list Z :=
  filter (fun count => 0 <? count)%Z (values h).

Definition shannon (h : dict Z) : R :=
  (- big_sum (map (fun count => share h count * ln (share h count)) (present h)))%R.

Definition simpson (h : dict Z) : R :=
  (1 - big_sum (map (fun count => share h count ^ 2) (values h)))%R.

Definition classes_present (h : dict Z) : nat := List.length (present h).

Definition evenness (h : dict Z) : R :=
  if (1 <? classes_present h)%nat
  then (shannon h / ln (INR (classes_present h)))%R
  else 0%R.

End Spec.

(** ** Rational partial sums of the exponential series

    [exp_partial q n] is the sum of [q^k / k!] for [k <= n]; it is used to
    enclose logarithms between decimal bounds. *)

Module Numerics.

Fixpoint exp_term (q : Q) (n : nat) : Q :=
  match n with
  | O => 1
  | S m => exp_term q m * q / inject_Z (Z.of_nat n)
  end.

Fixpoint exp_partial (q : Q) (n : nat) : Q :=
  match n with
  | O => exp_term q O
  | S m => exp_partial q m + exp_term q n
  end.

End Numerics.

(** ** Further vocabulary: entropy of a list of counts *)

Module Measures.

(** [entropy t cs] is [- sum (c/t) ln (c/t)] over the counts [cs]; the
    Shannon index of the specification is the entropy of the positive
    counts against the total. *)
Definition entropy (t : Z) (cs : list Z) : R :=
  (- Spec.big_sum (map (fun c => IZR c / IZR t * ln (IZR c / IZR t)) cs))%R.

(** [concentration t cs] is [sum (c/t)^2], the complement of the Simpson
    index. *)
Definition concentration (t : Z) (cs : list Z) : R :=
  Spec.big_sum (map (fun c => (IZR c / IZR t) ^ 2) cs)%R.

End Measures.

(** ** [get_landcover_metrics] and the package-level copy of the metrics *)

Module Report.

Import Landcover.

Local Open Scope py_scope.

Record LandcoverMetrics : Type := {
  shannon_index : R;
  simpson_index : Q;
  evenness_index : R;
  natural_habitat_fraction : Q;
  anthropogenic_habitat_fraction : Q;
  top_5_landcover : list (string * Z * Q)
}.

(** The answer of [reduceRegion(...).getInfo()]: one histogram per band.
    [band response name default] is [response.get(name, default)]. *)
Fixpoint band (response : list (string * dict Z)) (name : string)
    (default : dict Z) : dict Z :=
  match response with
  | [] => default
  | (b, histogram) :: response' =>
      if String.eqb b name then histogram else band response' name default
  end.

(** [get_landcover_metrics], from the answer of the raster service on:
    the entries of the returned dictionary are evaluated in the order in
    which they are written, and the first exception ends the call. *)
Definition get_landcover_metrics (landcover_counts : list (string * dict Z))
  : result LandcoverMetrics :=
  let counts := band landcover_counts "Map" [] in
  shannon <- get_shannon_index counts ;;
  simpson <- get_simpson_index counts ;;
  evenness <- get_evenness_index counts ;;
  natural <- get_natural_habitat_fraction counts ;;
  anthropogenic <- get_anthropogenic_habitat_fraction counts ;;
  top_5 <- get_top_5_landcover counts ;;
  Ok {| shannon_index := shannon;
        simpson_index := simpson;
        evenness_index := evenness;
        natural_habitat_fraction := natural;
        anthropogenic_habitat_fraction := anthropogenic;
        top_5_landcover := top_5 |}.

(** The metrics of an area without any pixel. *)
Definition no_pixels : LandcoverMetrics :=
  {| shannon_index := 0%R;
     simpson_index := 1%Q;
     evenness_index := 0%R;
     natural_habitat_fraction := 0%Q;
     anthropogenic_habitat_fraction := 0%Q;
     top_5_landcover := [] |}.

End Report.

(** [metrics/__init__.py] repeats the functions of
    [metrics/landcover_metrics.py] with a legend of its own. *)
Module Package.

Import Landcover.

Local Open Scope py_scope.

Definition landcover_classes : list (Z * string) :=
  [ (10%Z, "Tree cover"%string);
    (20%Z, "Shrubland"%string);
    (30%Z, "Grassland"%string);
    (40%Z, "Cropland"%string);
    (50%Z, "Built-up"%string);
    (60%Z, "Bare / sparse vegetation"%string);
    (70%Z, "Snow and ice"%string);
    (80%Z, "Permanent water bodies"%string);
    (90%Z, "Herbaceous wetland"%string);
    (95%Z, "Mangroves"%string);
    (100%Z, "Moss and lichen"%string) ].

Definition get_top_5_landcover (counts : dict Z)
  : result (list (string * Z * Q)) :=
  let top_5 := firstn 5 (sorted_by_count_desc (items counts)) in
  let total := sum (values counts) in
  comprehension
    (fun '(cls, count) =>
       code <- int cls ;;
       label <- legend_lookup landcover_classes code ;;
       share <- truediv count total ;;
       Ok (label, count, share * 100)%Q)
    top_5.

End Package.

Module Tables.

(** The codes of the legend. *)
Definition legend_codes : list Z := map fst Landcover.landcover_classes.

(** How the labels of the two legends correspond. *)
Definition same_class_label (module_label package_label : string) : Prop :=
  module_label = package_label \/
  (module_label = "Sparse vegetation"%string /\
   package_label = "Bare / sparse vegetation"%string) \/
  (module_label = "Permanent water"%string /\
   package_label = "Permanent water bodies"%string).

Definition same_row (r r' : string * Z * Q) : Prop :=
  same_class_label (Spec.row_label r) (Spec.row_label r') /\
  Spec.row_count r = Spec.row_count r' /\
  Spec.row_percent r = Spec.row_percent r'.

(** Two results agree when they raise the same exception or return
    related values. *)
Definition agree {A B : Type} (R : A -> B -> Prop)
    (a : result A) (b : result B) : Prop :=
  match a, b with
  | Ok x, Ok y => R x y
  | Raise e, Raise e' => e = e'
  | _, _ => False
  end.

End Tables.

(** ** The rating rule and the resolution policy *)

Module Rating.

(** The expression [get_ndvi_rating_map] hands to the raster service,
    read for one unmasked pixel: the current index [ndvi] against the four
    historical percentiles. *)
Definition ndvi_rating (ndvi p25 p35 p70 p90 : Q) : Z :=
  if Qle_bool p90 ndvi then 5%Z
  else if Qle_bool p70 ndvi then 4%Z
  else if Qle_bool p35 ndvi then 3%Z
  else if Qle_bool p25 ndvi then 2%Z
  else 1%Z.

(** Lines 370-377 of [streamlit_app.py]: the pixel size, in metres, the
    rating histogram is computed at. *)
Definition scale_adjusted (area_km2 : R) : Z :=
  if Rlt_dec 100 area_km2 then 100%Z
  else if Rlt_dec 50 area_km2 then 30%Z
  else if Rlt_dec 10 area_km2 then 20%Z
  else 10%Z.

(** The keys of a rating histogram. *)
Definition rating_keys : list key :=
  [ KStr "1"; KStr "2"; KStr "3"; KStr "4"; KStr "5" ].

End Rating.

(** ** Occurrence sources and the caller of the sampler *)

Module Sampling.

Import Gbif.

(** A source that holds the records [held] and answers a request with the
    [limit] records that follow the first [offset] ones. *)
Definition list_source (held : list OccurrenceRecord) (offset limit : Z)
  : list OccurrenceRecord :=
  firstn (Z.to_nat limit) (skipn (Z.to_nat offset) held).

(** Lines 313-317 of [streamlit_app.py]: the number of records asked for,
    given the number [occ_total] the count query reports. *)
Definition n_samples (occ_total : Z) : Z :=
  if (10000 <? occ_total)%Z then 10000%Z else occ_total.

(** [max(xs)] of a list of counts, as a fold from the right. *)
Definition maximum (xs : list Z) : Z := fold_right Z.max 0%Z xs.

(** The count [Counter] holds for a species, 0 when it holds none. *)
Fixpoint tally (c : list (string * Z)) (s : string) : Z :=
  match c with
  | [] => 0%Z
  | (t, n) :: c' => if String.eqb t s then n else tally c' s
  end.

End Sampling.

(** ** Session state of [streamlit_app.py] *)

Module Session.

(** [st.session_state]: a field is [None] while its key is absent.  The
    value stored under ["geojson_input"] is itself [None] or a JSON
    string. *)
Record session_state : Type := {
  geojson_input : option (option string);
  show_map : option bool;
  map_center : option (list Q);
  map_zoom : option Z;
  selected_region : option string
}.

Definition empty_session : session_state :=
  {| geojson_input := None;
     show_map := None;
     map_center := None;
     map_zoom := None;
     selected_region := None |}.

Definition or_default {A : Type} (stored : option A) (default : A) : option A :=
  match stored with
  | Some v => Some v
  | None => Some default
  end.

(** Lines 46-53: the keys that are absent get their defaults. *)
Definition init_session (st : session_state) : session_state :=
  {| geojson_input := or_default (geojson_input st) None;
     show_map := or_default (show_map st) true;
     map_center := or_default (map_center st) [ 511657 # 10000; 104515 # 10000 ];
     map_zoom := or_default (map_zoom st) 4%Z;
     selected_region := selected_region st |}.

Definition reset_aoi (st : session_state) : session_state :=
  {| geojson_input := Some None;
     show_map := Some true;
     map_center := map_center st;
     map_zoom := map_zoom st;
     selected_region := selected_region st |}.

Definition regions : list (string * (list Q * Z)) :=
  [ ("Europe"%string, ([54; 15]%Q, 4%Z));
    ("Africa"%string, ([5; 20]%Q, 3%Z));
    ("Asia"%string, ([35; 90]%Q, 3%Z));
    ("APAC"%string, ([-10; 140]%Q, 3%Z));
    ("South America"%string, ([-15; -60]%Q, 3%Z));
    ("North America"%string, ([45; -100]%Q, 3%Z)) ].

(** [regions[region]] *)
Fixpoint region_lookup (table : list (string * (list Q * Z))) (region : string)
  : result (list Q * Z) :=
  match table with
  | [] => Raise KeyError
  | (name, view) :: table' =>
      if String.eqb name region then Ok view else region_lookup table' region
  end.

Definition set_region (region : string) (st : session_state)
  : result session_state :=
  bind (region_lookup regions region) (fun '(center, zoom) =>
  Ok {| geojson_input := geojson_input st;
        show_map := show_map st;
        map_center := Some center;
        map_zoom := Some zoom;
        selected_region := Some region |}).

(** Lines 168-170: a drawing arrived and is stored as a JSON string. *)
Definition store_drawing (drawing : string) (st : session_state)
  : session_state :=
  {| geojson_input := Some (Some drawing);
     show_map := Some false;
     map_center := map_center st;
     map_zoom := map_zoom st;
     selected_region := selected_region st |}.

(** What can happen between two runs of the script.  A call of
    [set_region] that raises leaves the session as it was. *)
Inductive event : Type :=
| Rerun
| Region (name : string)
| Drawing (drawing : string)
| Reset.

Definition step (st : session_state) (e : event) : session_state :=
  match e with
  | Rerun => init_session st
  | Region name =>
      match set_region name st with
      | Ok st' => st'
      | Raise _ => st
      end
  | Drawing drawing => store_drawing drawing st
  | Reset => reset_aoi st
  end.

(** The session after the first run of the script and the given events. *)
Definition session_after (events : list event) : session_state :=
  fold_left step events (init_session empty_session).

(** What a run of the script relies on: the four keys it reads are
    present, and a hidden map comes with a stored drawing. *)
Definition session_ready (st : session_state) : Prop :=
  (exists stored, geojson_input st = Some stored) /\
  (exists shown, show_map st = Some shown) /\
  (exists center, map_center st = Some center) /\
  (exists zoom, map_zoom st = Some zoom) /\
  (show_map st = Some false ->
   exists drawing, geojson_input st = Some (Some drawing)).

End Session.

(** ** [metrics/gee_utils.py] *)

Module GeeUtils.

Section Initialization.

Variable credentials : Type.

(** The module's flag [_initialized] and the calls of [ee.Initialize]
    made so far. *)
Record ee_state : Type := {
  initialized : bool;
  initialize_calls : list credentials
}.

Definition fresh : ee_state :=
  {| initialized := false; initialize_calls := [] |}.

(** [init_ee(credentials)]; [succeeds] tells whether [ee.Initialize]
    returns or raises on this call.  The boolean of the result is [false]
    when the exception of [ee.Initialize] leaves the function. *)
Definition init_ee (creds : credentials) (succeeds : bool) (st : ee_state)
  : ee_state * bool :=
  if initialized st then (st, true)
  else
    let calls := initialize_calls st ++ [creds] in
    if succeeds
    then ({| initialized := true; initialize_calls := calls |}, true)
    else ({| initialized := false; initialize_calls := calls |}, false).

Definition is_ee_initialized (st : ee_state) : bool := initialized st.

Definition after_calls (calls : list (credentials * bool)) : ee_state :=
  fold_left (fun st call => fst (init_ee (fst call) (snd call) st))
            calls fresh.

(** The calls up to and including the first one that succeeds. *)
Fixpoint through_first_success (calls : list (credentials * bool))
  : list credentials :=
  match calls with
  | [] => []
  | (creds, succeeds) :: calls' =>
      creds :: (if succeeds then [] else through_first_success calls')
  end.

End Initialization.

End GeeUtils.

(** ** [geojson_to_ee] *)

Module Geojson.

#[local] Unset Elimination Schemes.

Inductive json : Type :=
| JNull
| JBool (b : bool)
| JNumber (q : Q)
| JString (s : string)
| JArray (elements : list json)
| JObject (members : list (string * json)).

#[local] Set Elimination Schemes.

Fixpoint lookup (members : list (string * json)) (name : string)
  : option json :=
  match members with
  | [] => None
  | (k, v) :: members' =>
      if String.eqb k name then Some v else lookup members' name
  end.

(** [v[name]] for a string [name]; [None] when the subscript raises
    ([KeyError] on an object without the member, [TypeError] or
    [IndexError] on the other values). *)
Definition member (v : json) (name : string) : option json :=
  match v with
  | JObject members => lookup members name
  | _ => None
  end.

(** [v[0]]; [None] when the subscript raises. *)
Definition first (v : json) : option json :=
  match v with
  | JArray (x :: _) => Some x
  | JString (String c _) => Some (JString (String c EmptyString))
  | _ => None
  end.

(** [v == text] for a string literal [text]. *)
Definition is_text (v : json) (text : string) : bool :=
  match v with
  | JString s => String.eqb s text
  | _ => false
  end.

Definition option_bind {A B : Type} (o : option A) (k : A -> option B)
  : option B :=
  match o with
  | Some a => k a
  | None => None
  end.

(** The body of the [try] block up to the call of [ee.Geometry]: the
    geometry of a feature collection, of a feature, or the value itself. *)
Definition select_geometry (geojson : json) : option json :=
  option_bind (member geojson "type") (fun kind =>
  if is_text kind "FeatureCollection" then
    option_bind (member geojson "features") (fun features =>
    option_bind (first features) (fun feature =>
    member feature "geometry"))
  else if is_text kind "Feature" then member geojson "geometry"
  else Some geojson).

Section Parsing.

Variable geometry : Type.

(** [json.loads] and [ee.Geometry]; [None] when they raise. *)
Variable loads : string -> option json.
Variable Geometry : json -> option geometry.

(** [ee.Geometry(geom)], with its exception turned into [ValueError]. *)
Definition geometry_or_error (geom : json) : result geometry :=
  match Geometry geom with
  | Some g => Ok g
  | None => Raise ValueError
  end.

(** Any exception of the [try] block is raised again as [ValueError]. *)
Definition geojson_to_ee (geojson_str : option string) : result geometry :=
  match option_bind geojson_str (fun text =>
        option_bind (loads text) (fun geojson =>
        option_bind (select_geometry geojson) Geometry)) with
  | Some geom => Ok geom
  | None => Raise ValueError
  end.

End Parsing.

(** Lines 159-166: the feature collection built around a drawn geometry. *)
Definition feature (geom : json) : json :=
  JObject [ ("type"%string, JString "Feature");
            ("geometry"%string, geom);
            ("properties"%string, JObject []) ].

Definition feature_collection (features : list json) : json :=
  JObject [ ("type"%string, JString "FeatureCollection");
            ("features"%string, JArray features) ].

Definition drawn (geom : json) : json := feature_collection [feature geom].

(** A polygon geometry, for examples. *)
Definition unit_square : json :=
  JObject [ ("type"%string, JString "Polygon");
            ("coordinates"%string,
             JArray [ JArray [ JArray [JNumber 0; JNumber 0];
                               JArray [JNumber 1; JNumber 0];
                               JArray [JNumber 1; JNumber 1];
                               JArray [JNumber 0; JNumber 0] ] ]) ].

End Geojson.

(** ** The sequence of service calls of "Run Analysis" *)

Module Analysis.

Import App.

Local Open Scope py_scope.

Section Flow.

Context {G : GeometryService}.

(** The services the block calls, each of which may raise. *)
Variables Metrics Image : Type.
Variable geojson_to_ee : option string -> result geometry.
Variable get_landcover_metrics : geometry -> result Metrics.
Variable get_ndvi_rating_map : geometry -> result Image.
Variable get_number_of_occurrences : geometry -> result Z.
Variable get_gbif_sample : geometry -> Z -> result (list Gbif.OccurrenceRecord).
Variable get_ndvi_rating_summary : Image -> geometry -> Z -> result (dict Z).

Record AnalysisResult : Type := {
  metrics : Metrics;
  bio_metrics : Gbif.DiversityIndices;
  rating : RatingSummary
}.

(** Lines 181-392 without the rendering: the calls in their order, with
    the variable [aoi_ee] bound as the block binds it.  [Raise] is the
    exception the [except] clause of the block reports. *)
Definition run_analysis (geojson_input : option string)
  : result AnalysisResult :=
  aoi_ee <- geojson_to_ee geojson_input ;;
  let area_km2 := (area aoi_ee / 1000000)%R in
  let aoi_ee := enforce_area_limit MAX_AOI_KM2 aoi_ee in
  _ <- get_landcover_metrics aoi_ee ;;
  ndvi_map <- get_ndvi_rating_map aoi_ee ;;
  aoi_ee <- geojson_to_ee geojson_input ;;
  metrics <- get_landcover_metrics aoi_ee ;;
  occ_total <- get_number_of_occurrences aoi_ee ;;
  let n_samples := Sampling.n_samples occ_total in
  samples <- get_gbif_sample aoi_ee n_samples ;;
  bio_metrics <- Gbif.get_biodiversity_indices samples ;;
  let scale_adjusted := Rating.scale_adjusted area_km2 in
  ndvi_rating <- get_ndvi_rating_summary ndvi_map aoi_ee scale_adjusted ;;
  rating <- rating_summary ndvi_rating scale_adjusted ;;
  Ok {| metrics := metrics; bio_metrics := bio_metrics; rating := rating |}.

End Flow.

End Analysis.

(** * Properties *)

Import Landcover Gbif App Spec Numerics.

Local Open Scope py_scope.

Arguments sum : simpl never.
Arguments qsum : simpl never.
Arguments rsum : simpl never.

(** ** Sums and comprehensions *)

Section Sums.

Lemma fold_add_shift (xs : list Z) (a : Z) :
  fold_left Z.add xs a = (a + fold_left Z.add xs 0)%Z.
Proof.
  revert a; induction xs as [|x xs IH]; intro a; simpl.
  - lia.
  - rewrite IH, (IH x); lia.
Qed.

Lemma sum_nil : sum [] = 0%Z.
Proof. reflexivity. Qed.

Lemma sum_cons (x : Z) (xs : list Z) : sum (x :: xs) = (x + sum xs)%Z.
Proof. unfold sum; cbn [fold_left]; apply fold_add_shift. Qed.

Lemma sum_app (xs ys : list Z) : sum (xs ++ ys) = (sum xs + sum ys)%Z.
Proof.
  induction xs as [|x xs IH]; cbn [app].
  - rewrite sum_nil; lia.
  - rewrite !sum_cons, IH; lia.
Qed.

Lemma sum_nonneg (xs : list Z) :
  Forall (fun x => 0 <= x)%Z xs -> (0 <= sum xs)%Z.
Proof.
  induction 1 as [|x xs Hx _ IH].
  - rewrite sum_nil; lia.
  - rewrite sum_cons; lia.
Qed.

Lemma fold_radd_shift (xs : list R) (a : R) :
  fold_left Rplus xs a = (a + fold_left Rplus xs 0)%R.
Proof.
  revert a; induction xs as [|x xs IH]; intro a; simpl.
  - lra.
  - rewrite IH, (IH (0 + x)%R); lra.
Qed.

Lemma rsum_nil : rsum [] = 0%R.
Proof. reflexivity. Qed.

Lemma rsum_cons (x : R) (xs : list R) : rsum (x :: xs) = (x + rsum xs)%R.
Proof.
  unfold rsum; cbn [fold_left]; rewrite fold_radd_shift; lra.
Qed.

Lemma fold_qadd_shift (xs : list Q) (a : Q) :
  (fold_left Qplus xs a == a + fold_left Qplus xs 0)%Q.
Proof.
  revert a; induction xs as [|x xs IH]; intro a; simpl.
  - ring.
  - rewrite IH, (IH (0 + x)%Q); ring.
Qed.

Lemma qsum_nil : qsum [] = 0%Q.
Proof. reflexivity. Qed.

Lemma qsum_cons (x : Q) (xs : list Q) : (qsum (x :: xs) == x + qsum xs)%Q.
Proof.
  unfold qsum; cbn [fold_left]; rewrite fold_qadd_shift; ring.
Qed.

End Sums.

(** ** Exceptions *)

Lemma comprehension_ok_map {A B : Type} (f : A -> result B) (g : A -> B)
    (l : list A) :
  (forall x, In x l -> f x = Ok (g x)) -> comprehension f l = Ok (map g l).
Proof.
  induction l as [|x l IH]; intro H; simpl.
  - reflexivity.
  - rewrite (H x (or_introl eq_refl)); simpl.
    rewrite IH by (intros y Hy; apply H; right; exact Hy).
    reflexivity.
Qed.

Lemma comprehension_raise {A B : Type} (f : A -> result B) (l : list A) :
  (exists x, In x l /\ raises (f x)) -> raises (comprehension f l).
Proof.
  induction l as [|x l IH]; intros [y [Hin Hy]].
  - destruct Hin.
  - simpl. destruct (f x) as [b|e] eqn:Hfx; simpl.
    + destruct Hin as [->|Hin].
      * destruct Hy as [e He]; congruence.
      * destruct (IH (ex_intro _ y (conj Hin Hy))) as [e He].
        rewrite He; simpl; exists e; reflexivity.
    + exists e; reflexivity.
Qed.

Lemma comprehension_ext {A B : Type} (f g : A -> result B) (l : list A) :
  (forall x, In x l -> f x = g x) -> comprehension f l = comprehension g l.
Proof.
  induction l as [|x l IH]; intro H; simpl.
  - reflexivity.
  - rewrite (H x (or_introl eq_refl)).
    rewrite IH by (intros y Hy; apply H; right; exact Hy).
    reflexivity.
Qed.

Lemma truediv_ok (a b : Z) :
  b <> 0%Z -> truediv a b = Ok (inject_Z a / inject_Z b)%Q.
Proof.
  intro Hb; unfold truediv.
  destruct (Z.eqb_spec b 0) as [E|_]; [contradiction|reflexivity].
Qed.

Lemma truediv_zero (a : Z) : truediv a 0 = Raise ZeroDivisionError.
Proof. reflexivity. Qed.

(** ** The rating summary *)

Lemma rating_summary_zero_total (ndvi_rating : dict Z) (scale_adjusted : Z) :
  sum (values ndvi_rating) = 0%Z ->
  rating_summary ndvi_rating scale_adjusted = Raise ZeroDivisionError.
Proof.
  intro H; unfold rating_summary; rewrite H; reflexivity.
Qed.

Lemma rating_summary_positive_total (ndvi_rating : dict Z) (scale_adjusted : Z) :
  sum (values ndvi_rating) <> 0%Z ->
  returns (rating_summary ndvi_rating scale_adjusted).
Proof.
  intro H; unfold rating_summary.
  rewrite (truediv_ok _ H); simpl.
  eexists; reflexivity.
Qed.

(** C1. The specification asks that a rating histogram of total 0 be
    summarised with percentages and hectares equal to 0, without an
    exception.  The block of [streamlit_app.py] divides by the total with no
    guard: on the empty rating histogram, and on the histogram that records
    the five ratings with count 0, the summary raises [ZeroDivisionError]. *)
Theorem rating_summary_no_forest_pixels_raises :
  rating_summary [] 10 = Raise ZeroDivisionError /\
  rating_summary
    [ (KStr "1", 0%Z); (KStr "2", 0%Z); (KStr "3", 0%Z);
      (KStr "4", 0%Z); (KStr "5", 0%Z) ] 10 = Raise ZeroDivisionError.
Proof.
  split; apply rating_summary_zero_total; reflexivity.
Qed.

(** ** Dictionary lookups *)

Lemma key_eqb_spec (a b : key) : reflect (a = b) (key_eqb a b).
Proof.
  destruct a as [s|n], b as [t|m]; simpl;
    try (constructor; discriminate).
  - destruct (String.eqb_spec s t); constructor; congruence.
  - destruct (Z.eqb_spec n m); constructor; congruence.
Qed.

Lemma get_absent (d : dict Z) (k : key) (default : Z) :
  ~ In k (keys d) -> get d k default = default.
Proof.
  induction d as [|[k' v] d IH]; simpl; intro Hk.
  - reflexivity.
  - destruct (key_eqb_spec k' k) as [->|_].
    + exfalso; apply Hk; left; reflexivity.
    + apply IH; intro Hin; apply Hk; right; exact Hin.
Qed.

Lemma among_spec (ks : list key) (k : key) : among ks k = true <-> In k ks.
Proof.
  unfold among; rewrite existsb_exists; split.
  - intros [x [Hx E]]. destruct (key_eqb_spec k x); [subst; exact Hx|discriminate].
  - intro Hk; exists k; split; [exact Hk|].
    destruct (key_eqb_spec k k); [reflexivity|contradiction].
Qed.

(** Looking one key [k'] up in every key of a duplicate-free list. *)
Lemma sum_single_hit (k' : key) (v : Z) (f : key -> Z) (ks : list key) :
  NoDup ks -> f k' = 0%Z ->
  sum (map (fun k => if key_eqb k' k then v else f k) ks) =
    ((if among ks k' then v else 0) + sum (map f ks))%Z.
Proof.
  intros Hnd Hf; induction Hnd as [|k ks Hk Hnd IH]; cbn [map].
  - rewrite sum_nil; reflexivity.
  - rewrite !sum_cons, IH; unfold among; cbn [existsb]; fold (among ks k').
    destruct (key_eqb_spec k' k) as [->|Hne]; cbn [orb].
    + destruct (among ks k) eqn:E.
      * apply among_spec in E; contradiction.
      * rewrite Hf; lia.
    + lia.
Qed.

(** The counts found by looking a duplicate-free list of keys up add to
    the counts of the entries that carry one of these keys. *)
Lemma sum_get_filter (d : dict Z) (ks : list key) :
  wf d -> NoDup ks ->
  sum (map (fun k => get d k 0%Z) ks) =
    sum (values (filter (fun kv => among ks (fst kv)) d)).
Proof.
  intros Hd Hks; induction d as [|[k' v] d IH].
  - cbn [get filter values map].
    induction ks as [|k ks IHk]; cbn [map].
    + reflexivity.
    + rewrite sum_cons, IHk by (inversion Hks; assumption).
      rewrite sum_nil; reflexivity.
  - unfold wf, keys in Hd; cbn [map fst] in Hd.
    inversion Hd as [|? ? Hk' Hd']; subst.
    cbn [get filter fst].
    rewrite (sum_single_hit k' v (fun k => get d k 0%Z) Hks)
      by (apply get_absent; exact Hk').
    rewrite (IH Hd').
    destruct (among ks k'); unfold values; cbn [map snd].
    + rewrite sum_cons; reflexivity.
    + lia.
Qed.

(** Splitting a sum of counts along a test on the entries. *)
Lemma sum_values_split (p : key * Z -> bool) (d : dict Z) :
  sum (values d) =
    (sum (values (filter p d)) + sum (values (filter (fun kv => negb (p kv)) d)))%Z.
Proof.
  induction d as [|kv d IH]; unfold values in *; cbn [map filter].
  - reflexivity.
  - rewrite sum_cons, IH.
    destruct (p kv); cbn [negb map]; rewrite sum_cons; lia.
Qed.


(** ** Habitat fractions *)

Lemma natural_keys_nodup : NoDup natural_keys.
Proof.
  vm_compute; repeat constructor; simpl; intuition discriminate.
Qed.

Lemma anthropogenic_keys_nodup : NoDup anthropogenic_keys.
Proof.
  vm_compute; repeat constructor; simpl; intuition discriminate.
Qed.

Lemma habitat_groups_disjoint (k : key) :
  among natural_keys k = true -> among anthropogenic_keys k = false.
Proof.
  intro Hn; apply among_spec in Hn.
  destruct (among anthropogenic_keys k) eqn:Ha; [|reflexivity].
  apply among_spec in Ha. exfalso.
  vm_compute in Hn, Ha.
  intuition (subst; discriminate).
Qed.

Lemma natural_count_filter (h : dict Z) :
  wf h ->
  sum (map (fun cls => get h (KStr (str cls)) 0%Z) natural_classes) =
    sum (values (filter (fun kv => among natural_keys (fst kv)) h)).
Proof.
  intro Hwf.
  rewrite <- (sum_get_filter Hwf natural_keys_nodup).
  unfold natural_keys; rewrite map_map; reflexivity.
Qed.

Lemma anthropogenic_count_filter (h : dict Z) :
  wf h ->
  sum (map (fun cls => get h (KStr (str cls)) 0%Z) anthropogenic_classes) =
    sum (values (filter (fun kv => among anthropogenic_keys (fst kv)) h)).
Proof.
  intro Hwf.
  rewrite <- (sum_get_filter Hwf anthropogenic_keys_nodup).
  unfold anthropogenic_keys; rewrite map_map; reflexivity.
Qed.

Lemma total_by_habitat (h : dict Z) :
  sum (values h) =
    (sum (values (filter (fun kv => among natural_keys (fst kv)) h)) +
     sum (values (filter (fun kv => among anthropogenic_keys (fst kv)) h)) +
     sum (values (filter other_class h)))%Z.
Proof.
  induction h as [|kv h IH]; unfold values in *; cbn [map filter].
  - reflexivity.
  - rewrite sum_cons, IH; unfold other_class.
    destruct (among natural_keys (fst kv)) eqn:Hn.
    + rewrite (habitat_groups_disjoint _ Hn); cbn [orb negb map].
      rewrite sum_cons; lia.
    + destruct (among anthropogenic_keys (fst kv));
        cbn [orb negb map]; rewrite sum_cons; lia.
Qed.


Lemma pixel_counts_filter (p : key * Z -> bool) (h : dict Z) :
  pixel_counts h -> pixel_counts (filter p h).
Proof.
  unfold pixel_counts, values; rewrite !Forall_forall; intros H x Hx.
  apply in_map_iff in Hx; destruct Hx as [kv [<- Hin]].
  apply filter_In in Hin; destruct Hin as [Hin _].
  apply H; apply in_map_iff; exists kv; split; auto.
Qed.

Lemma inject_Z_nonzero (t : Z) : t <> 0%Z -> ~ (inject_Z t == 0)%Q.
Proof.
  intros Ht E; apply Ht. unfold Qeq in E; simpl in E; lia.
Qed.

Lemma quotient_sum (a b t : Z) :
  t <> 0%Z ->
  (inject_Z a / inject_Z t + inject_Z b / inject_Z t
     == inject_Z (a + b) / inject_Z t)%Q.
Proof.
  intro Ht. rewrite inject_Z_plus. field.
  apply inject_Z_nonzero; exact Ht.
Qed.

Lemma quotient_le_one (a t : Z) :
  (0 < t)%Z -> ((a <= t)%Z <-> (inject_Z a / inject_Z t <= 1)%Q).
Proof.
  intro Ht.
  assert (0 < inject_Z t)%Q as Hq by (unfold Qlt; simpl; lia).
  assert (~ inject_Z t == 0)%Q as Hne by (apply inject_Z_nonzero; lia).
  split.
  - intro Hle. apply Qle_shift_div_r; [exact Hq|].
    rewrite Qmult_1_l; unfold Qle; simpl; lia.
  - intro Hle.
    assert (inject_Z a / inject_Z t * inject_Z t <= 1 * inject_Z t)%Q as Hm
      by (apply Qmult_le_compat_r; [exact Hle|apply Qlt_le_weak; exact Hq]).
    assert (inject_Z a / inject_Z t * inject_Z t == inject_Z a)%Q as E
      by (field; exact Hne).
    rewrite E, Qmult_1_l in Hm. unfold Qle in Hm; simpl in Hm; lia.
Qed.

Lemma quotient_eq_one (a t : Z) :
  (0 < t)%Z -> (a = t <-> (inject_Z a / inject_Z t == 1)%Q).
Proof.
  intro Ht.
  assert (~ inject_Z t == 0)%Q as Hq by (apply inject_Z_nonzero; lia).
  split.
  - intros ->. field; exact Hq.
  - intro E. apply inject_Z_injective.
    assert (inject_Z a / inject_Z t * inject_Z t == inject_Z a)%Q as Ea
      by (field; exact Hq).
    rewrite <- Ea, E; ring.
Qed.



(** ** Histograms that are not keyed by strings *)

Lemma lookups_miss (h : dict Z) (classes : list Z) :
  no_string_key h ->
  sum (map (fun cls => get h (KStr (str cls)) 0%Z) classes) = 0%Z.
Proof.
  intro Hh; induction classes as [|c cs IH]; cbn [map].
  - reflexivity.
  - rewrite sum_cons, IH, get_absent by apply Hh; reflexivity.
Qed.

Lemma zero_quotient (t : Z) :
  exists q, (if (0 <? t)%Z then truediv 0 t else Ok 0%Q) = Ok q /\ (q == 0)%Q.
Proof.
  destruct (Z.ltb_spec 0 t) as [Ht|Ht].
  - rewrite truediv_ok by lia. eexists; split; [reflexivity|].
    unfold Qdiv; rewrite Qmult_0_l; reflexivity.
  - exists 0%Q; split; reflexivity.
Qed.

(** ** Enclosing logarithms *)

Section Logarithms.

Local Open Scope R_scope.

Lemma Q2R_of_nat (n : nat) : Q2R (inject_Z (Z.of_nat n)) = INR n.
Proof.
  unfold Q2R; simpl. rewrite INR_IZR_INZ. lra.
Qed.

Lemma Q2R_exp_term (q : Q) (n : nat) :
  Q2R (exp_term q n) = / INR (fact n) * Q2R q ^ n.
Proof.
  induction n as [|n IH].
  - simpl. unfold Q2R; simpl; lra.
  - cbn [exp_term]. rewrite Q2R_div, Q2R_mult, IH, Q2R_of_nat.
    + rewrite fact_simpl, mult_INR. cbn [pow].
      field. split; [apply INR_fact_neq_0 | apply not_0_INR; discriminate].
    + intro E. unfold Qeq in E; simpl in E; lia.
Qed.

Lemma Q2R_exp_partial (q : Q) (n : nat) :
  Q2R (exp_partial q n) = E1 (Q2R q) n.
Proof.
  unfold E1; induction n as [|n IH].
  - cbn [exp_partial sum_f_R0]. apply Q2R_exp_term.
  - cbn [exp_partial sum_f_R0]. rewrite Q2R_plus, IH, Q2R_exp_term; reflexivity.
Qed.

(** On [0, 1] the series of [exp (- x)] alternates with decreasing terms,
    so consecutive partial sums enclose its value. *)
Lemma exp_neg_enclosure (x : R) (N : nat) :
  0 <= x <= 1 ->
  E1 (- x) (S (2 * N)) <= exp (- x) <= E1 (- x) (2 * N).
Proof.
  intros [H0 H1].
  assert (forall n,
    sum_f_R0 (tg_alt (fun i => x ^ i / INR (fact i))) n = E1 (- x) n) as Hsum.
  { intro n; unfold E1; apply sum_eq; intros i _.
    unfold tg_alt. replace (- x) with (-1 * x) by lra.
    rewrite Rpow_mult_distr. unfold Rdiv; ring. }
  rewrite <- !Hsum.
  apply alternated_series_ineq.
  - intro n. cbn [pow]. rewrite fact_simpl, mult_INR.
    assert (0 < INR (fact n)) as Hf by apply INR_fact_lt_0.
    assert (0 <= x ^ n) as Hp by (apply pow_le; exact H0).
    assert (1 <= INR (S n)) as Hs.
    { replace 1 with (INR 1) by reflexivity. apply le_INR; lia. }
    unfold Rdiv. rewrite Rinv_mult.
    assert (0 < / INR (fact n)) as Hi by (apply Rinv_0_lt_compat; exact Hf).
    assert (/ INR (S n) <= 1) as Hi2.
    { rewrite <- Rinv_1. apply Rinv_le_contravar; lra. }
    assert (0 < / INR (S n)) as Hi3 by (apply Rinv_0_lt_compat; lra).
    assert (x * / INR (S n) <= 1) by nra.
    assert (0 <= x ^ n * / INR (fact n)) by nra.
    replace (x * x ^ n * (/ INR (S n) * / INR (fact n)))
      with ((x * / INR (S n)) * (x ^ n * / INR (fact n))) by ring.
    nra.
  - apply cv_speed_pow_fact.
  - intros eps Heps. destruct (E1_cvg (- x) eps Heps) as [n0 Hn0].
    exists n0; intros n Hn. rewrite Hsum. apply Hn0; exact Hn.
Qed.

Lemma ln_below (a u : Q) (N : nat) :
  (0 < a)%Q -> (0 <= u)%Q -> (u <= 1)%Q ->
  (a < exp_partial (- u) (S (2 * N)))%Q ->
  ln (Q2R a) < - Q2R u.
Proof.
  intros Ha Hu0 Hu1 Hlt.
  apply Qlt_Rlt in Ha, Hlt. apply Qle_Rle in Hu0, Hu1.
  rewrite Q2R_exp_partial, Q2R_opp in Hlt.
  replace (Q2R 0) with 0 in * by (unfold Q2R; simpl; lra).
  replace (Q2R 1) with 1 in * by (unfold Q2R; simpl; lra).
  rewrite <- (ln_exp (- Q2R u)).
  apply ln_increasing; [exact Ha|].
  pose proof (@exp_neg_enclosure (Q2R u) N (conj Hu0 Hu1)) as [Hlo _]. lra.
Qed.

Lemma ln_above (a u : Q) (N : nat) :
  (0 < a)%Q -> (0 <= u)%Q -> (u <= 1)%Q ->
  (exp_partial (- u) (2 * N) < a)%Q ->
  - Q2R u < ln (Q2R a).
Proof.
  intros Ha Hu0 Hu1 Hlt.
  apply Qlt_Rlt in Ha, Hlt. apply Qle_Rle in Hu0, Hu1.
  rewrite Q2R_exp_partial, Q2R_opp in Hlt.
  replace (Q2R 0) with 0 in * by (unfold Q2R; simpl; lra).
  replace (Q2R 1) with 1 in * by (unfold Q2R; simpl; lra).
  rewrite <- (ln_exp (- Q2R u)).
  apply ln_increasing; [apply exp_pos|].
  pose proof (@exp_neg_enclosure (Q2R u) N (conj Hu0 Hu1)) as [_ Hhi]. lra.
Qed.

Ltac decimal_bound lemma a u :=
  replace (IZR (Qnum a) / IZR (Zpos (Qden a))) with (Q2R a)
    by (unfold Q2R; simpl; lra);
  match goal with
  | |- ?l < ln _ =>
      replace l with (- Q2R u) by (unfold Q2R; simpl; lra)
  | |- ln _ < ?r =>
      replace r with (- Q2R u) by (unfold Q2R; simpl; lra)
  end;
  apply (@lemma a u 4%nat); vm_compute; reflexivity || discriminate.

Lemma ln_half : -0.69315 < ln (1 / 2) < -0.69314.
Proof.
  split.
  - decimal_bound ln_above (1 # 2)%Q (69315 # 100000)%Q.
  - decimal_bound ln_below (1 # 2)%Q (69314 # 100000)%Q.
Qed.

Lemma ln_three_fifths : -0.51083 < ln (3 / 5) < -0.51082.
Proof.
  split.
  - decimal_bound ln_above (3 # 5)%Q (51083 # 100000)%Q.
  - decimal_bound ln_below (3 # 5)%Q (51082 # 100000)%Q.
Qed.

Lemma ln_seven_tenths : -0.35668 < ln (7 / 10) < -0.35667.
Proof.
  split.
  - decimal_bound ln_above (7 # 10)%Q (35668 # 100000)%Q.
  - decimal_bound ln_below (7 # 10)%Q (35667 # 100000)%Q.
Qed.

Lemma ln_three_tenths : -1.20398 < ln (3 / 10) < -1.20396.
Proof.
  replace (3 / 10) with (3 / 5 * (1 / 2)) by lra.
  rewrite ln_mult by lra.
  pose proof ln_half; pose proof ln_three_fifths; lra.
Qed.

Lemma ln_two : 0.69314 < ln 2 < 0.69315.
Proof.
  replace 2 with (/ (1 / 2)) by lra.
  rewrite ln_Rinv by lra.
  pose proof ln_half; lra.
Qed.

End Logarithms.

(** ** Diversity indices of a class histogram *)

Section Diversity.

Local Open Scope R_scope.

Lemma rsum_big_sum (xs : list R) : rsum xs = big_sum xs.
Proof.
  induction xs as [|x xs IH]; [reflexivity|].
  rewrite rsum_cons, IH; reflexivity.
Qed.

Lemma Q2R_qsum (qs : list Q) : Q2R (qsum qs) = big_sum (map Q2R qs).
Proof.
  induction qs as [|q qs IH].
  - unfold Q2R; simpl; lra.
  - rewrite (Qeq_eqR _ _ (qsum_cons q qs)), Q2R_plus, IH; reflexivity.
Qed.

Lemma Q2R_quotient (c t : Z) :
  t <> 0%Z -> Q2R (inject_Z c / inject_Z t) = IZR c / IZR t.
Proof.
  intro Ht. rewrite Q2R_div by (apply inject_Z_nonzero; exact Ht).
  unfold Q2R; simpl; rewrite !Rinv_1, !Rmult_1_r; reflexivity.
Qed.

Lemma qpos_quotient (c t : Z) :
  (0 < t)%Z -> qpos (inject_Z c / inject_Z t) = (0 <? c)%Z.
Proof.
  intro Ht. unfold qpos.
  destruct (Z.ltb_spec 0 c) as [Hc|Hc].
  - apply negb_true_iff. destruct (Qle_bool _ 0) eqn:E; [|reflexivity].
    apply Qle_bool_iff in E. exfalso.
    assert (0 < inject_Z c / inject_Z t)%Q as Hq.
    { apply Qlt_shift_div_l; unfold Qlt; simpl; lia. }
    apply (Qlt_irrefl 0). eapply Qlt_le_trans; eassumption.
  - apply negb_false_iff, Qle_bool_iff.
    apply Qle_shift_div_r; [unfold Qlt; simpl; lia|].
    unfold Qle; simpl; lia.
Qed.

Lemma proportions_ok (h : dict Z) :
  sum (values h) <> 0%Z ->
  proportions h =
    Ok (map (fun c => inject_Z c / inject_Z (sum (values h)))%Q (values h)).
Proof.
  intro Ht; unfold proportions.
  apply comprehension_ok_map; intros c _; apply truediv_ok; exact Ht.
Qed.

Lemma proportions_empty : proportions [] = Ok [].
Proof. reflexivity. Qed.

Lemma filter_map_comm {A B : Type} (p : B -> bool) (f : A -> B) (l : list A) :
  filter p (map f l) = map f (filter (fun x => p (f x)) l).
Proof.
  induction l as [|x l IH]; cbn [map filter]; [reflexivity|].
  destruct (p (f x)); cbn [map]; rewrite IH; reflexivity.
Qed.

(** The code's Shannon index is the formula of the specification. *)
Lemma shannon_formula (h : dict Z) :
  (0 < sum (values h))%Z -> get_shannon_index h = Ok (Spec.shannon h).
Proof.
  intro Ht. assert (sum (values h) <> 0%Z) as Hne by lia.
  unfold get_shannon_index; rewrite (proportions_ok h Hne); cbn [bind].
  rewrite rsum_big_sum, filter_map_comm, map_map.
  unfold Spec.shannon, present, share.
  rewrite (filter_ext _ (fun c => (0 <? c)%Z))
    by (intro c; apply qpos_quotient; exact Ht).
  apply f_equal, f_equal, f_equal.
  apply map_ext; intro c. rewrite (Q2R_quotient c Hne); reflexivity.
Qed.

(** The code's Simpson index is the formula of the specification. *)
Lemma simpson_formula (h : dict Z) :
  sum (values h) <> 0%Z ->
  exists d, get_simpson_index h = Ok d /\ Q2R d = Spec.simpson h.
Proof.
  intro Hne.
  unfold get_simpson_index; rewrite (proportions_ok h Hne); cbn [bind].
  eexists; split; [reflexivity|].
  unfold Qminus; rewrite Q2R_plus, Q2R_opp, Q2R_qsum, !map_map.
  unfold Spec.simpson, share.
  replace (Q2R 1) with 1 by (unfold Q2R; simpl; lra).
  unfold Rminus; apply f_equal, f_equal, f_equal.
  apply map_ext; intro c.
  change ((inject_Z c / inject_Z (sum (values h))) ^ 2)%Q
    with ((inject_Z c / inject_Z (sum (values h))) *
          (inject_Z c / inject_Z (sum (values h))))%Q.
  rewrite Q2R_mult, (Q2R_quotient c Hne); simpl; ring.
Qed.

Lemma evenness_unfold (h : dict Z) (s : R) :
  get_shannon_index h = Ok s ->
  get_evenness_index h =
    Ok (if (1 <? List.length h)%nat then s / ln (INR (List.length h)) else 0).
Proof.
  intro Hs; unfold get_evenness_index; rewrite Hs; cbn [bind].
  destruct (1 <? List.length h)%nat; reflexivity.
Qed.

Lemma shannon_defined (h : dict Z) :
  sum (values h) <> 0%Z \/ h = [] -> returns (get_shannon_index h).
Proof.
  intros [Hne| ->]; unfold get_shannon_index.
  - rewrite (proportions_ok h Hne); eexists; reflexivity.
  - rewrite proportions_empty; eexists; reflexivity.
Qed.

Lemma present_all (h : dict Z) :
  Forall (fun c => 0 < c)%Z (values h) -> classes_present h = List.length h.
Proof.
  intro Hall; unfold classes_present, present.
  replace (filter (fun count => (0 <? count)%Z) (values h)) with (values h).
  - unfold values; apply length_map.
  - induction Hall as [|c cs Hc _ IH]; cbn [filter]; [reflexivity|].
    destruct (Z.ltb_spec 0 c); [rewrite <- IH; reflexivity|lia].
Qed.

End Diversity.

(** C10. The habitat fractions look a class up under the decimal string
    of its code.  A histogram none of whose keys is a string (keys that are
    integers, say) therefore gets the fractions 0 and 0, whatever its
    counts.  The Shannon, Simpson and evenness indices read the counts
    only: when the total is positive they are returned with the values of
    the formulas, [- sum p ln p] over the positive counts, [1 - sum p^2]
    and the Shannon index over the logarithm of the number of entries, and
    they are those of any histogram with the same counts in the same order,
    string-keyed ones included. *)
Theorem non_string_keys_lose_habitat (h : dict Z) :
  no_string_key h ->
  (exists n, get_natural_habitat_fraction h = Ok n /\ (n == 0)%Q) /\
  (exists a, get_anthropogenic_habitat_fraction h = Ok a /\ (a == 0)%Q) /\
  ((0 < sum (values h))%Z ->
   get_shannon_index h = Ok (Spec.shannon h) /\
   (exists d, get_simpson_index h = Ok d /\ Q2R d = Spec.simpson h) /\
   get_evenness_index h =
     Ok (if (1 <? List.length h)%nat
         then (Spec.shannon h / ln (INR (List.length h)))%R else 0%R)) /\
  (forall h' : dict Z, values h' = values h ->
     get_shannon_index h = get_shannon_index h' /\
     get_simpson_index h = get_simpson_index h' /\
     get_evenness_index h = get_evenness_index h').
Proof.
  intro Hh; split; [|split; [|split]].
  - unfold get_natural_habitat_fraction.
    rewrite (lookups_miss natural_classes Hh); apply zero_quotient.
  - unfold get_anthropogenic_habitat_fraction.
    rewrite (lookups_miss anthropogenic_classes Hh); apply zero_quotient.
  - intro Ht. pose proof (shannon_formula _ Ht) as Hs.
    split; [exact Hs|split].
    + apply simpson_formula; lia.
    + apply evenness_unfold; exact Hs.
  - intros h' Hv.
    assert (get_shannon_index h = get_shannon_index h') as Hs
      by (unfold get_shannon_index, proportions; rewrite Hv; reflexivity).
    split; [exact Hs|split].
    + unfold get_simpson_index, proportions; rewrite Hv; reflexivity.
    + unfold get_evenness_index; rewrite Hs.
      replace (List.length h') with (List.length h); [reflexivity|].
      rewrite <- (length_map snd h), <- (length_map snd h').
      unfold values in Hv; rewrite Hv; reflexivity.
Qed.

Lemma non_string_keys_lose_habitat_witness :
  no_string_key integer_keyed_histogram /\
  (0 < sum (values integer_keyed_histogram))%Z /\
  (exists n, get_natural_habitat_fraction integer_keyed_histogram = Ok n /\
             (n == 0)%Q) /\
  (exists a, get_anthropogenic_habitat_fraction integer_keyed_histogram = Ok a /\
             (a == 0)%Q) /\
  get_shannon_index integer_keyed_histogram =
    Ok (Spec.shannon integer_keyed_histogram) /\
  (exists d, get_simpson_index integer_keyed_histogram = Ok d /\
             Q2R d = Spec.simpson integer_keyed_histogram) /\
  get_evenness_index integer_keyed_histogram =
    Ok (Spec.shannon integer_keyed_histogram / ln (INR 2))%R.
Proof.
  assert (no_string_key integer_keyed_histogram) as Hkeys
    by (intros s Hin; simpl in Hin; intuition discriminate).
  assert (0 < sum (values integer_keyed_histogram))%Z as Htotal
    by reflexivity.
  split; [exact Hkeys|split; [exact Htotal|]].
  destruct (non_string_keys_lose_habitat Hkeys) as [Hn [Ha [Hidx _]]].
  destruct (Hidx Htotal) as [Hs [Hd He]].
  split; [exact Hn|split; [exact Ha|split; [exact Hs|split; [exact Hd|]]]].
  exact He.
Defined.

(** ** The scenario histogram [{10:700, 40:300}] *)

Section Scenario.

Local Open Scope R_scope.

Lemma quotient_between (x d lo hi : R) :
  0 < d -> lo * d < x -> x < hi * d -> lo < x / d < hi.
Proof.
  intros Hd Hlo Hhi.
  assert (x / d * d = x) as E by (field; lra).
  split; apply (Rmult_lt_reg_r d); try exact Hd; rewrite E; assumption.
Qed.

Lemma scenario_shannon :
  Spec.shannon scenario_histogram = - (7 / 10 * ln (7 / 10) + 3 / 10 * ln (3 / 10)).
Proof.
  unfold Spec.shannon, share.
  change (sum (values scenario_histogram)) with 1000%Z.
  change (present scenario_histogram) with [700%Z; 300%Z].
  cbn [map big_sum fold_right].
  replace (IZR 700 / IZR 1000) with (7 / 10) by lra.
  replace (IZR 300 / IZR 1000) with (3 / 10) by lra.
  ring.
Qed.

Lemma scenario_shannon_enclosure :
  0.610857 < Spec.shannon scenario_histogram < 0.61087.
Proof.
  rewrite scenario_shannon.
  pose proof ln_seven_tenths; pose proof ln_three_tenths; lra.
Qed.

Lemma scenario_evenness_enclosure :
  0.88127 < Spec.shannon scenario_histogram / ln 2 < 0.88131.
Proof.
  pose proof scenario_shannon_enclosure as [Hlo Hhi].
  pose proof ln_two as [Llo Lhi].
  apply quotient_between; lra.
Qed.

Lemma zero_count_shannon : Spec.shannon zero_count_histogram = ln 2.
Proof.
  unfold Spec.shannon, share.
  change (sum (values zero_count_histogram)) with 2%Z.
  change (present zero_count_histogram) with [1%Z; 1%Z].
  cbn [map big_sum fold_right].
  replace (IZR 1 / IZR 2) with (/ 2) by lra.
  rewrite ln_Rinv by lra. lra.
Qed.

End Scenario.

(** C4. For every non-empty class histogram (positive total) the code's
    Shannon index is [- sum p ln p] over the classes of positive count,
    with [p = count/total], and its Simpson index is [1 - sum p^2].  On the
    scenario histogram [{10:700, 40:300}], keyed as the raster service keys
    it, the natural and anthropogenic fractions are 0.7 and 0.3, the
    Shannon index is [-(0.7 ln 0.7 + 0.3 ln 0.3)], which is 0.611 to
    within 0.001, the Simpson index is 0.42, and evenness is 0.882 to
    within 0.001. *)
Theorem class_histogram_indices :
  (forall h : dict Z, (0 < sum (values h))%Z ->
     get_shannon_index h = Ok (Spec.shannon h) /\
     (exists d, get_simpson_index h = Ok d /\ Q2R d = Spec.simpson h)) /\
  (exists n, get_natural_habitat_fraction scenario_histogram = Ok n /\
             (n == 7 # 10)%Q) /\
  (exists a, get_anthropogenic_habitat_fraction scenario_histogram = Ok a /\
             (a == 3 # 10)%Q) /\
  (exists s, get_shannon_index scenario_histogram = Ok s /\
             s = (- (0.7 * ln 0.7 + 0.3 * ln 0.3))%R /\
             (Rabs (s - 0.611) < 0.001)%R) /\
  (exists d, get_simpson_index scenario_histogram = Ok d /\
             (d == 42 # 100)%Q) /\
  (exists e, get_evenness_index scenario_histogram = Ok e /\
             (Rabs (e - 0.882) < 0.001)%R).
Proof.
  assert (0 < sum (values scenario_histogram))%Z as Hpos by reflexivity.
  pose proof (shannon_formula _ Hpos) as Hs.
  repeat split.
  - apply shannon_formula; assumption.
  - apply simpson_formula; lia.
  - eexists; split; [reflexivity|reflexivity].
  - eexists; split; [reflexivity|reflexivity].
  - exists (Spec.shannon scenario_histogram); split; [exact Hs|split].
    + rewrite scenario_shannon.
      replace 0.7%R with (7 / 10)%R by lra.
      replace 0.3%R with (3 / 10)%R by lra. reflexivity.
    + pose proof scenario_shannon_enclosure.
      apply Rabs_def1; lra.
  - eexists; split; [reflexivity|reflexivity].
  - rewrite (evenness_unfold _ Hs).
    eexists; split; [reflexivity|].
    change (1 <? List.length scenario_histogram)%nat with true; cbv iota.
    change (INR (List.length scenario_histogram)) with (INR 2).
    replace (INR 2) with 2%R by (simpl; lra).
    pose proof scenario_evenness_enclosure.
    apply Rabs_def1; lra.
Qed.

Lemma class_histogram_indices_witness :
  (0 < sum (values scenario_histogram))%Z /\
  get_shannon_index scenario_histogram = Ok (Spec.shannon scenario_histogram) /\
  (exists d, get_simpson_index scenario_histogram = Ok d /\
             Q2R d = Spec.simpson scenario_histogram).
Proof.
  split; [reflexivity|].
  apply (proj1 class_histogram_indices scenario_histogram); reflexivity.
Defined.

(** C3 as stated fails.  The histogram [{10:1, 20:1, 30:0}] has two classes
    of positive count, so the stated evenness is [ln 2 / ln 2 = 1]; the code
    divides by the logarithm of [len(counts) = 3]. *)
Lemma evenness_counts_zero_count_entries :
  exists e, get_evenness_index zero_count_histogram = Ok e /\
            e <> Spec.evenness zero_count_histogram.
Proof.
  assert (0 < sum (values zero_count_histogram))%Z as Hpos by reflexivity.
  rewrite (evenness_unfold _ (shannon_formula _ Hpos)).
  eexists; split; [reflexivity|].
  change (1 <? List.length zero_count_histogram)%nat with true; cbv iota.
  unfold Spec.evenness.
  change (classes_present zero_count_histogram) with 2%nat.
  change (1 <? 2)%nat with true; cbv iota.
  change (List.length zero_count_histogram) with 3%nat.
  rewrite zero_count_shannon.
  replace (INR 2) with 2%R by (simpl; lra).
  replace (INR 3) with 3%R by (simpl; lra).
  pose proof ln_two as [L2 _].
  assert (ln 2 < ln 3)%R as L3 by (apply ln_increasing; lra).
  intro E.
  assert (ln 2 / ln 2 = 1)%R as E1 by (field; lra).
  rewrite E1 in E.
  assert (0 < ln 2 / ln 3 < 1)%R; [|lra].
  apply quotient_between; lra.
Qed.

(** C3, amended.  Whenever the Shannon index is defined (the total is not
    0, or the histogram has no entry), evenness is the Shannon index
    divided by the logarithm of the number of entries of the histogram,
    zero-count entries included, when that number exceeds 1, and 0
    otherwise.  On a histogram whose counts are all positive this is the
    evenness of the specification. *)
Theorem evenness_over_recorded_classes (h : dict Z) :
  sum (values h) <> 0%Z \/ h = [] ->
  exists s, get_shannon_index h = Ok s /\
    get_evenness_index h =
      Ok (if (1 <? List.length h)%nat
          then (s / ln (INR (List.length h)))%R else 0%R) /\
    (Forall (fun c => 0 < c)%Z (values h) ->
     get_evenness_index h = Ok (Spec.evenness h)).
Proof.
  intro Hdef. destruct (shannon_defined Hdef) as [s Hs].
  exists s; split; [exact Hs|]; split; [apply evenness_unfold; exact Hs|].
  intro Hall. rewrite (evenness_unfold _ Hs).
  unfold Spec.evenness; rewrite (present_all _ Hall).
  destruct h as [|kv h]; [reflexivity|].
  assert (0 < sum (values (kv :: h)))%Z as Hpos.
  { unfold values in *; cbn [map] in *; rewrite sum_cons.
    inversion Hall as [|? ? Hc Hrest]; subst.
    assert (0 <= sum (map snd h))%Z; [|lia].
    apply sum_nonneg. eapply Forall_impl; [|exact Hrest].
    intros; simpl in *; lia. }
  rewrite (shannon_formula _ Hpos) in Hs; injection Hs as <-; reflexivity.
Qed.

Lemma evenness_over_recorded_classes_witness :
  exists s, get_shannon_index zero_count_histogram = Ok s /\
    get_evenness_index zero_count_histogram =
      Ok (if (1 <? List.length zero_count_histogram)%nat
          then (s / ln (INR (List.length zero_count_histogram)))%R else 0%R) /\
    (Forall (fun c => 0 < c)%Z (values zero_count_histogram) ->
     get_evenness_index zero_count_histogram =
       Ok (Spec.evenness zero_count_histogram)).
Proof.
  apply evenness_over_recorded_classes.
  left; discriminate.
Defined.

(** ** The table of the five largest classes *)

Section TopFive.

Create HintDb top5.

#[local] Hint Constructors Sorted HdRel StronglySorted Permutation : top5.
#[local] Hint Unfold count_desc : top5.

Lemma insert_desc_perm (x : key * Z) (l : list (key * Z)) :
  Permutation (insert_desc x l) (x :: l).
Proof.
  induction l as [|y l IH]; cbn [insert_desc]; auto with top5.
  destruct (snd y <=? snd x)%Z; auto with top5.
  apply perm_trans with (y :: x :: l); auto with top5.
Qed.

Lemma sorted_by_count_desc_perm (l : list (key * Z)) :
  Permutation (sorted_by_count_desc l) l.
Proof.
  induction l as [|x l IH]; cbn [sorted_by_count_desc fold_right];
    auto with top5.
  fold (sorted_by_count_desc l).
  apply perm_trans with (x :: sorted_by_count_desc l);
    auto using insert_desc_perm with top5.
Qed.

Lemma insert_desc_hd (x y : key * Z) (l : list (key * Z)) :
  count_desc y x -> HdRel count_desc y l -> HdRel count_desc y (insert_desc x l).
Proof.
  intros Hyx Hl; destruct l as [|z l]; cbn [insert_desc]; auto with top5.
  destruct (snd z <=? snd x)%Z; auto with top5.
  inversion Hl; subst; auto with top5.
Qed.

Lemma insert_desc_sorted (x : key * Z) (l : list (key * Z)) :
  Sorted count_desc l -> Sorted count_desc (insert_desc x l).
Proof.
  induction 1 as [|y l Hl IH Hhd]; cbn [insert_desc]; auto with top5.
  destruct (Z.leb_spec (snd y) (snd x)) as [Hle|Hgt].
  - auto with top5.
  - constructor; [exact IH|].
    apply insert_desc_hd; [unfold count_desc; lia|exact Hhd].
Qed.

Lemma sorted_by_count_desc_sorted (l : list (key * Z)) :
  StronglySorted count_desc (sorted_by_count_desc l).
Proof.
  apply Sorted_StronglySorted.
  - intros a b c Hab Hbc; unfold count_desc in *; lia.
  - induction l as [|x l IH]; cbn [sorted_by_count_desc fold_right];
      auto using insert_desc_sorted with top5.
Qed.

Lemma strongly_sorted_split {A : Type} (R : A -> A -> Prop) (l1 l2 : list A) :
  StronglySorted R (l1 ++ l2) ->
  StronglySorted R l1 /\
  (forall a b, In a l1 -> In b l2 -> R a b).
Proof.
  induction l1 as [|x l1 IH]; cbn [app]; intro H.
  - split; [constructor|intros a b []].
  - inversion H as [|? ? Hs Hall]; subst.
    destruct (IH Hs) as [Hs1 Hcross].
    rewrite Forall_forall in Hall. split.
    + constructor; [exact Hs1|].
      apply Forall_forall; intros y Hy; apply Hall, in_or_app; left; exact Hy.
    + intros a b [<-|Ha] Hb.
      * apply Hall, in_or_app; right; exact Hb.
      * apply Hcross; assumption.
Qed.

(** The five entries are the largest of the histogram, in descending
    order of count. *)
Lemma top_5_largest (h : dict Z) :
  StronglySorted count_desc (top_5 h) /\
  (List.length (top_5 h) <= 5)%nat /\
  exists rest,
    Permutation (top_5 h ++ rest) h /\
    (forall kv kv', In kv (top_5 h) -> In kv' rest -> count_desc kv kv').
Proof.
  unfold top_5, items.
  pose proof (sorted_by_count_desc_sorted h) as Hs.
  rewrite <- (firstn_skipn 5 (sorted_by_count_desc h)) in Hs.
  destruct (strongly_sorted_split _ _ Hs) as [Hs1 Hcross].
  split; [exact Hs1|]; split; [apply firstn_le_length|].
  exists (skipn 5 (sorted_by_count_desc h)); split; [|exact Hcross].
  rewrite firstn_skipn; apply sorted_by_count_desc_perm.
Qed.

Lemma comprehension_rows {A B : Type} (f : A -> result B) (P : A -> B -> Prop)
    (l : list A) :
  (forall x, In x l -> exists y, f x = Ok y /\ P x y) ->
  exists ys, comprehension f l = Ok ys /\ Forall2 P l ys.
Proof.
  induction l as [|x l IH]; intro H; cbn [comprehension].
  - exists []; split; [reflexivity|constructor].
  - destruct (H x (or_introl eq_refl)) as [y [Hy Py]].
    destruct IH as [ys [Hys Pys]]; [intros z Hz; apply H; right; exact Hz|].
    rewrite Hy; cbn [bind]; rewrite Hys; cbn [bind].
    exists (y :: ys); split; [reflexivity|constructor; assumption].
Qed.

Lemma rows_sorted (total : Z) (top : list (key * Z))
    (rows : list (string * Z * Q)) :
  Forall2 (row_of total) top rows ->
  StronglySorted count_desc top ->
  StronglySorted (fun r r' => (row_count r' <= row_count r)%Z) rows.
Proof.
  induction 1 as [|kv row top rows Hrow Hrows IH]; intro Hs.
  - constructor.
  - inversion Hs as [|? ? Hs' Hall]; subst.
    constructor; [apply IH; exact Hs'|].
    destruct Hrow as [_ [Hc _]].
    clear IH Hs Hs'. induction Hrows as [|kv' row' top rows Hrow' Hrows IH'].
    + constructor.
    + inversion Hall as [|? ? Hkv Hall']; subst.
      constructor; [|apply IH'; exact Hall'].
      destruct Hrow' as [_ [Hc' _]]. unfold count_desc in Hkv.
      rewrite Hc, Hc'; exact Hkv.
Qed.

End TopFive.

(** *** Keys inside and outside the legend *)

Section Legend.

Lemma legend_lookup_listed (legend : list (Z * string)) (code : Z) :
  In code (map fst legend) -> returns (legend_lookup legend code).
Proof.
  induction legend as [|[c label] legend IH]; cbn [map fst In legend_lookup].
  - intros [].
  - intros [E|Hin]; destruct (Z.eqb_spec c code) as [_|Hne];
      try (eexists; reflexivity); [contradiction|apply IH; exact Hin].
Qed.

Lemma legend_lookup_unlisted (legend : list (Z * string)) (code : Z) :
  ~ In code (map fst legend) -> legend_lookup legend code = Raise KeyError.
Proof.
  induction legend as [|[c label] legend IH]; cbn [map fst In legend_lookup];
    intro Hout; [reflexivity|].
  destruct (Z.eqb_spec c code) as [E|_]; [exfalso; apply Hout; left; exact E|].
  apply IH; intro Hin; apply Hout; right; exact Hin.
Qed.

Lemma int_raises_value_error (cls : key) (e : exn) :
  int cls = Raise e -> e = ValueError.
Proof.
  destruct cls as [s|n]; cbn [int]; [|discriminate].
  unfold int_of_string.
  destruct (match rstrip (lstrip s) with
            | String "-"%char s' => option_map Z.opp (digits 0%Z false s')
            | String "+"%char s' => digits 0%Z false s'
            | _ => digits 0%Z false (rstrip (lstrip s))
            end); [discriminate|].
  intro H; injection H as <-; reflexivity.
Qed.

Lemma label_inside_legend (cls : key) :
  ~ outside_legend cls -> returns (label_of cls).
Proof.
  intro Hin; unfold label_of.
  destruct (int cls) as [code|e] eqn:Hcode; cbn [bind].
  - apply (legend_lookup_listed landcover_classes).
    destruct (in_dec Z.eq_dec code (map fst landcover_classes)) as [H|H];
      [exact H|].
    exfalso; apply Hin; right; exists code; split; [exact Hcode|exact H].
  - exfalso; apply Hin; left.
    rewrite (int_raises_value_error _ Hcode) in Hcode; exact Hcode.
Qed.

Lemma label_outside_legend (cls : key) :
  outside_legend cls ->
  label_of cls = Raise KeyError \/ label_of cls = Raise ValueError.
Proof.
  unfold label_of; intros [Hint|[code [Hint Hout]]]; rewrite Hint; cbn [bind].
  - right; reflexivity.
  - left; apply (legend_lookup_unlisted landcover_classes); exact Hout.
Qed.

(** A comprehension that raises raises the exception of one of its
    elements. *)
Lemma comprehension_raise_inv {A B : Type} (f : A -> result B) (l : list A)
    (e : exn) :
  comprehension f l = Raise e -> exists x, In x l /\ f x = Raise e.
Proof.
  induction l as [|x l IH]; cbn [comprehension]; [discriminate|].
  destruct (f x) as [b|e'] eqn:Hfx; cbn [bind].
  - destruct (comprehension f l) as [ys|e''] eqn:Hl; cbn [bind];
      [discriminate|].
    intro H; injection H as ->.
    destruct (IH eq_refl) as [y [Hy Hfy]].
    exists y; split; [right; exact Hy|exact Hfy].
  - intro H; injection H as ->.
    exists x; split; [left; reflexivity|exact Hfx].
Qed.

End Legend.

(** C8.  If one of the five largest entries has a key outside the legend,
    [get_top_5_landcover] raises, and no table is returned; on a histogram
    whose total is not 0 the exception is [KeyError] (a number that is not
    one of the eleven codes) or [ValueError] (a key that is not a number).
    If all of the five largest entries lie in the legend and the total is
    not 0 (or the histogram has no entry), it returns one row per entry, at
    most five, in descending order of count: the legend label, the count
    and the count as a percentage of the total; the entries left out have
    no larger count than the entries kept. *)
Theorem top_5_labelling (h : dict Z) :
  ((exists kv, In kv (top_5 h) /\ outside_legend (fst kv)) ->
   raises (get_top_5_landcover h) /\
   (sum (values h) <> 0%Z ->
    get_top_5_landcover h = Raise KeyError \/
    get_top_5_landcover h = Raise ValueError)) /\
  ((forall kv, In kv (top_5 h) -> ~ outside_legend (fst kv)) ->
   sum (values h) <> 0%Z \/ h = [] ->
   exists rows,
     get_top_5_landcover h = Ok rows /\
     (List.length rows <= 5)%nat /\
     Forall2 (row_of (sum (values h))) (top_5 h) rows /\
     StronglySorted (fun r r' => (row_count r' <= row_count r)%Z) rows /\
     exists rest,
       Permutation (top_5 h ++ rest) h /\
       (forall kv kv', In kv (top_5 h) -> In kv' rest -> (snd kv' <= snd kv)%Z)).
Proof.
  split.
  - intros [kv [Hin Hout]].
    assert (raises (get_top_5_landcover h)) as Hraises.
    { unfold get_top_5_landcover; apply comprehension_raise.
      exists kv; split; [exact Hin|].
      destruct kv as [cls count]; cbn [fst] in Hout.
      unfold label_of in *.
      destruct (label_outside_legend Hout) as [He|He]; unfold label_of in He;
        destruct (int cls) as [code|e']; cbn [bind] in *;
        try rewrite He; cbn [bind]; eexists; reflexivity. }
    split; [exact Hraises|].
    intro Hne. destruct Hraises as [e He].
    destruct (comprehension_raise_inv _ _ He) as [[cls count] [_ Hbody]].
    destruct (int cls) as [code|e1] eqn:Hint; cbn [bind] in Hbody.
    + destruct (legend_lookup landcover_classes code) as [label|e2] eqn:Hl;
        cbn [bind] in Hbody.
      * rewrite (truediv_ok _ Hne) in Hbody; discriminate.
      * injection Hbody as <-.
        destruct (in_dec Z.eq_dec code (map fst landcover_classes)) as [H|H].
        -- destruct (legend_lookup_listed landcover_classes code H) as [l Hl'].
           congruence.
        -- rewrite (legend_lookup_unlisted landcover_classes code H) in Hl.
           injection Hl as <-. left; exact He.
    + injection Hbody as <-.
      rewrite (int_raises_value_error _ Hint) in He. right; exact He.
  - intros Hlegend Hdef.
    destruct (top_5_largest h) as [Hsorted [Hlen [rest [Hperm Hcross]]]].
    assert (exists rows, get_top_5_landcover h = Ok rows /\
              Forall2 (row_of (sum (values h))) (top_5 h) rows)
      as [rows [Hrows Hrel]].
    { unfold get_top_5_landcover; fold (top_5 h).
      apply comprehension_rows; intros [cls count] Hin.
      destruct (label_inside_legend (Hlegend _ Hin)) as [label Hlabel].
      unfold label_of in Hlabel; cbn [fst] in Hlabel.
      assert (sum (values h) <> 0%Z) as Hne.
      { destruct Hdef as [Hne| ->]; [exact Hne|destruct Hin]. }
      destruct (int cls) as [code|e] eqn:Hint; cbn [bind] in *;
        [|discriminate].
      rewrite Hlabel; cbn [bind]. rewrite (truediv_ok _ Hne); cbn [bind].
      eexists; split; [reflexivity|].
      unfold row_of, label_of, row_label, row_count, row_percent; cbn [fst snd].
      rewrite Hint; cbn [bind]. split; [exact Hlabel|split; reflexivity]. }
    exists rows; split; [exact Hrows|].
    split; [rewrite <- (Forall2_length Hrel); exact Hlen|].
    split; [exact Hrel|].
    split; [exact (rows_sorted Hrel Hsorted)|].
    exists rest; split; [exact Hperm|exact Hcross].
Qed.

Lemma top_5_labelling_witness :
  (exists kv, In kv (top_5 unlisted_code_histogram) /\
              outside_legend (fst kv)) /\
  sum (values unlisted_code_histogram) <> 0%Z /\
  (get_top_5_landcover unlisted_code_histogram = Raise KeyError \/
   get_top_5_landcover unlisted_code_histogram = Raise ValueError) /\
  exists rows,
    get_top_5_landcover scenario_histogram = Ok rows /\
    (List.length rows <= 5)%nat /\
    Forall2 (row_of (sum (values scenario_histogram)))
      (top_5 scenario_histogram) rows /\
    StronglySorted (fun r r' => (row_count r' <= row_count r)%Z) rows /\
    exists rest,
      Permutation (top_5 scenario_histogram ++ rest) scenario_histogram /\
      (forall kv kv', In kv (top_5 scenario_histogram) -> In kv' rest ->
         (snd kv' <= snd kv)%Z).
Proof.
  assert (exists kv, In kv (top_5 unlisted_code_histogram) /\
                     outside_legend (fst kv)) as Hout.
  { exists (KStr "11", 7%Z); split; [left; reflexivity|].
    right; exists 11%Z; split; [reflexivity|].
    cbn [documented_codes In]; intuition discriminate. }
  assert (sum (values unlisted_code_histogram) <> 0%Z) as Hne
    by discriminate.
  split; [exact Hout|split; [exact Hne|split]].
  - exact (proj2 (proj1 (top_5_labelling unlisted_code_histogram) Hout) Hne).
  - apply (proj2 (top_5_labelling scenario_histogram)).
    + intros kv [<-|[<-|[]]] [Hint|[code [Hint Hcode]]];
        cbn in Hint; try discriminate;
        injection Hint as <-; apply Hcode; cbn [documented_codes In]; tauto.
    + left; discriminate.
Defined.

(** ** Species counts *)

Section SpeciesCounts.

Lemma counter_add_sum (c : list (string * Z)) (s : string) :
  sum (map snd (counter_add c s)) = (sum (map snd c) + 1)%Z.
Proof.
  induction c as [|[t n] c IH]; cbn [counter_add map snd].
  - rewrite sum_cons, sum_nil; reflexivity.
  - destruct (String.eqb t s); cbn [map snd]; rewrite !sum_cons; [lia|].
    rewrite IH; lia.
Qed.

Lemma counter_add_keys (c : list (string * Z)) (s t : string) :
  In t (map fst (counter_add c s)) <-> t = s \/ In t (map fst c).
Proof.
  induction c as [|[u n] c IH]; cbn [counter_add map fst].
  - simpl; intuition congruence.
  - destruct (String.eqb_spec u s) as [->|Hne]; cbn [map fst In].
    + intuition congruence.
    + rewrite IH; intuition congruence.
Qed.

Lemma counter_add_nodup (c : list (string * Z)) (s : string) :
  NoDup (map fst c) -> NoDup (map fst (counter_add c s)).
Proof.
  induction c as [|[u n] c IH]; cbn [counter_add map fst]; intro Hnd.
  - constructor; [intros []|constructor].
  - inversion Hnd as [|? ? Hu Hc]; subst.
    destruct (String.eqb_spec u s) as [->|Hne]; cbn [map fst].
    + constructor; assumption.
    + constructor; [|apply IH; exact Hc].
      rewrite counter_add_keys; intros [E|Hin]; [congruence|contradiction].
Qed.

Lemma counter_add_positive (c : list (string * Z)) (s : string) :
  Forall (fun n => 0 < n)%Z (map snd c) ->
  Forall (fun n => 0 < n)%Z (map snd (counter_add c s)).
Proof.
  induction c as [|[u n] c IH]; cbn [counter_add map snd]; intro Hpos.
  - constructor; [lia|constructor].
  - inversion Hpos as [|? ? Hn Hc]; subst.
    destruct (String.eqb u s); cbn [map snd]; constructor;
      try lia; auto.
Qed.

(** What [Counter] holds once the species of [l] are added to [c]. *)
Lemma counter_fold (l : list string) (c : list (string * Z)) :
  NoDup (map fst c) -> Forall (fun n => 0 < n)%Z (map snd c) ->
  let c' := fold_left counter_add l c in
  sum (map snd c') = (sum (map snd c) + Z.of_nat (List.length l))%Z /\
  NoDup (map fst c') /\
  Forall (fun n => 0 < n)%Z (map snd c') /\
  (forall t, In t (map fst c') <-> In t l \/ In t (map fst c)).
Proof.
  revert c; induction l as [|s l IH]; intros c Hnd Hpos; cbn [fold_left].
  - cbn [List.length In]; repeat split; auto; try lia; intuition.
  - destruct (IH (counter_add c s) (counter_add_nodup c s Hnd)
                (counter_add_positive c s Hpos)) as [Hsum [Hnd' [Hpos' Hkeys]]].
    repeat split; auto.
    + rewrite Hsum, counter_add_sum; cbn [List.length]; lia.
    + intro Ht; apply Hkeys in Ht; rewrite counter_add_keys in Ht.
      cbn [In]; intuition.
    + intro Ht; apply Hkeys; rewrite counter_add_keys.
      cbn [In] in Ht; intuition.
Qed.

Lemma counter_total (l : list string) :
  sum (map snd (Counter l)) = Z.of_nat (List.length l).
Proof.
  destruct (counter_fold l []) as [Hsum _];
    [constructor|constructor|].
  unfold Counter; rewrite Hsum; cbn [map]; rewrite sum_nil; reflexivity.
Qed.

Lemma counter_positive (l : list string) :
  Forall (fun n => 0 < n)%Z (map snd (Counter l)).
Proof.
  destruct (counter_fold l []) as [_ [_ [Hpos _]]];
    [constructor|constructor|exact Hpos].
Qed.

Lemma counter_size (l : list string) :
  List.length (Counter l) = List.length (nodup string_dec l).
Proof.
  destruct (counter_fold l []) as [_ [Hnd [_ Hkeys]]];
    [constructor|constructor|].
  rewrite <- (length_map fst (Counter l)).
  apply Permutation_length, NoDup_Permutation.
  - exact Hnd.
  - apply NoDup_nodup.
  - intro t; unfold Counter; rewrite Hkeys, nodup_In; cbn [map In]; intuition.
Qed.

Lemma species_list_filter (occurrences : list OccurrenceRecord) :
  species_list (filter has_species occurrences) = species_list occurrences.
Proof.
  unfold species_list.
  induction occurrences as [|occ l IH]; cbn [filter flat_map]; [reflexivity|].
  unfold has_species at 1.
  destruct (species occ) as [s|] eqn:Hs; cbn [flat_map app].
  - rewrite Hs, IH; reflexivity.
  - exact IH.
Qed.

Lemma species_list_length (occurrences : list OccurrenceRecord) :
  List.length (species_list occurrences) =
    List.length (filter has_species occurrences).
Proof.
  unfold species_list.
  induction occurrences as [|occ l IH]; cbn [filter flat_map]; [reflexivity|].
  unfold has_species at 1.
  destruct (species occ) as [s|]; cbn [app List.length]; rewrite IH; reflexivity.
Qed.

Lemma species_list_none (occurrences : list OccurrenceRecord) :
  (forall occ, In occ occurrences -> species occ = None) ->
  species_list occurrences = [].
Proof.
  unfold species_list.
  induction occurrences as [|occ l IH]; intro H; cbn [flat_map]; [reflexivity|].
  rewrite (H occ (or_introl eq_refl)), IH; [reflexivity|].
  intros o Ho; apply H; right; exact Ho.
Qed.

(** The index computation never raises, and the richness it reports is
    the number of distinct species. *)
Lemma biodiversity_returns (occurrences : list OccurrenceRecord) :
  exists r, get_biodiversity_indices occurrences = Ok r /\
            species_richness r = Z.of_nat (distinct_species occurrences).
Proof.
  unfold get_biodiversity_indices, distinct_species.
  destruct (species_list occurrences) as [|s l] eqn:Hl.
  - exists zero_indices; split; reflexivity.
  - cbv zeta.
    pose proof (counter_total (s :: l)) as HN.
    pose proof (counter_positive (s :: l)) as Hpos.
    pose proof (counter_size (s :: l)) as HS.
    set (counts := Counter (s :: l)) in *.
    set (N := sum (map snd counts)) in *.
    assert (0 < N)%Z as HNpos by (rewrite HN; cbn [List.length]; lia).
    assert (N <> 0%Z) as HNne by lia.
    rewrite (comprehension_ok_map _
      (fun n => (Q2R (inject_Z n / inject_Z N) *
                 ln (Q2R (inject_Z n / inject_Z N)))%R)).
    2:{ intros n Hn. rewrite (truediv_ok _ HNne); cbn [bind].
        unfold math_log. rewrite (qpos_quotient n HNpos).
        rewrite Forall_forall in Hpos.
        destruct (Z.ltb_spec 0 n) as [_|Hle]; [reflexivity|].
        specialize (Hpos n Hn); lia. }
    cbn [bind].
    rewrite (comprehension_ok_map _
      (fun n => ((inject_Z n / inject_Z N) ^ 2)%Q)).
    2:{ intros n _. rewrite (truediv_ok _ HNne); reflexivity. }
    cbn [bind].
    assert (map snd counts <> []) as Hne.
    { intro E; unfold N in HNpos; rewrite E, sum_nil in HNpos; lia. }
    destruct (map snd counts) as [|n ns]; [contradiction|].
    cbn [Gbif.max bind]. rewrite (truediv_ok _ HNne); cbn [bind].
    eexists; split; [reflexivity|].
    cbn [species_richness]. rewrite HS; reflexivity.
Qed.

End SpeciesCounts.

(** ** Paging through the occurrence source *)

Section PagingFacts.

Variable search : Z -> Z -> list OccurrenceRecord.

Lemma full_pages_length (pages : list (list OccurrenceRecord)) :
  Forall (fun page => ~ short page) pages ->
  (per_page * Z.of_nat (List.length pages) <=
   Z.of_nat (List.length (List.concat pages)))%Z.
Proof.
  induction 1 as [|page pages Hfull _ IH]; cbn [List.concat List.length].
  - lia.
  - rewrite length_app. unfold short in Hfull. lia.
Qed.

(** What the loop has done when it ends: it received the full pages
    [front] and then either one short page, or nothing more because its
    iterations were used up. *)
Lemma page_loop_trace (remaining : nat) :
  forall (i : Z) (occurrences : list OccurrenceRecord)
         (fetched : list (list OccurrenceRecord)),
  exists front stop,
    page_loop search remaining i occurrences fetched =
      (occurrences ++ List.concat (front ++ stop), fetched ++ front ++ stop) /\
    Forall (fun page => ~ short page) front /\
    ((exists last, stop = [last] /\ short last /\
                   (List.length front < remaining)%nat) \/
     (stop = [] /\ List.length front = remaining)) /\
    (forall j page, nth_error (front ++ stop) j = Some page ->
       page = search ((i + Z.of_nat j) * per_page)%Z per_page).
Proof.
  induction remaining as [|remaining IH]; intros i occurrences fetched.
  - exists [], []; cbn [page_loop app List.concat].
    rewrite !app_nil_r. split; [reflexivity|]. split; [constructor|].
    split; [right; split; reflexivity|].
    intros [|j] page Hj; discriminate.
  - cbn [page_loop].
    set (results := search (i * per_page)%Z per_page).
    destruct (Z.ltb_spec (Z.of_nat (List.length results)) per_page) as [Hshort|Hfull].
    + exists [], [results]; cbn [app List.concat]; rewrite app_nil_r.
      split; [reflexivity|]. split; [constructor|].
      split; [left; exists results; repeat split; [exact Hshort|cbn; lia]|].
      intros [|[|j]] page Hj; try discriminate.
      injection Hj as <-. unfold results; f_equal; lia.
    + destruct (IH (i + 1)%Z (occurrences ++ results) (fetched ++ [results]))
        as [front [stop [Hrun [Hfront [Hstop Hreq]]]]].
      exists (results :: front), stop. rewrite Hrun.
      split.
      { cbn [app List.concat]. rewrite <- !app_assoc. reflexivity. }
      split.
      { constructor; [unfold short; lia|exact Hfront]. }
      split.
      { destruct Hstop as [[last [-> [Hlast Hlen]]]|[-> Hlen]].
        - left; exists last; repeat split; [exact Hlast|cbn [List.length]; lia].
        - right; split; [reflexivity|cbn [List.length]; lia]. }
      intros [|j] page Hj; cbn [app nth_error] in Hj.
      * injection Hj as <-. unfold results; f_equal; lia.
      * rewrite (Hreq j page Hj). f_equal; lia.
Qed.

End PagingFacts.

(** C7 as stated fails.  With a cap of 300 records the first page of a
    source that holds 450 already reaches the cap, and a second page is
    requested all the same. *)
Lemma second_page_requested_at_the_cap :
  map (@List.length OccurrenceRecord) (pages_fetched small_source 300) =
    [300; 150]%nat /\
  ~ requested_below_cap (pages_fetched small_source 300) 300.
Proof.
  split; [reflexivity|].
  intro Hrule.
  assert (Z.of_nat (List.length
            (List.concat (firstn 1 (pages_fetched small_source 300)))) < 300)%Z
    as Hheld by (apply Hrule; vm_compute; lia).
  vm_compute in Hheld; discriminate.
Qed.

(** C7, amended.  For a cap [N >= 0] and any occurrence source,
    [get_gbif_sample] requests pages of 300 records at the offsets 0, 300,
    600, ... and returns the first [N] of the records received, so at most
    [N] records.  The page at offset [300 j] is requested exactly when
    [j <= N / 300] and every earlier page was full: the loop ends on the
    first page shorter than the page size, or after [N / 300 + 1] full
    pages, which hold more than [N] records.  A short page is the last
    page fetched. *)
Theorem sample_paging (search : Z -> Z -> list OccurrenceRecord) (N : Z) :
  (0 <= N)%Z ->
  let sample := get_gbif_sample search N in
  let pages := pages_fetched search N in
  (Z.of_nat (List.length sample) <= N)%Z /\
  sample = firstn (Z.to_nat N) (List.concat pages) /\
  (forall j page, nth_error pages j = Some page ->
     page = search (request_offset j) per_page) /\
  (forall j, (j < List.length pages)%nat <->
     (Z.of_nat j <= N / per_page)%Z /\
     forall i, (i < j)%nat -> ~ short (search (request_offset i) per_page)) /\
  (forall j page, nth_error pages j = Some page -> short page ->
     S j = List.length pages) /\
  ((exists last, nth_error pages (List.length pages - 1) = Some last /\
                 short last) \/
   (Z.of_nat (List.length pages) = N / per_page + 1 /\
    N < Z.of_nat (List.length (List.concat pages)))%Z) /\
  (1 <= Z.of_nat (List.length pages) <= N / per_page + 1)%Z.
Proof.
  intros HN sample pages.
  assert (0 <= N / per_page)%Z as Hdiv by (apply Z.div_pos; unfold per_page; lia).
  destruct (page_loop_trace search (Z.to_nat (N / per_page + 1)) 0 [] [])
    as [front [stop [Hrun [Hfront [Hstop Hreq]]]]].
  cbn [app] in Hrun.
  assert (pages = front ++ stop) as Hpages
    by (unfold pages, pages_fetched, run_pages; rewrite Hrun; reflexivity).
  assert (sample = firstn (Z.to_nat N) (List.concat pages)) as Hsample.
  { unfold sample, get_gbif_sample, run_pages, slice_to; rewrite Hrun, Hpages.
    destruct (Z.ltb_spec N 0) as [Hneg|_]; [lia|reflexivity]. }
  assert (forall j page, nth_error pages j = Some page ->
            page = search (request_offset j) per_page) as Hpage.
  { intros j page Hj. rewrite Hpages in Hj.
    rewrite (Hreq j page Hj). unfold request_offset; f_equal. }
  assert (forall i, (i < List.length front)%nat ->
            ~ short (search (request_offset i) per_page)) as Hfull.
  { intros i Hi.
    destruct (nth_error front i) as [page|] eqn:Hnth;
      [|apply nth_error_None in Hnth; lia].
    rewrite <- (Hpage i page)
      by (rewrite Hpages, nth_error_app1 by exact Hi; exact Hnth).
    rewrite Forall_forall in Hfront.
    apply Hfront; eapply nth_error_In; exact Hnth. }
  split.
  { rewrite Hsample. pose proof (firstn_le_length (Z.to_nat N) (List.concat pages)). lia. }
  split; [exact Hsample|].
  split; [exact Hpage|].
  split.
  { intro j. rewrite Hpages, length_app. split.
    - intro Hj. split.
      + destruct Hstop as [[last [-> [_ Hlen]]]|[-> Hlen]];
          cbn [List.length] in Hj; lia.
      + intros i Hi. apply Hfull.
        destruct Hstop as [[last [-> _]]|[-> _]]; cbn [List.length] in Hj; lia.
    - intros [Hbudget Hearlier].
      destruct Hstop as [[last [-> [Hlast Hlen]]]|[-> Hlen]];
        cbn [List.length]; [|lia].
      destruct (Nat.lt_ge_cases (List.length front) j) as [Hlt|Hge]; [|lia].
      exfalso; apply (Hearlier (List.length front) Hlt).
      rewrite <- (Hpage (List.length front) last); [exact Hlast|].
      rewrite Hpages, nth_error_app2 by lia.
      rewrite Nat.sub_diag; reflexivity. }
  split.
  { intros j page Hj Hshort. rewrite Hpages in Hj |- *.
    destruct (Nat.lt_ge_cases j (List.length front)) as [Hlt|Hge].
    - rewrite nth_error_app1 in Hj by exact Hlt.
      rewrite Forall_forall in Hfront.
      exfalso; apply (Hfront page); [eapply nth_error_In; exact Hj|exact Hshort].
    - rewrite nth_error_app2 in Hj by exact Hge.
      destruct Hstop as [[last [-> _]]|[-> _]].
      + rewrite length_app; cbn [List.length].
        destruct (j - List.length front)%nat as [|k] eqn:Hk;
          [lia|destruct k; discriminate].
      + destruct (j - List.length front)%nat; discriminate. }
  split.
  { destruct Hstop as [[last [-> [Hlast _]]]|[-> Hlen]].
    - left; exists last; split; [|exact Hlast].
      rewrite Hpages, length_app; cbn [List.length].
      rewrite nth_error_app2 by lia.
      replace (List.length front + 1 - 1 - List.length front)%nat with 0%nat by lia.
      reflexivity.
    - right. rewrite Hpages, app_nil_r.
      pose proof (full_pages_length Hfront) as Hfull'.
      rewrite Hlen, Z2Nat.id in Hfull' by lia.
      pose proof (Z.mul_succ_div_gt N per_page) as Hgt.
      split; [rewrite Hlen; lia|].
      unfold per_page in *; lia. }
  rewrite Hpages, length_app.
  destruct Hstop as [[last [-> [_ Hlen]]]|[-> Hlen]]; cbn [List.length]; lia.
Qed.

Lemma sample_paging_witness :
  (0 <= 400)%Z /\
  (Z.of_nat (List.length (get_gbif_sample small_source 400)) <= 400)%Z /\
  (forall j, (j < List.length (pages_fetched small_source 400))%nat <->
     (Z.of_nat j <= 400 / per_page)%Z /\
     forall i, (i < j)%nat ->
       ~ short (small_source (request_offset i) per_page)).
Proof.
  assert (0 <= 400)%Z as Hcap by lia.
  split; [exact Hcap|].
  destruct (sample_paging small_source Hcap) as [Hlen [_ [_ [Hrule _]]]].
  split; [exact Hlen|exact Hrule].
Defined.

(** ** The area ceiling *)

Lemma plane_laws : @planar_laws Plane PlaneReading.
Proof.
  split; intros a r _.
  - reflexivity.
  - cbn; ring.
  - cbn [centroid bounds buffer Plane]. unfold shape_centroid.
    set (p := shape_position a).
    cbn [shape_buffer shape_bounds shape_corners shape_position fst snd].
    unfold middle, shift; destruct p as [e n]; cbn [east north].
    apply f_equal. f_equal; field.
Qed.

Section AreaCeiling.

Local Open Scope R_scope.

Context {G : GeometryService} {P : PlanarReading G}.

Hypothesis laws : planar_laws.

Lemma sqrt_million : sqrt 1000000 = 1000.
Proof.
  replace 1000000 with (1000 * 1000) by lra.
  apply sqrt_square; lra.
Qed.

Lemma side_metres (max_km2 : R) :
  0 <= max_km2 -> sqrt (max_km2 * 1000000) = 1000 * sqrt max_km2.
Proof.
  intro Hmax. rewrite sqrt_mult by lra. rewrite sqrt_million; ring.
Qed.

Lemma within_limit (max_km2 : R) (aoi : geometry) :
  area aoi / 1000000 <= max_km2 -> enforce_area_limit max_km2 aoi = aoi.
Proof.
  intro Hle; unfold enforce_area_limit.
  destruct (Rlt_dec max_km2 (area aoi / 1000000)) as [Hlt|_];
    [lra|reflexivity].
Qed.

(** The substitute of an oversized area: the square of side
    [sqrt max_km2] kilometres about the centroid, of area [max_km2]. *)
Lemma over_limit (max_km2 : R) (aoi : geometry) :
  0 <= max_km2 -> max_km2 < area aoi / 1000000 ->
  enforce_area_limit max_km2 aoi =
    bounds (buffer (centroid aoi) (1000 * sqrt max_km2 / 2)) /\
  square_about (enforce_area_limit max_km2 aoi) (centroid aoi)
    (1000 * sqrt max_km2) /\
  area (enforce_area_limit max_km2 aoi) / 1000000 = max_km2.
Proof.
  intros Hmax Hgt.
  assert (0 <= 1000 * sqrt max_km2 / 2) as Hr
    by (pose proof (sqrt_pos max_km2); lra).
  assert (enforce_area_limit max_km2 aoi =
          bounds (buffer (centroid aoi) (1000 * sqrt max_km2 / 2))) as E.
  { unfold enforce_area_limit.
    destruct (Rlt_dec max_km2 (area aoi / 1000000)) as [_|Hn];
      [|contradiction].
    rewrite (side_metres Hmax); reflexivity. }
  assert (area (enforce_area_limit max_km2 aoi) =
          1000 * sqrt max_km2 * (1000 * sqrt max_km2)) as Ha.
  { rewrite E, (box_area laws _ Hr). field. }
  split; [exact E|split; [split|]].
  - rewrite E. apply (box_corners laws); exact Hr.
  - exact Ha.
  - rewrite Ha.
    replace (1000 * sqrt max_km2 * (1000 * sqrt max_km2))
      with (1000000 * (sqrt max_km2 * sqrt max_km2)) by ring.
    rewrite (sqrt_sqrt _ Hmax); field.
Qed.

(** Under the planar laws, which hold in exact arithmetic, idempotence
    does not depend on which side of the ceiling the substitute falls: if
    it is replaced again, it is replaced by itself, since it keeps the
    centroid. *)
Lemma area_limit_idempotent_by_centroid (max_km2 : R) (aoi : geometry) :
  enforce_area_limit max_km2 (enforce_area_limit max_km2 aoi) =
    enforce_area_limit max_km2 aoi.
Proof.
  destruct (Rlt_dec max_km2 (area aoi / 1000000)) as [Hgt|Hle].
  - assert (enforce_area_limit max_km2 aoi =
            bounds (buffer (centroid aoi) (sqrt (max_km2 * 1000000) / 2))) as E.
    { unfold enforce_area_limit.
      destruct (Rlt_dec max_km2 (area aoi / 1000000)); [reflexivity|contradiction]. }
    rewrite E. unfold enforce_area_limit.
    destruct (Rlt_dec max_km2 _) as [_|_]; [|reflexivity].
    rewrite (box_centroid laws); [reflexivity|].
    pose proof (sqrt_pos (max_km2 * 1000000)); lra.
  - assert (area aoi / 1000000 <= max_km2) as Hw by lra.
    rewrite (within_limit aoi Hw). exact (within_limit aoi Hw).
Qed.

End AreaCeiling.

(** C2 as stated fails.  Under the ceiling of 500 square kilometres the
    rectangle of 30 km by 30 km is replaced, but not by a square of side
    [2 * sqrt 500] kilometres: such a square has four times the area of
    the substitute. *)
Lemma substitute_is_not_twice_as_wide :
  (MAX_AOI_KM2 < area oversized_aoi / 1000000)%R /\
  ~ square_about (enforce_area_limit MAX_AOI_KM2 oversized_aoi)
      (centroid oversized_aoi) (1000 * (2 * sqrt MAX_AOI_KM2))%R.
Proof.
  assert (0 <= MAX_AOI_KM2)%R as Hmax by (unfold MAX_AOI_KM2; lra).
  assert (MAX_AOI_KM2 < area oversized_aoi / 1000000)%R as Hgt
    by (unfold MAX_AOI_KM2; cbn; lra).
  split; [exact Hgt|].
  intros [_ Hclaimed].
  destruct (@over_limit Plane PlaneReading plane_laws MAX_AOI_KM2
              oversized_aoi Hmax Hgt)
    as [_ [_ Harea]].
  rewrite Hclaimed in Harea.
  replace (1000 * (2 * sqrt MAX_AOI_KM2) * (1000 * (2 * sqrt MAX_AOI_KM2)))%R
    with (4000000 * (sqrt MAX_AOI_KM2 * sqrt MAX_AOI_KM2))%R in Harea by ring.
  rewrite (sqrt_sqrt _ Hmax) in Harea.
  unfold MAX_AOI_KM2 in Harea; lra.
Qed.

(** C2, amended.  An area of interest of at most [max_km2] square
    kilometres is returned unchanged.  A larger one is replaced by the
    axis-aligned square of side [sqrt max_km2] kilometres centred on its
    centroid, a region of [max_km2] square kilometres. *)
Theorem area_limit_substitute {G : GeometryService} {P : PlanarReading G}
    (max_km2 : R) (aoi : geometry) :
  planar_laws ->
  (0 <= max_km2)%R ->
  ((area aoi / 1000000 <= max_km2)%R ->
   enforce_area_limit max_km2 aoi = aoi) /\
  ((area aoi / 1000000 > max_km2)%R ->
   square_about (enforce_area_limit max_km2 aoi) (centroid aoi)
     (1000 * sqrt max_km2)%R /\
   (area (enforce_area_limit max_km2 aoi) / 1000000 = max_km2)%R).
Proof.
  intros laws Hmax; split.
  - apply within_limit.
  - intro Hgt. apply (over_limit laws aoi Hmax Hgt).
Qed.

Lemma area_limit_substitute_witness :
  (0 <= MAX_AOI_KM2)%R /\
  (area oversized_aoi / 1000000 > MAX_AOI_KM2)%R /\
  square_about (enforce_area_limit MAX_AOI_KM2 oversized_aoi)
    (centroid oversized_aoi) (1000 * sqrt MAX_AOI_KM2)%R /\
  (area (enforce_area_limit MAX_AOI_KM2 oversized_aoi) / 1000000
     = MAX_AOI_KM2)%R.
Proof.
  assert (0 <= MAX_AOI_KM2)%R as Hmax by (unfold MAX_AOI_KM2; lra).
  assert (area oversized_aoi / 1000000 > MAX_AOI_KM2)%R as Hgt
    by (unfold MAX_AOI_KM2; cbn; lra).
  split; [exact Hmax|split; [exact Hgt|]].
  exact (proj2 (@area_limit_substitute Plane PlaneReading MAX_AOI_KM2
                  oversized_aoi plane_laws Hmax) Hgt).
Defined.

(** C9 as stated fails in the arithmetic of the code.  Under the ceiling
    of 500 square kilometres the square of 32 km by 32 km is replaced by a
    box whose side is the rounded square root 22360.679774997898 m; the
    service measures this box at 500.00000000000017 square kilometres,
    which exceeds the ceiling, so a second application replaces it again,
    by a box whose west side lies at -5180.339887498948 m instead of
    -5180.339887498949 m. *)
Lemma area_limit_replaces_its_substitute :
  let once := @Binary64.enforce_area_limit Binary64.Plane
                Binary64.MAX_AOI_KM2 Binary64.oversized_aoi in
  let twice := @Binary64.enforce_area_limit Binary64.Plane
                 Binary64.MAX_AOI_KM2 once in
  @Binary64.exceeds Binary64.Plane Binary64.MAX_AOI_KM2
    Binary64.oversized_aoi = true /\
  @Binary64.exceeds Binary64.Plane Binary64.MAX_AOI_KM2 once = true /\
  Binary64.same_number (Binary64.west twice) (Binary64.west once) = false /\
  twice <> once.
Proof.
  intros once twice.
  assert (Binary64.same_number (Binary64.west twice) (Binary64.west once)
          = false) as Hwest by (vm_compute; reflexivity).
  split; [vm_compute; reflexivity|].
  split; [vm_compute; reflexivity|].
  split; [exact Hwest|].
  intro E. rewrite E in Hwest. vm_compute in Hwest. discriminate.
Qed.

(** C9, amended.  In exact arithmetic, on a service that answers planar
    areas, the area limit is idempotent for every positive ceiling: the
    result of one application has at most [max_km2] square kilometres, so
    the second application returns it unchanged.  In binary64, on any
    service, an area of interest that does not exceed the ceiling is
    returned unchanged, and applying the limit twice gives what applying
    it once gives whenever the result of the first application is measured
    at no more than the ceiling. *)
Theorem area_limit_idempotent :
  (forall (G : GeometryService) (P : PlanarReading G)
          (max_km2 : R) (aoi : geometry),
     planar_laws -> (0 < max_km2)%R ->
     (area (enforce_area_limit max_km2 aoi) / 1000000 <= max_km2)%R /\
     enforce_area_limit max_km2 (enforce_area_limit max_km2 aoi) =
       enforce_area_limit max_km2 aoi) /\
  (forall (G : Binary64.GeometryService)
          (max_km2 : PrimFloat.float) (aoi : Binary64.geometry),
     (Binary64.exceeds max_km2 aoi = false ->
      Binary64.enforce_area_limit max_km2 aoi = aoi) /\
     (Binary64.exceeds max_km2 (Binary64.enforce_area_limit max_km2 aoi)
        = false ->
      Binary64.enforce_area_limit max_km2
        (Binary64.enforce_area_limit max_km2 aoi) =
        Binary64.enforce_area_limit max_km2 aoi)).
Proof.
  split.
  - intros G P max_km2 aoi laws Hmax.
    assert (area (enforce_area_limit max_km2 aoi) / 1000000 <= max_km2)%R
      as Hle.
    { destruct (Rlt_dec max_km2 (area aoi / 1000000)) as [Hgt|Hngt].
      - destruct (over_limit laws aoi (Rlt_le _ _ Hmax) Hgt) as [_ [_ Ha]].
        rewrite Ha; apply Rle_refl.
      - rewrite within_limit by lra. lra. }
    split; [exact Hle|apply within_limit; exact Hle].
  - intros G max_km2 aoi.
    assert (forall g : Binary64.geometry,
              Binary64.exceeds max_km2 g = false ->
              Binary64.enforce_area_limit max_km2 g = g) as Hkept.
    { intros g Hg. unfold Binary64.enforce_area_limit.
      unfold Binary64.exceeds in Hg. rewrite Hg. reflexivity. }
    split; [apply Hkept|apply Hkept].
Qed.

Lemma area_limit_idempotent_witness :
  ((0 < MAX_AOI_KM2)%R /\
   enforce_area_limit MAX_AOI_KM2
     (enforce_area_limit MAX_AOI_KM2 oversized_aoi) =
     enforce_area_limit MAX_AOI_KM2 oversized_aoi) /\
  (@Binary64.exceeds Binary64.Plane Binary64.round_ceiling
     (@Binary64.enforce_area_limit Binary64.Plane Binary64.round_ceiling
        Binary64.oversized_aoi) = false /\
   @Binary64.enforce_area_limit Binary64.Plane Binary64.round_ceiling
     (@Binary64.enforce_area_limit Binary64.Plane Binary64.round_ceiling
        Binary64.oversized_aoi) =
     @Binary64.enforce_area_limit Binary64.Plane Binary64.round_ceiling
       Binary64.oversized_aoi) /\
  (@Binary64.exceeds Binary64.Plane Binary64.MAX_AOI_KM2
     Binary64.modest_aoi = false /\
   @Binary64.enforce_area_limit Binary64.Plane Binary64.MAX_AOI_KM2
     Binary64.modest_aoi = Binary64.modest_aoi).
Proof.
  assert (0 < MAX_AOI_KM2)%R as Hmax by (unfold MAX_AOI_KM2; lra).
  assert (@Binary64.exceeds Binary64.Plane Binary64.round_ceiling
            (@Binary64.enforce_area_limit Binary64.Plane
               Binary64.round_ceiling Binary64.oversized_aoi) = false)
    as Hfits by (vm_compute; reflexivity).
  assert (@Binary64.exceeds Binary64.Plane Binary64.MAX_AOI_KM2
            Binary64.modest_aoi = false)
    as Hmodest by (vm_compute; reflexivity).
  split; [split; [exact Hmax|]|split; [split; [exact Hfits|]|split;
    [exact Hmodest|]]].
  - exact (proj2 (proj1 area_limit_idempotent Plane PlaneReading MAX_AOI_KM2
                    oversized_aoi plane_laws Hmax)).
  - exact (proj2 (proj2 area_limit_idempotent Binary64.Plane
                    Binary64.round_ceiling Binary64.oversized_aoi) Hfits).
  - exact (proj1 (proj2 area_limit_idempotent Binary64.Plane
                    Binary64.MAX_AOI_KM2 Binary64.modest_aoi) Hmodest).
Defined.

(** ** Scenarios of the specification, evaluated on the code *)

Section Scenarios.

Example natural_keys_listed :
  natural_keys =
    [ KStr "10"; KStr "20"; KStr "30"; KStr "90"; KStr "95"; KStr "100" ].
Proof. reflexivity. Qed.

Example anthropogenic_keys_listed :
  anthropogenic_keys =
    [ KStr "40"; KStr "50"; KStr "60"; KStr "70"; KStr "80" ].
Proof. reflexivity. Qed.

Example scenario_top_5 :
  exists share_tree share_crop,
    get_top_5_landcover scenario_histogram =
      Ok [ ("Tree cover"%string, 700%Z, share_tree);
           ("Cropland"%string, 300%Z, share_crop) ] /\
    (share_tree == 70)%Q /\ (share_crop == 30)%Q.
Proof.
  eexists; eexists; split; [reflexivity|split; reflexivity].
Qed.

Example unknown_code_is_surfaced :
  get_top_5_landcover unlisted_code_histogram = Raise KeyError.
Proof. reflexivity. Qed.

(** A histogram without any pixel is not labelled either: the percentage
    divides by the total. *)
Example table_of_no_pixels :
  get_top_5_landcover zero_pixel_histogram = Raise ZeroDivisionError.
Proof. reflexivity. Qed.

(** [int] strips blanks but not the information separators. *)
Example int_of_padded_key :
  int (KStr " 10 ") = Ok 10%Z /\
  int (KStr (String (ascii_of_nat 31) "10")) = Raise ValueError.
Proof. split; reflexivity. Qed.

Example ties_keep_histogram_order :
  sorted_by_count_desc
    [ (KStr "30", 5%Z); (KStr "10", 7%Z); (KStr "20", 5%Z) ] =
    [ (KStr "10", 7%Z); (KStr "30", 5%Z); (KStr "20", 5%Z) ].
Proof. reflexivity. Qed.

Example rating_scenario :
  exists r,
    rating_summary
      [ (KStr "1", 10%Z); (KStr "2", 10%Z); (KStr "3", 20%Z);
        (KStr "4", 30%Z); (KStr "5", 30%Z) ] 20 = Ok r /\
    total_pix r = 100%Z /\
    bad_vegetation r = 20%Z /\ good_vegetation r = 80%Z /\
    (bad_vegetation_perc r == 20)%Q /\
    (bad_vegetation_ha r == 8 # 10)%Q.
Proof.
  eexists; split; [reflexivity|].
  repeat split.
Qed.

Example occurrence_scenario :
  exists r,
    get_biodiversity_indices scenario_sample = Ok r /\
    species_richness r = 2%Z /\
    (simpson_index r == 4 # 9)%Q /\
    (berger_parker_dominance r == 2 # 3)%Q.
Proof.
  eexists; split; [reflexivity|].
  repeat split.
Qed.

Example modest_area_is_kept :
  enforce_area_limit MAX_AOI_KM2 modest_aoi = modest_aoi.
Proof.
  apply within_limit. unfold MAX_AOI_KM2; cbn; lra.
Qed.

Example pages_of_small_source :
  map (@List.length OccurrenceRecord) (pages_fetched small_source 1000) =
    [300; 150]%nat /\
  map (@List.length OccurrenceRecord) (pages_fetched small_source 300) =
    [300; 150]%nat /\
  List.length (get_gbif_sample small_source 300) = 300%nat.
Proof. repeat split. Qed.

End Scenarios.

(** * Further properties of the metric routines *)

Import Measures.

(** ** Bounds on entropy and concentration *)

Section EntropyBounds.

Local Open Scope R_scope.

Lemma ln_le_minus_one (y : R) : 0 < y -> ln y <= y - 1.
Proof.
  intro Hy. pose proof (exp_ineq1_le (ln y)) as H.
  rewrite (exp_ln y Hy) in H. lra.
Qed.

Lemma ln_monotone (x y : R) : 0 < x -> x <= y -> ln x <= ln y.
Proof.
  intros Hx [Hlt| ->]; [|lra].
  left; apply ln_increasing; assumption.
Qed.

Lemma big_sum_le {A : Type} (f g : A -> R) (l : list A) :
  (forall x, In x l -> f x <= g x) ->
  big_sum (map f l) <= big_sum (map g l).
Proof.
  induction l as [|x l IH]; intro H; cbn [map big_sum fold_right].
  - lra.
  - pose proof (H x (or_introl eq_refl)).
    assert (big_sum (map f l) <= big_sum (map g l)) as Hl
      by (apply IH; intros y Hy; apply H; right; exact Hy).
    unfold big_sum in Hl; lra.
Qed.

Lemma big_sum_affine (a b : R) (cs : list Z) :
  big_sum (map (fun c => a * IZR c + b) cs) =
    a * IZR (sum cs) + b * INR (List.length cs).
Proof.
  induction cs as [|c cs IH].
  - cbn [map big_sum fold_right List.length]. rewrite sum_nil. simpl; lra.
  - cbn [map big_sum fold_right]. fold (big_sum (map (fun c => a * IZR c + b) cs)).
    rewrite IH, sum_cons, plus_IZR.
    change (List.length (c :: cs)) with (S (List.length cs)).
    rewrite S_INR. ring.
Qed.

Lemma big_sum_nonneg {A : Type} (f : A -> R) (l : list A) :
  (forall x, In x l -> 0 <= f x) -> 0 <= big_sum (map f l).
Proof.
  induction l as [|x l IH]; intro H; cbn [map big_sum fold_right].
  - lra.
  - pose proof (H x (or_introl eq_refl)).
    assert (0 <= big_sum (map f l)) as Hl
      by (apply IH; intros y Hy; apply H; right; exact Hy).
    unfold big_sum in Hl; lra.
Qed.

Lemma share_bounds (c t : Z) :
  (0 < c <= t)%Z -> 0 < IZR c / IZR t <= 1.
Proof.
  intros [Hc Hct].
  assert (0 < IZR c) by (apply IZR_lt; exact Hc).
  assert (IZR c <= IZR t) by (apply IZR_le; exact Hct).
  assert (0 < IZR t) by lra.
  split.
  - apply Rdiv_lt_0_compat; assumption.
  - apply (Rmult_le_reg_r (IZR t)); [assumption|].
    replace (IZR c / IZR t * IZR t) with (IZR c) by (field; lra). lra.
Qed.

Lemma member_le_sum (cs : list Z) :
  Forall (fun c => 0 <= c)%Z cs -> forall c, In c cs -> (c <= sum cs)%Z.
Proof.
  induction 1 as [|x cs Hx Hcs IH]; intros c Hc; [destruct Hc|].
  rewrite sum_cons. pose proof (sum_nonneg Hcs).
  destruct Hc as [->|Hc]; [lia|]. specialize (IH c Hc); lia.
Qed.

(** Entropy is not negative when no count exceeds the total. *)
Lemma entropy_nonneg (t : Z) (cs : list Z) :
  Forall (fun c => 0 < c <= t)%Z cs -> 0 <= entropy t cs.
Proof.
  intro Hcs; unfold entropy.
  assert (big_sum (map (fun c => IZR c / IZR t * ln (IZR c / IZR t)) cs)
          <= big_sum (map (fun _ : Z => 0) cs)) as H.
  { apply big_sum_le; intros c Hc.
    rewrite Forall_forall in Hcs.
    destruct (share_bounds (Hcs c Hc)) as [Hp0 Hp1].
    assert (ln (IZR c / IZR t) <= 0).
    { rewrite <- ln_1. apply ln_monotone; assumption. }
    nra. }
  assert (big_sum (map (fun _ : Z => 0) cs) = 0) as Hz.
  { clear; induction cs as [|c cs IH]; cbn [map big_sum fold_right];
      [reflexivity|]. unfold big_sum in IH; rewrite IH; lra. }
  lra.
Qed.

(** Entropy of positive counts that add up to the total is at most the
    logarithm of their number. *)
Lemma entropy_le_ln_length (t : Z) (cs : list Z) :
  Forall (fun c => 0 < c)%Z cs -> sum cs = t -> cs <> [] ->
  entropy t cs <= ln (INR (List.length cs)).
Proof.
  intros Hpos Hsum Hne.
  set (K := INR (List.length cs)).
  assert (0 < K) as HK.
  { unfold K. destruct cs as [|c cs]; [contradiction|].
    apply lt_0_INR; cbn [List.length]; lia. }
  assert (0 < t)%Z as Ht.
  { destruct cs as [|c cs]; [contradiction|].
    inversion Hpos as [|? ? Hc Hrest]; subst.
    rewrite sum_cons.
    assert (0 <= sum cs)%Z; [|lia].
    apply sum_nonneg. eapply Forall_impl; [|exact Hrest].
    intros; simpl in *; lia. }
  assert (0 < IZR t) as HtR by (apply IZR_lt; exact Ht).
  unfold entropy.
  assert (- big_sum (map (fun c => IZR c / IZR t * ln (IZR c / IZR t)) cs)
          = big_sum (map (fun c => - (IZR c / IZR t * ln (IZR c / IZR t))) cs))
    as Eneg.
  { clear; induction cs as [|c cs IH]; cbn [map big_sum fold_right].
    - lra.
    - unfold big_sum in IH. rewrite <- IH. lra. }
  rewrite Eneg.
  apply Rle_trans with
    (big_sum (map (fun c => (ln K - 1) / IZR t * IZR c + / K) cs)).
  - apply big_sum_le; intros c Hc.
    rewrite Forall_forall in Hpos. specialize (Hpos c Hc).
    assert (0 < IZR c) as HcR by (apply IZR_lt; exact Hpos).
    set (p := IZR c / IZR t).
    assert (0 < p) as Hp by (apply Rdiv_lt_0_compat; assumption).
    assert (0 < / (K * p)) as Hinv
      by (apply Rinv_0_lt_compat; apply Rmult_lt_0_compat; assumption).
    pose proof (ln_le_minus_one Hinv) as Hln.
    rewrite ln_Rinv in Hln by (apply Rmult_lt_0_compat; assumption).
    rewrite ln_mult in Hln by assumption.
    assert (p * / (K * p) = / K) as Ep by (field; split; lra).
    replace ((ln K - 1) / IZR t * IZR c + / K)
      with (p * ln K + (/ K - p)) by (unfold p; field; lra).
    assert (p * (- (ln K + ln p)) <= p * (/ (K * p) - 1)) as Hm
      by (apply Rmult_le_compat_l; lra).
    rewrite Rmult_minus_distr_l, Ep in Hm. lra.
  - rewrite big_sum_affine, Hsum. fold K.
    replace ((ln K - 1) / IZR t * IZR t + / K * K) with (ln K)
      by (field; split; lra).
    lra.
Qed.

(** Concentration of non-negative counts that add up to a positive total
    lies in (0, 1]. *)
Lemma concentration_bounds (t : Z) (cs : list Z) :
  Forall (fun c => 0 <= c)%Z cs -> sum cs = t -> (0 < t)%Z ->
  0 < concentration t cs <= 1.
Proof.
  intros Hpos Hsum Ht.
  assert (0 < IZR t) as HtR by (apply IZR_lt; exact Ht).
  unfold concentration. split.
  - (* some count is positive *)
    clear HtR. revert t Hsum Ht.
    induction Hpos as [|c cs Hc Hcs IH]; intros t Hsum Ht.
    + rewrite sum_nil in Hsum; lia.
    + cbn [map big_sum fold_right].
      fold (big_sum (map (fun c => (IZR c / IZR t) ^ 2) cs)).
      assert (0 < IZR t) as HtR by (apply IZR_lt; exact Ht).
      assert (0 <= big_sum (map (fun c => (IZR c / IZR t) ^ 2) cs)) as Hrest.
      { apply big_sum_nonneg; intros x _. apply pow2_ge_0. }
      destruct (Z.eq_dec c 0) as [->|Hc0].
      * rewrite sum_cons in Hsum.
        assert (0 < big_sum (map (fun c => (IZR c / IZR (sum cs)) ^ 2) cs)) as H
          by (apply IH; lia).
        replace t with (sum cs) by lia.
        assert (0 <= (IZR 0 / IZR (sum cs)) ^ 2) by apply pow2_ge_0. lra.
      * assert (0 < IZR c) by (apply IZR_lt; lia).
        assert (0 < IZR c / IZR t) by (apply Rdiv_lt_0_compat; assumption).
        assert (0 < (IZR c / IZR t) ^ 2) by (apply pow_lt; assumption).
        lra.
  - apply Rle_trans with (big_sum (map (fun c => / IZR t * IZR c + 0) cs)).
    + apply big_sum_le; intros c Hc.
      pose proof (member_le_sum Hpos c Hc) as Hct. rewrite Hsum in Hct.
      rewrite Forall_forall in Hpos. specialize (Hpos c Hc).
      assert (0 <= IZR c) by (apply IZR_le; exact Hpos).
      assert (IZR c <= IZR t) by (apply IZR_le; exact Hct).
      assert (0 <= IZR c / IZR t <= 1) as [Hp0 Hp1].
      { split.
        - apply Rmult_le_pos; [assumption|].
          left; apply Rinv_0_lt_compat; exact HtR.
        - apply (Rmult_le_reg_r (IZR t)); [exact HtR|].
          replace (IZR c / IZR t * IZR t) with (IZR c) by (field; lra). lra. }
      replace (/ IZR t * IZR c + 0) with (IZR c / IZR t) by (field; lra).
      simpl; nra.
    + rewrite big_sum_affine, Hsum. right; field; lra.
Qed.

End EntropyBounds.

(** ** Ranges of the land-cover indices *)

Section LandcoverRanges.

Local Open Scope R_scope.

Lemma shannon_is_entropy (h : dict Z) :
  Spec.shannon h = entropy (sum (values h)) (present h).
Proof. reflexivity. Qed.

Lemma simpson_is_concentration (h : dict Z) :
  Spec.simpson h = 1 - concentration (sum (values h)) (values h).
Proof. reflexivity. Qed.

Lemma present_positive (h : dict Z) :
  Forall (fun c => 0 < c)%Z (present h).
Proof.
  unfold present; apply Forall_forall; intros c Hc.
  apply filter_In in Hc; destruct Hc as [_ Hc].
  apply Z.ltb_lt; exact Hc.
Qed.

Lemma present_sum (h : dict Z) :
  pixel_counts h -> sum (present h) = sum (values h).
Proof.
  unfold pixel_counts, present; generalize (values h) as cs.
  induction 1 as [|c cs Hc _ IH]; cbn [filter]; [reflexivity|].
  destruct (Z.ltb_spec 0 c); rewrite ?sum_cons, IH; lia.
Qed.

Lemma present_within_total (h : dict Z) :
  pixel_counts h ->
  Forall (fun c => 0 < c <= sum (values h))%Z (present h).
Proof.
  intro Hpos; apply Forall_forall; intros c Hc.
  unfold present in Hc; apply filter_In in Hc; destruct Hc as [Hin Hc].
  apply Z.ltb_lt in Hc. split; [exact Hc|].
  apply member_le_sum; assumption.
Qed.

Lemma present_nonempty (h : dict Z) :
  pixel_counts h -> (0 < sum (values h))%Z -> present h <> [].
Proof.
  intros Hpos Ht E. rewrite <- (present_sum Hpos), E, sum_nil in Ht; lia.
Qed.

Lemma present_at_most_entries (h : dict Z) :
  (classes_present h <= List.length h)%nat.
Proof.
  unfold classes_present, present, values.
  rewrite <- (length_map snd h). generalize (map snd h) as cs.
  induction cs as [|c cs IH]; cbn [filter List.length]; [lia|].
  destruct (0 <? c)%Z; cbn [List.length]; lia.
Qed.

Lemma zero_counts_add_nothing (f : Z -> R) (cs : list Z) :
  f 0%Z = 0 -> Forall (fun c => 0 <= c)%Z cs ->
  big_sum (map f cs) = big_sum (map f (filter (fun c => 0 <? c)%Z cs)).
Proof.
  intros Hf; induction 1 as [|c cs Hc _ IH]; cbn [map filter big_sum fold_right];
    [reflexivity|].
  fold (big_sum (map f cs)). rewrite IH.
  destruct (Z.ltb_spec 0 c) as [_|Hle]; cbn [map big_sum fold_right].
  - reflexivity.
  - replace c with 0%Z by lia. rewrite Hf. unfold big_sum; lra.
Qed.

Lemma ln_entries_positive (n : nat) : (1 < n)%nat -> 0 < ln (INR n).
Proof.
  intro Hn. rewrite <- ln_1. apply ln_increasing; [lra|].
  replace 1 with (INR 1) by reflexivity. apply lt_INR; exact Hn.
Qed.

End LandcoverRanges.

(** X1.  In exact arithmetic: for a histogram of pixel counts with a
    positive total, the Shannon index lies between 0 and the logarithm of
    the number of entries, and the evenness index between 0 and 1.  The
    upper bounds are attained by equal counts, so the rounded results of
    the code can pass them in the last place: five equal counts give the
    evenness 1.0000000000000002 in binary64. *)
Theorem shannon_evenness_range (h : dict Z) :
  pixel_counts h -> (0 < sum (values h))%Z ->
  exists s e,
    get_shannon_index h = Ok s /\
    get_evenness_index h = Ok e /\
    (0 <= s <= ln (INR (List.length h)))%R /\
    (0 <= e <= 1)%R.
Proof.
  intros Hpos Ht.
  pose proof (shannon_formula _ Ht) as Hs.
  pose proof (entropy_nonneg (present_within_total Hpos)) as Hlo.
  pose proof (entropy_le_ln_length (present_positive h) (present_sum Hpos)
                (present_nonempty Hpos Ht)) as Hhi.
  rewrite <- shannon_is_entropy in Hlo, Hhi.
  fold (classes_present h) in Hhi.
  assert (1 <= classes_present h)%nat as Hone.
  { unfold classes_present.
    destruct (present h) eqn:E; [|cbn [List.length]; lia].
    exfalso; exact (present_nonempty Hpos Ht E). }
  assert (ln (INR (classes_present h)) <= ln (INR (List.length h)))%R as Hmono.
  { apply ln_monotone.
    - apply lt_0_INR; lia.
    - apply le_INR, present_at_most_entries. }
  exists (Spec.shannon h). eexists.
  split; [exact Hs|]. split; [apply (evenness_unfold _ Hs)|].
  split; [lra|].
  destruct (Nat.ltb_spec 1 (List.length h)) as [Hlen|Hlen]; [|lra].
  pose proof (ln_entries_positive Hlen) as Hln.
  assert (Spec.shannon h / ln (INR (List.length h))
            * ln (INR (List.length h)) = Spec.shannon h)%R as E
    by (field; lra).
  split.
  - apply Rmult_le_pos; [lra|]. left; apply Rinv_0_lt_compat; exact Hln.
  - apply (Rmult_le_reg_r (ln (INR (List.length h)))); [exact Hln|].
    rewrite E; lra.
Qed.

Lemma shannon_evenness_range_witness :
  pixel_counts zero_count_histogram /\
  exists s e,
    get_shannon_index zero_count_histogram = Ok s /\
    get_evenness_index zero_count_histogram = Ok e /\
    (0 <= s <= ln (INR (List.length zero_count_histogram)))%R /\
    (0 <= e <= 1)%R.
Proof.
  assert (pixel_counts zero_count_histogram) as Hpos
    by (repeat constructor; discriminate).
  split; [exact Hpos|].
  apply (shannon_evenness_range Hpos). reflexivity.
Defined.

(** X2.  For a histogram of pixel counts with a positive total, the
    Simpson index is at least 0 and less than 1. *)
Theorem simpson_range (h : dict Z) :
  pixel_counts h -> (0 < sum (values h))%Z ->
  exists d, get_simpson_index h = Ok d /\ (0 <= d)%Q /\ (d < 1)%Q.
Proof.
  intros Hpos Ht.
  destruct (simpson_formula h) as [d [Hd Hval]]; [lia|].
  exists d; split; [exact Hd|].
  rewrite simpson_is_concentration in Hval.
  destruct (concentration_bounds Hpos eq_refl Ht) as [Hlo Hhi].
  split.
  - apply Rle_Qle. replace (Q2R 0) with 0%R by (unfold Q2R; simpl; lra). lra.
  - apply Rlt_Qlt. replace (Q2R 1) with 1%R by (unfold Q2R; simpl; lra). lra.
Qed.

Lemma simpson_range_witness :
  pixel_counts scenario_histogram /\
  exists d, get_simpson_index scenario_histogram = Ok d /\
            (0 <= d)%Q /\ (d < 1)%Q.
Proof.
  assert (pixel_counts scenario_histogram) as Hpos
    by (repeat constructor; discriminate).
  split; [exact Hpos|].
  apply (simpson_range Hpos). reflexivity.
Defined.

(** ** Degenerate and uniform histograms *)

Section SpecialHistograms.

Local Open Scope R_scope.

Lemma big_sum_repeat (f : Z -> R) (c : Z) (K : nat) :
  big_sum (map f (repeat c K)) = INR K * f c.
Proof.
  induction K as [|K IH].
  - simpl; lra.
  - change (repeat c (S K)) with (c :: repeat c K).
    cbn [map big_sum fold_right]. fold (big_sum (map f (repeat c K))).
    rewrite IH, S_INR; ring.
Qed.

Lemma sum_repeat (c : Z) (K : nat) : sum (repeat c K) = (Z.of_nat K * c)%Z.
Proof.
  induction K as [|K IH].
  - reflexivity.
  - change (repeat c (S K)) with (c :: repeat c K).
    rewrite sum_cons, IH; lia.
Qed.

Lemma uniform_share (c : Z) (K : nat) :
  (0 < c)%Z -> (0 < K)%nat -> IZR c / IZR (Z.of_nat K * c) = / INR K.
Proof.
  intros Hc HK. rewrite mult_IZR, <- INR_IZR_INZ.
  assert (0 < IZR c) by (apply IZR_lt; exact Hc).
  assert (0 < INR K) by (apply lt_0_INR; exact HK).
  field; split; lra.
Qed.

Lemma present_repeat (h : dict Z) (c : Z) (K : nat) :
  values h = repeat c K -> (0 < c)%Z -> present h = repeat c K.
Proof.
  intros Hv Hc; unfold present; rewrite Hv; clear Hv.
  induction K as [|K IH]; [reflexivity|].
  change (repeat c (S K)) with (c :: repeat c K). cbn [filter].
  destruct (Z.ltb_spec 0 c); [rewrite IH; reflexivity|lia].
Qed.

End SpecialHistograms.

(** X3.  A histogram of pixel counts in which exactly one class has a
    positive count (the others, if any, are recorded with 0) has Shannon
    index 0, Simpson index 0 and evenness 0. *)
Theorem single_class_indices (h : dict Z) :
  pixel_counts h -> classes_present h = 1%nat ->
  get_shannon_index h = Ok 0%R /\
  (exists d, get_simpson_index h = Ok d /\ (d == 0)%Q) /\
  (exists e, get_evenness_index h = Ok e /\ e = 0%R).
Proof.
  intros Hpos Hone.
  unfold classes_present in Hone.
  destruct (present h) as [|c [|c' cs]] eqn:Hp; try discriminate.
  pose proof (present_sum Hpos) as Hsum. rewrite Hp, sum_cons, sum_nil in Hsum.
  pose proof (present_positive h) as Hc. rewrite Hp in Hc.
  inversion Hc as [|? ? Hc0 _]; subst.
  assert (0 < sum (values h))%Z as Ht by lia.
  assert (IZR c / IZR (sum (values h)) = 1)%R as Eshare.
  { replace (sum (values h)) with c by lia.
    field. apply not_0_IZR; lia. }
  assert (Spec.shannon h = 0%R) as Es.
  { rewrite shannon_is_entropy, Hp. unfold entropy.
    cbn [map big_sum fold_right]. rewrite Eshare, ln_1. lra. }
  pose proof (shannon_formula _ Ht) as Hs. rewrite Es in Hs.
  split; [exact Hs|]. split.
  - destruct (simpson_formula h) as [d [Hd Hval]]; [lia|].
    exists d; split; [exact Hd|].
    apply eqR_Qeq. rewrite Hval, simpson_is_concentration.
    unfold concentration.
    rewrite (zero_counts_add_nothing
               (fun c => (IZR c / IZR (sum (values h))) ^ 2)%R)
      by (try exact Hpos; unfold Rdiv; rewrite Rmult_0_l; simpl; lra).
    fold (present h). rewrite Hp. cbn [map big_sum fold_right].
    rewrite Eshare. unfold Q2R; simpl; lra.
  - rewrite (evenness_unfold _ Hs).
    eexists; split; [reflexivity|].
    destruct (1 <? List.length h)%nat; [|reflexivity].
    unfold Rdiv; apply Rmult_0_l.
Qed.

Lemma single_class_indices_witness :
  pixel_counts [ (KStr "10", 0%Z); (KStr "30", 42%Z) ] /\
  get_shannon_index [ (KStr "10", 0%Z); (KStr "30", 42%Z) ] = Ok 0%R.
Proof.
  assert (pixel_counts [ (KStr "10", 0%Z); (KStr "30", 42%Z) ]) as Hpos
    by (repeat constructor; discriminate).
  split; [exact Hpos|].
  exact (proj1 (single_class_indices Hpos eq_refl)).
Defined.

(** X4.  In exact arithmetic: a histogram whose [K >= 1] classes all have
    the same positive count has Shannon index [ln K] and Simpson index
    [1 - 1/K]; its evenness is 1 when [K > 1] and the sentinel 0 when
    [K = 1].  The rounded results of the code agree with these values up
    to the last places: in binary64 three equal counts give the evenness
    0.9999999999999998 and five give 1.0000000000000002. *)
Theorem equal_counts_indices (h : dict Z) (c : Z) (K : nat) :
  values h = repeat c K -> (0 < c)%Z -> (0 < K)%nat ->
  get_shannon_index h = Ok (ln (INR K)) /\
  (exists d, get_simpson_index h = Ok d /\ Q2R d = (1 - / INR K)%R) /\
  get_evenness_index h = Ok (if (1 <? K)%nat then 1%R else 0%R).
Proof.
  intros Hv Hc HK.
  assert (sum (values h) = (Z.of_nat K * c)%Z) as Hsum
    by (rewrite Hv; apply sum_repeat).
  assert (0 < sum (values h))%Z as Ht by (rewrite Hsum; nia).
  assert (0 < INR K)%R as HKR by (apply lt_0_INR; exact HK).
  assert (Spec.shannon h = ln (INR K)) as Es.
  { rewrite shannon_is_entropy, (@present_repeat h c K Hv Hc), Hsum.
    unfold entropy. rewrite big_sum_repeat, (uniform_share Hc HK).
    rewrite ln_Rinv by exact HKR. field; lra. }
  pose proof (shannon_formula _ Ht) as Hs. rewrite Es in Hs.
  split; [exact Hs|]. split.
  - destruct (simpson_formula h) as [d [Hd Hval]]; [lia|].
    exists d; split; [exact Hd|].
    rewrite Hval, simpson_is_concentration, Hsum, Hv.
    unfold concentration. rewrite big_sum_repeat, (uniform_share Hc HK).
    simpl; field; lra.
  - rewrite (evenness_unfold _ Hs).
    assert (List.length h = K) as Hlen.
    { rewrite <- (length_map snd h). fold (values h).
      rewrite Hv; apply repeat_length. }
    rewrite Hlen.
    destruct (Nat.ltb_spec 1 K) as [H1|H1]; [|reflexivity].
    f_equal. pose proof (ln_entries_positive H1). field; lra.
Qed.

Lemma equal_counts_indices_witness :
  values [ (KStr "10", 4%Z); (KStr "40", 4%Z); (KStr "80", 4%Z) ]
    = repeat 4%Z 3 /\
  get_shannon_index [ (KStr "10", 4%Z); (KStr "40", 4%Z); (KStr "80", 4%Z) ]
    = Ok (ln (INR 3)).
Proof.
  split; [reflexivity|].
  assert (0 < 4)%Z as Hc by lia.
  assert (0 < 3)%nat as HK by lia.
  exact (proj1 (@equal_counts_indices
                  [ (KStr "10", 4%Z); (KStr "40", 4%Z); (KStr "80", 4%Z) ]
                  4%Z 3%nat eq_refl Hc HK)).
Defined.

(** ** Habitat fractions and the legend *)

Import Tables.

Section HabitatRanges.

Lemma quotient_range (a t : Z) :
  (0 <= a <= t)%Z -> (0 < t)%Z ->
  (0 <= inject_Z a / inject_Z t)%Q /\ (inject_Z a / inject_Z t <= 1)%Q.
Proof.
  intros [Ha Hat] Ht. split.
  - apply Qle_shift_div_l; [unfold Qlt; simpl; lia|].
    rewrite Qmult_0_l. unfold Qle; simpl; lia.
  - apply (proj1 (quotient_le_one a Ht)); exact Hat.
Qed.

Lemma legend_code_listed (code : Z) :
  returns (legend_lookup Landcover.landcover_classes code) ->
  In code legend_codes.
Proof.
  intros [label Hlabel]. unfold Landcover.landcover_classes in Hlabel.
  cbn [legend_lookup] in Hlabel.
  repeat match type of Hlabel with
         | context [(?c =? code)%Z] =>
             destruct (Z.eqb_spec c code) as [<-|_];
             [vm_compute; tauto|]
         end.
  discriminate.
Qed.

Lemma legend_code_grouped (code : Z) :
  In code legend_codes ->
  In (KStr (str code)) natural_keys \/ In (KStr (str code)) anthropogenic_keys.
Proof.
  intro Hin. vm_compute in Hin.
  repeat (destruct Hin as [<-|Hin]; [vm_compute; tauto|]).
  destruct Hin.
Qed.

End HabitatRanges.

(** X5.  For a dictionary of pixel counts both habitat fractions are
    returned and each lies between 0 and 1; when the total is 0 both are
    0. *)
Theorem habitat_fraction_range (h : dict Z) :
  wf h -> pixel_counts h ->
  exists n a : Q,
    get_natural_habitat_fraction h = Ok n /\
    get_anthropogenic_habitat_fraction h = Ok a /\
    (0 <= n)%Q /\ (n <= 1)%Q /\ (0 <= a)%Q /\ (a <= 1)%Q /\
    (sum (values h) = 0%Z -> n = 0%Q /\ a = 0%Q).
Proof.
  intros Hwf Hpos.
  unfold get_natural_habitat_fraction, get_anthropogenic_habitat_fraction.
  rewrite (natural_count_filter Hwf), (anthropogenic_count_filter Hwf).
  pose proof (total_by_habitat h) as Htot.
  pose proof (sum_nonneg (pixel_counts_filter other_class Hpos)) as Hother.
  pose proof (sum_nonneg
    (pixel_counts_filter (fun kv => among natural_keys (fst kv)) Hpos)) as Hnat.
  pose proof (sum_nonneg
    (pixel_counts_filter (fun kv => among anthropogenic_keys (fst kv)) Hpos))
    as Hant.
  set (nc := sum (values (filter (fun kv => among natural_keys (fst kv)) h))) in *.
  set (ac := sum (values (filter (fun kv => among anthropogenic_keys (fst kv)) h))) in *.
  set (t := sum (values h)) in *.
  destruct (Z.ltb_spec 0 t) as [Ht|Ht].
  - assert (t <> 0%Z) as Hne by lia.
    rewrite !(truediv_ok _ Hne).
    destruct (@quotient_range nc t) as [Hn0 Hn1]; [lia|exact Ht|].
    destruct (@quotient_range ac t) as [Ha0 Ha1]; [lia|exact Ht|].
    eexists; eexists.
    split; [reflexivity|]. split; [reflexivity|].
    split; [exact Hn0|]. split; [exact Hn1|].
    split; [exact Ha0|]. split; [exact Ha1|].
    intro; lia.
  - exists 0%Q, 0%Q.
    split; [reflexivity|]. split; [reflexivity|].
    split; [discriminate|]. split; [discriminate|].
    split; [discriminate|]. split; [discriminate|].
    intros _; split; reflexivity.
Qed.

Lemma habitat_fraction_range_witness :
  wf zero_pixel_histogram /\ pixel_counts zero_pixel_histogram /\
  exists n a : Q,
    get_natural_habitat_fraction zero_pixel_histogram = Ok n /\
    get_anthropogenic_habitat_fraction zero_pixel_histogram = Ok a /\
    (0 <= n)%Q /\ (n <= 1)%Q /\ (0 <= a)%Q /\ (a <= 1)%Q /\
    (sum (values zero_pixel_histogram) = 0%Z -> n = 0%Q /\ a = 0%Q).
Proof.
  assert (wf zero_pixel_histogram) as Hwf
    by (repeat constructor; simpl; intuition discriminate).
  assert (pixel_counts zero_pixel_histogram) as Hpos
    by (repeat constructor; discriminate).
  split; [exact Hwf|split; [exact Hpos|]].
  exact (habitat_fraction_range Hwf Hpos).
Defined.

(** X6.  Every code of the legend belongs to the natural or to the
    anthropogenic group, so a non-empty histogram of pixel counts whose
    keys are decimal strings of legend codes has habitat fractions that
    add up to exactly 1. *)
Theorem legend_histogram_is_covered (h : dict Z) :
  wf h -> pixel_counts h -> (0 < sum (values h))%Z ->
  (forall k, In k (keys h) ->
     exists code, k = KStr (str code) /\
                  returns (legend_lookup Landcover.landcover_classes code)) ->
  exists n a : Q,
    get_natural_habitat_fraction h = Ok n /\
    get_anthropogenic_habitat_fraction h = Ok a /\
    (n + a == 1)%Q.
Proof.
  intros Hwf Hpos Ht Hkeys.
  unfold get_natural_habitat_fraction, get_anthropogenic_habitat_fraction.
  rewrite (natural_count_filter Hwf), (anthropogenic_count_filter Hwf).
  pose proof (total_by_habitat h) as Htot.
  assert (filter other_class h = []) as Hnone.
  { clear - Hkeys. induction h as [|[k v] h IH]; [reflexivity|].
    cbn [filter].
    destruct (Hkeys k) as [code [-> Hcode]]; [left; reflexivity|].
    unfold other_class at 1; cbn [fst].
    destruct (@legend_code_grouped code (@legend_code_listed code Hcode))
      as [Hn|Ha].
    - apply among_spec in Hn; rewrite Hn; cbn [orb negb].
      apply IH; intros k' Hk'; apply Hkeys; right; exact Hk'.
    - apply among_spec in Ha; rewrite Ha, orb_true_r; cbn [negb].
      apply IH; intros k' Hk'; apply Hkeys; right; exact Hk'. }
  rewrite Hnone in Htot. unfold values at 4 in Htot; cbn [map] in Htot.
  rewrite sum_nil in Htot.
  set (nc := sum (values (filter (fun kv => among natural_keys (fst kv)) h))) in *.
  set (ac := sum (values (filter (fun kv => among anthropogenic_keys (fst kv)) h))) in *.
  set (t := sum (values h)) in *.
  destruct (Z.ltb_spec 0 t) as [_|Hle]; [|lia].
  assert (t <> 0%Z) as Hne by lia.
  rewrite !(truediv_ok _ Hne).
  eexists; eexists; split; [reflexivity|split; [reflexivity|]].
  rewrite (quotient_sum nc ac Hne).
  apply (proj1 (quotient_eq_one (nc + ac) Ht)); lia.
Qed.

Lemma legend_histogram_is_covered_witness :
  exists n a : Q,
    get_natural_habitat_fraction scenario_histogram = Ok n /\
    get_anthropogenic_habitat_fraction scenario_histogram = Ok a /\
    (n + a == 1)%Q.
Proof.
  apply legend_histogram_is_covered.
  - repeat constructor; simpl; intuition discriminate.
  - repeat constructor; discriminate.
  - reflexivity.
  - intros k [<-|[<-|[]]].
    + exists 10%Z; split; [reflexivity|eexists; reflexivity].
    + exists 40%Z; split; [reflexivity|eexists; reflexivity].
Defined.

(** ** The table of the largest classes and the whole report *)

Section TableFacts.

Lemma comprehension_ok_inv {A B : Type} (f : A -> result B) (l : list A)
    (ys : list B) :
  comprehension f l = Ok ys -> forall x, In x l -> returns (f x).
Proof.
  revert ys; induction l as [|x l IH]; intros ys H y Hy; [destruct Hy|].
  cbn [comprehension] in H.
  destruct (f x) as [b|e] eqn:Hfx; cbn [bind] in H; [|discriminate].
  destruct (comprehension f l) as [bs|e] eqn:Hl; cbn [bind] in H;
    [|discriminate].
  destruct Hy as [<-|Hy].
  - exists b; exact Hfx.
  - exact (IH bs eq_refl y Hy).
Qed.

Lemma comprehension_agree {A B C : Type} (R : B -> C -> Prop)
    (f : A -> result B) (g : A -> result C) (l : list A) :
  (forall x, In x l -> agree R (f x) (g x)) ->
  agree (Forall2 R) (comprehension f l) (comprehension g l).
Proof.
  induction l as [|x l IH]; intro H; cbn [comprehension].
  - constructor.
  - pose proof (H x (or_introl eq_refl)) as Hx.
    assert (agree (Forall2 R) (comprehension f l) (comprehension g l)) as Hl
      by (apply IH; intros y Hy; apply H; right; exact Hy).
    destruct (f x) as [b|e], (g x) as [c|e']; cbn [agree bind] in *;
      try contradiction; [|exact Hx].
    destruct (comprehension f l) as [bs|e], (comprehension g l) as [cs|e'];
      cbn [agree bind] in *; try contradiction; [|exact Hl].
    constructor; assumption.
Qed.

Lemma sum_permutation (xs ys : list Z) :
  Permutation xs ys -> sum xs = sum ys.
Proof.
  induction 1 as [|x xs ys _ IH|x y xs|xs ys zs _ IH1 _ IH2].
  - reflexivity.
  - rewrite !sum_cons, IH; reflexivity.
  - rewrite !sum_cons; lia.
  - congruence.
Qed.

Lemma top_5_returns (h : dict Z) :
  sum (values h) <> 0%Z \/ h = [] ->
  (returns (get_top_5_landcover h) <->
   forall kv, In kv (top_5 h) -> returns (label_of (fst kv))).
Proof.
  intro Hdef; split.
  - intros [rows Hrows] [cls count] Hin.
    unfold get_top_5_landcover in Hrows; fold (top_5 h) in Hrows.
    destruct (comprehension_ok_inv _ _ Hrows _ Hin) as [row Hrow].
    unfold label_of; cbn [fst].
    destruct (int cls) as [code|e]; cbn [bind] in *; [|discriminate].
    destruct (legend_lookup Landcover.landcover_classes code) as [label|e];
      cbn [bind] in *; [|discriminate].
    exists label; reflexivity.
  - intro Hlegend.
    unfold get_top_5_landcover; fold (top_5 h).
    destruct (comprehension_rows
                (fun '(cls, count) =>
                   bind (int cls) (fun code =>
                   bind (legend_lookup Landcover.landcover_classes code)
                     (fun label =>
                   bind (truediv count (sum (values h))) (fun share =>
                   Ok (label, count, (share * 100)%Q)))))
                (fun _ _ => True) (top_5 h)) as [rows [Hrows _]].
    + intros [cls count] Hin.
      destruct (Hlegend _ Hin) as [label Hlabel].
      unfold label_of in Hlabel; cbn [fst] in Hlabel.
      assert (sum (values h) <> 0%Z) as Hne.
      { destruct Hdef as [Hne| ->]; [exact Hne|destruct Hin]. }
      destruct (int cls) as [code|e]; cbn [bind] in *; [|discriminate].
      rewrite Hlabel; cbn [bind]. rewrite (truediv_ok _ Hne); cbn [bind].
      eexists; split; [reflexivity|exact I].
    + exists rows; exact Hrows.
Qed.

Lemma top_5_rows (h : dict Z) :
  sum (values h) <> 0%Z ->
  (forall kv, In kv (top_5 h) -> returns (label_of (fst kv))) ->
  exists rows, get_top_5_landcover h = Ok rows /\
               Forall2 (row_of (sum (values h))) (top_5 h) rows.
Proof.
  intros Hne Hlegend.
  unfold get_top_5_landcover; fold (top_5 h).
  apply comprehension_rows; intros [cls count] Hin.
  destruct (Hlegend _ Hin) as [label Hlabel].
  unfold label_of in Hlabel; cbn [fst] in Hlabel.
  destruct (int cls) as [code|e] eqn:Hint; cbn [bind] in *; [|discriminate].
  rewrite Hlabel; cbn [bind]. rewrite (truediv_ok _ Hne); cbn [bind].
  eexists; split; [reflexivity|].
  unfold row_of, label_of, row_label, row_count, row_percent; cbn [fst snd].
  rewrite Hint; cbn [bind]. split; [exact Hlabel|split; reflexivity].
Qed.

Lemma percent_total (total : Z) (top : list (key * Z))
    (rows : list (string * Z * Q)) :
  total <> 0%Z ->
  Forall2 (row_of total) top rows ->
  (qsum (map row_percent rows) ==
   inject_Z (sum (map snd top)) / inject_Z total * 100)%Q.
Proof.
  intro Hne. pose proof (inject_Z_nonzero Hne) as Hq.
  induction 1 as [|kv row top rows [_ [_ Hp]] _ IH]; cbn [map].
  - rewrite qsum_nil, sum_nil. unfold Qdiv; rewrite Qmult_0_l; reflexivity.
  - rewrite qsum_cons, sum_cons, IH, Hp, inject_Z_plus. field; exact Hq.
Qed.

Lemma insert_desc_ties (c : Z) (x : key * Z) (l : list (key * Z)) :
  filter (fun kv => snd kv =? c)%Z (insert_desc x l) =
  filter (fun kv => snd kv =? c)%Z (x :: l).
Proof.
  induction l as [|y l IH]; cbn [insert_desc]; [reflexivity|].
  destruct (Z.leb_spec (snd y) (snd x)) as [Hle|Hgt]; [reflexivity|].
  cbn [filter] in *. rewrite IH.
  destruct (Z.eqb_spec (snd y) c) as [Hy|Hy];
    destruct (Z.eqb_spec (snd x) c) as [Hx|Hx]; try reflexivity.
  lia.
Qed.

End TableFacts.

(** X7.  [sorted(..., reverse=True)] on the count is a stable sort: the
    result is a permutation of the entries, in descending order of count,
    and entries of equal count keep the order they have in the
    histogram. *)
Theorem sort_by_count_is_stable (l : list (key * Z)) :
  Permutation (sorted_by_count_desc l) l /\
  StronglySorted count_desc (sorted_by_count_desc l) /\
  forall c : Z,
    filter (fun kv => snd kv =? c)%Z (sorted_by_count_desc l) =
    filter (fun kv => snd kv =? c)%Z l.
Proof.
  split; [apply sorted_by_count_desc_perm|].
  split; [apply sorted_by_count_desc_sorted|].
  intro c; induction l as [|x l IH]; [reflexivity|].
  cbn [sorted_by_count_desc fold_right]. fold (sorted_by_count_desc l).
  rewrite insert_desc_ties. cbn [filter]. rewrite IH; reflexivity.
Qed.

(** X8.  When the total is not 0 and the five largest entries lie in the
    legend, the table has [min(5, len(counts))] rows.  In exact
    arithmetic the percentages of a histogram of pixel counts add up to at
    most 100, and to 100 when the histogram has at most five entries; the
    rounded percentages of the code add up to 100 up to the last place
    only (99.99999999999999 for three equal counts, 100.00000000000001
    for the counts 5, 4, 4). *)
Theorem top_5_table_shape (h : dict Z) :
  sum (values h) <> 0%Z -> pixel_counts h ->
  (forall kv, In kv (top_5 h) -> returns (label_of (fst kv))) ->
  exists rows,
    get_top_5_landcover h = Ok rows /\
    List.length rows = Nat.min 5 (List.length h) /\
    (qsum (map row_percent rows) <= 100)%Q /\
    ((List.length h <= 5)%nat -> (qsum (map row_percent rows) == 100)%Q).
Proof.
  intros Hne Hpos Hlegend.
  destruct (@top_5_rows h Hne Hlegend) as [rows [Hrows Hrel]].
  exists rows; split; [exact Hrows|].
  assert (0 < sum (values h))%Z as Ht.
  { pose proof (sum_nonneg Hpos); lia. }
  assert (~ inject_Z (sum (values h)) == 0)%Q as Hq
    by (apply inject_Z_nonzero; exact Hne).
  pose proof (sorted_by_count_desc_perm h) as Hperm.
  assert (sum (map snd (top_5 h)) +
          sum (map snd (skipn 5 (sorted_by_count_desc h))) =
          sum (values h))%Z as Hsplit.
  { rewrite <- sum_app, <- map_app. unfold top_5, items.
    rewrite firstn_skipn. apply sum_permutation, Permutation_map; exact Hperm. }
  assert (0 <= sum (map snd (skipn 5 (sorted_by_count_desc h))))%Z as Hrest.
  { apply sum_nonneg, Forall_forall; intros c Hc.
    apply in_map_iff in Hc; destruct Hc as [kv [<- Hin]].
    unfold pixel_counts in Hpos; rewrite Forall_forall in Hpos.
    apply Hpos, in_map.
    apply (Permutation_in _ Hperm).
    rewrite <- (firstn_skipn 5 (sorted_by_count_desc h)).
    apply in_or_app; right; exact Hin. }
  split; [|split].
  - rewrite <- (Forall2_length Hrel). unfold top_5, items.
    rewrite length_firstn, (Permutation_length Hperm); reflexivity.
  - rewrite (percent_total Hne Hrel).
    setoid_replace (100 : Q) with (1 * 100)%Q at 2 by ring.
    apply Qmult_le_compat_r; [|discriminate].
    apply (proj1 (quotient_le_one _ Ht)); lia.
  - intro Hlen. rewrite (percent_total Hne Hrel).
    assert (skipn 5 (sorted_by_count_desc h) = []) as Hnil.
    { apply skipn_all2. rewrite (Permutation_length Hperm); exact Hlen. }
    rewrite Hnil in Hsplit; cbn [map] in Hsplit; rewrite sum_nil in Hsplit.
    replace (sum (map snd (top_5 h))) with (sum (values h)) by lia.
    field; exact Hq.
Qed.

Lemma top_5_table_shape_witness :
  exists rows,
    get_top_5_landcover scenario_histogram = Ok rows /\
    List.length rows = Nat.min 5 (List.length scenario_histogram) /\
    (qsum (map row_percent rows) <= 100)%Q /\
    ((List.length scenario_histogram <= 5)%nat ->
     (qsum (map row_percent rows) == 100)%Q).
Proof.
  apply top_5_table_shape.
  - discriminate.
  - repeat constructor; discriminate.
  - intros kv [<-|[<-|[]]]; eexists; reflexivity.
Defined.

Section ReportFacts.

Lemma shannon_zero_total (h : dict Z) :
  h <> [] -> sum (values h) = 0%Z ->
  get_shannon_index h = Raise ZeroDivisionError.
Proof.
  intros Hne Ht. unfold get_shannon_index, proportions. rewrite Ht.
  destruct h as [|[k v] h]; [contradiction|]. reflexivity.
Qed.

Lemma simpson_defined (h : dict Z) :
  sum (values h) <> 0%Z -> returns (get_simpson_index h).
Proof.
  intro Hne. destruct (simpson_formula h Hne) as [d [Hd _]].
  exists d; exact Hd.
Qed.

Lemma habitat_fractions_return (h : dict Z) :
  returns (get_natural_habitat_fraction h) /\
  returns (get_anthropogenic_habitat_fraction h).
Proof.
  unfold get_natural_habitat_fraction, get_anthropogenic_habitat_fraction.
  destruct (Z.ltb_spec 0 (sum (values h))) as [Ht|Ht].
  - rewrite !truediv_ok by lia. split; eexists; reflexivity.
  - split; eexists; reflexivity.
Qed.

Lemma shannon_empty : get_shannon_index [] = Ok 0%R.
Proof.
  unfold get_shannon_index; rewrite proportions_empty; cbn [bind filter map].
  unfold rsum; cbn [fold_left]. f_equal; lra.
Qed.

Lemma empty_histogram_metrics :
  get_simpson_index [] = Ok 1%Q /\
  get_evenness_index [] = Ok 0%R /\
  get_natural_habitat_fraction [] = Ok 0%Q /\
  get_anthropogenic_habitat_fraction [] = Ok 0%Q /\
  get_top_5_landcover [] = Ok [].
Proof.
  split; [reflexivity|]. split.
  - unfold get_evenness_index; rewrite shannon_empty; reflexivity.
  - repeat split.
Qed.

Lemma legends_agree (code : Z) :
  agree same_class_label
    (legend_lookup Landcover.landcover_classes code)
    (legend_lookup Package.landcover_classes code).
Proof.
  unfold Landcover.landcover_classes, Package.landcover_classes.
  cbn [legend_lookup].
  repeat match goal with
         | |- context [(?c =? code)%Z] =>
             destruct (Z.eqb_spec c code) as [_|_];
             [cbn [agree]; unfold same_class_label; tauto|]
         end.
  reflexivity.
Qed.

End ReportFacts.

(** X9.  What [get_landcover_metrics] does with the histogram of the
    ["Map"] band.  Without the band, or with an empty histogram, it
    returns Shannon 0, Simpson 1, evenness 0, fractions 0 and an empty
    table.  With entries but a total of 0 it raises [ZeroDivisionError],
    whatever the keys.  With a total other than 0 it returns exactly when
    the five largest entries lie in the legend. *)
Theorem landcover_metrics_outcome (response : list (string * dict Z)) :
  (Report.band response "Map" [] = [] ->
   Report.get_landcover_metrics response = Ok Report.no_pixels) /\
  (Report.band response "Map" [] <> [] ->
   sum (values (Report.band response "Map" [])) = 0%Z ->
   Report.get_landcover_metrics response = Raise ZeroDivisionError) /\
  (sum (values (Report.band response "Map" [])) <> 0%Z ->
   (returns (Report.get_landcover_metrics response) <->
    forall kv, In kv (top_5 (Report.band response "Map" [])) ->
               returns (label_of (fst kv)))).
Proof.
  unfold Report.get_landcover_metrics.
  set (counts := Report.band response "Map" []).
  split; [|split].
  - intros ->.
    destruct empty_histogram_metrics as [Hd [He [Hn [Ha Ht]]]].
    rewrite shannon_empty, Hd, He, Hn, Ha, Ht. reflexivity.
  - intros Hne Ht. rewrite (shannon_zero_total Hne Ht). reflexivity.
  - intro Hne.
    destruct (@shannon_defined counts (or_introl Hne)) as [s Hs].
    destruct (@simpson_defined counts Hne) as [d Hd].
    destruct (habitat_fractions_return counts) as [[n Hn] [a Ha]].
    rewrite Hs, Hd, (evenness_unfold _ Hs), Hn, Ha. cbn [bind].
    rewrite <- (@top_5_returns counts (or_introl Hne)).
    split.
    + intros [m Hm].
      destruct (get_top_5_landcover counts) as [rows|e];
        [eexists; reflexivity|discriminate].
    + intros [rows ->]. eexists; reflexivity.
Qed.

Lemma landcover_metrics_outcome_witness :
  sum (values (Report.band [("Map"%string, scenario_histogram)] "Map" []))
    <> 0%Z /\
  returns (Report.get_landcover_metrics [("Map"%string, scenario_histogram)]).
Proof.
  assert (sum (values (Report.band [("Map"%string, scenario_histogram)]
                         "Map" [])) <> 0%Z) as Hne by discriminate.
  split; [exact Hne|].
  apply (proj2 (proj2 (proj2
           (landcover_metrics_outcome [("Map"%string, scenario_histogram)]))
           Hne)).
  intros kv [<-|[<-|[]]]; eexists; reflexivity.
Defined.

(** X10.  The copy of [get_top_5_landcover] in [metrics/__init__.py] and
    the one in [metrics/landcover_metrics.py] raise the same exception or
    return tables with the same counts and percentages; the labels are
    the same except for code 60 ("Sparse vegetation" against
    "Bare / sparse vegetation") and code 80 ("Permanent water" against
    "Permanent water bodies"). *)
Theorem package_table_agrees (h : dict Z) :
  agree (Forall2 same_row)
    (Landcover.get_top_5_landcover h) (Package.get_top_5_landcover h).
Proof.
  unfold Landcover.get_top_5_landcover, Package.get_top_5_landcover.
  apply comprehension_agree; intros [cls count] _.
  destruct (int cls) as [code|e]; cbn [bind agree]; [|reflexivity].
  pose proof (legends_agree code) as Hl.
  destruct (legend_lookup Landcover.landcover_classes code) as [l1|e1],
           (legend_lookup Package.landcover_classes code) as [l2|e2];
    cbn [agree bind] in *; try contradiction; [|exact Hl].
  destruct (truediv count (sum (values h))) as [q|e]; cbn [bind agree];
    [|reflexivity].
  unfold same_row, row_label, row_count, row_percent; cbn [fst snd].
  split; [exact Hl|split; reflexivity].
Qed.

(** ** Vegetation ratings *)

Import Rating.

Section RatingFacts.

Lemma qle_bool_trans (a b c : Q) :
  Qle_bool a b = true -> (b <= c)%Q -> Qle_bool a c = true.
Proof.
  intros Hab Hbc. apply Qle_bool_iff. apply Qle_bool_iff in Hab.
  eapply Qle_trans; eassumption.
Qed.

Lemma get_nonneg (h : dict Z) (k : key) :
  pixel_counts h -> (0 <= get h k 0)%Z.
Proof.
  unfold pixel_counts, values.
  induction h as [|[k' v] h IH]; cbn [get map snd]; intro Hpos; [lia|].
  inversion Hpos as [|? ? Hv Hrest]; subst.
  destruct (key_eqb k' k); [exact Hv|apply IH; exact Hrest].
Qed.

Lemma rating_keys_nodup : NoDup rating_keys.
Proof.
  unfold rating_keys; repeat constructor; simpl; intuition discriminate.
Qed.

End RatingFacts.

(** X11.  The rating of a pixel is one of 1..5 and does not decrease when
    its vegetation index increases.  When the percentiles are in order, a
    pixel is rated at least 2, 3, 4, 5 exactly when its index reaches the
    25th, 35th, 70th, 90th percentile. *)
Theorem rating_rule (ndvi ndvi' p25 p35 p70 p90 : Q) :
  (1 <= ndvi_rating ndvi p25 p35 p70 p90 <= 5)%Z /\
  ((ndvi <= ndvi')%Q ->
   (ndvi_rating ndvi p25 p35 p70 p90 <= ndvi_rating ndvi' p25 p35 p70 p90)%Z) /\
  ((p25 <= p35)%Q -> (p35 <= p70)%Q -> (p70 <= p90)%Q ->
   ((2 <= ndvi_rating ndvi p25 p35 p70 p90)%Z <-> (p25 <= ndvi)%Q) /\
   ((3 <= ndvi_rating ndvi p25 p35 p70 p90)%Z <-> (p35 <= ndvi)%Q) /\
   ((4 <= ndvi_rating ndvi p25 p35 p70 p90)%Z <-> (p70 <= ndvi)%Q) /\
   ((5 <= ndvi_rating ndvi p25 p35 p70 p90)%Z <-> (p90 <= ndvi)%Q)).
Proof.
  unfold ndvi_rating. split; [|split].
  - destruct (Qle_bool p90 ndvi), (Qle_bool p70 ndvi),
             (Qle_bool p35 ndvi), (Qle_bool p25 ndvi); lia.
  - intro Hle.
    destruct (Qle_bool p90 ndvi) eqn:H90;
      [rewrite (qle_bool_trans _ H90 Hle); lia|].
    destruct (Qle_bool p70 ndvi) eqn:H70;
      [rewrite (qle_bool_trans _ H70 Hle);
       destruct (Qle_bool p90 ndvi'); lia|].
    destruct (Qle_bool p35 ndvi) eqn:H35;
      [rewrite (qle_bool_trans _ H35 Hle);
       destruct (Qle_bool p90 ndvi'), (Qle_bool p70 ndvi'); lia|].
    destruct (Qle_bool p25 ndvi) eqn:H25;
      [rewrite (qle_bool_trans _ H25 Hle);
       destruct (Qle_bool p90 ndvi'), (Qle_bool p70 ndvi'),
                (Qle_bool p35 ndvi'); lia|].
    destruct (Qle_bool p90 ndvi'), (Qle_bool p70 ndvi'),
             (Qle_bool p35 ndvi'), (Qle_bool p25 ndvi'); lia.
  - intros H1 H2 H3.
    assert (Qle_bool p90 ndvi = true -> Qle_bool p70 ndvi = true) as I90.
    { rewrite !Qle_bool_iff; intro; eapply Qle_trans; eassumption. }
    assert (Qle_bool p70 ndvi = true -> Qle_bool p35 ndvi = true) as I70.
    { rewrite !Qle_bool_iff; intro; eapply Qle_trans; eassumption. }
    assert (Qle_bool p35 ndvi = true -> Qle_bool p25 ndvi = true) as I35.
    { rewrite !Qle_bool_iff; intro; eapply Qle_trans; eassumption. }
    rewrite <- !Qle_bool_iff.
    destruct (Qle_bool p90 ndvi), (Qle_bool p70 ndvi),
             (Qle_bool p35 ndvi), (Qle_bool p25 ndvi);
      repeat split; intros; try lia; try reflexivity; try discriminate;
      intuition discriminate.
Qed.

Lemma rating_rule_witness :
  (1 # 2 <= 3 # 4)%Q /\
  (ndvi_rating (1 # 2) (2 # 10) (3 # 10) (6 # 10) (8 # 10)
   <= ndvi_rating (3 # 4) (2 # 10) (3 # 10) (6 # 10) (8 # 10))%Z.
Proof.
  assert (1 # 2 <= 3 # 4)%Q as Hle by discriminate.
  split; [exact Hle|].
  exact (proj1 (proj2 (rating_rule (1 # 2) (3 # 4) (2 # 10) (3 # 10)
                         (6 # 10) (8 # 10))) Hle).
Defined.

(** X12.  The pixel size chosen for the rating histogram is 10, 20, 30 or
    100 metres and does not decrease when the area grows. *)
Theorem scale_is_monotone (area area' : R) :
  In (scale_adjusted area) [10; 20; 30; 100]%Z /\
  ((area <= area')%R -> (scale_adjusted area <= scale_adjusted area')%Z).
Proof.
  unfold scale_adjusted; split.
  - destruct (Rlt_dec 100 area), (Rlt_dec 50 area), (Rlt_dec 10 area);
      cbn [In]; tauto.
  - intro Hle.
    destruct (Rlt_dec 100 area), (Rlt_dec 50 area), (Rlt_dec 10 area),
             (Rlt_dec 100 area'), (Rlt_dec 50 area'), (Rlt_dec 10 area');
      try lia; exfalso; lra.
Qed.

Lemma scale_is_monotone_witness :
  (40 <= 60)%R /\ (scale_adjusted 40 <= scale_adjusted 60)%Z.
Proof.
  assert (40 <= 60)%R as Hle by lra.
  split; [exact Hle|].
  exact (proj2 (scale_is_monotone 40 60) Hle).
Defined.

(** X13.  For a rating histogram of pixel counts whose total is not 0 the
    summary is returned; the degraded percentage lies between 0 and 100,
    the degraded and good counts together do not exceed the total, and
    they make up the whole total when every key is one of "1".."5".  The
    degraded area is the degraded count times the pixel area, in
    hectares. *)
Theorem rating_summary_range (ndvi_rating : dict Z) (scale : Z) :
  wf ndvi_rating -> pixel_counts ndvi_rating ->
  sum (values ndvi_rating) <> 0%Z ->
  exists r,
    rating_summary ndvi_rating scale = Ok r /\
    (0 <= bad_vegetation_perc r)%Q /\ (bad_vegetation_perc r <= 100)%Q /\
    (0 <= bad_vegetation r)%Z /\ (0 <= good_vegetation r)%Z /\
    (bad_vegetation r + good_vegetation r <= total_pix r)%Z /\
    ((forall k, In k (keys ndvi_rating) -> In k rating_keys) ->
     (bad_vegetation r + good_vegetation r = total_pix r)%Z) /\
    (bad_vegetation_ha r ==
     inject_Z (bad_vegetation r) * inject_Z (scale * scale) / 10000)%Q.
Proof.
  intros Hwf Hpos Hne.
  unfold rating_summary. rewrite (truediv_ok _ Hne); cbn [bind].
  rewrite truediv_ok by discriminate. cbn [bind].
  eexists; split; [reflexivity|].
  cbn [bad_vegetation_perc bad_vegetation good_vegetation total_pix
       bad_vegetation_ha].
  pose proof (get_nonneg (KStr "1") Hpos) as H1.
  pose proof (get_nonneg (KStr "2") Hpos) as H2.
  pose proof (get_nonneg (KStr "3") Hpos) as H3.
  pose proof (get_nonneg (KStr "4") Hpos) as H4.
  pose proof (get_nonneg (KStr "5") Hpos) as H5.
  pose proof (sum_get_filter Hwf rating_keys_nodup) as Hrated.
  unfold rating_keys in Hrated at 1. cbn [map] in Hrated.
  rewrite !sum_cons, sum_nil in Hrated.
  pose proof (sum_values_split (fun kv => among rating_keys (fst kv))
                ndvi_rating) as Hsplit.
  cbv beta in Hsplit.
  pose proof (sum_nonneg
    (pixel_counts_filter
       (fun kv => negb (among rating_keys (fst kv))) Hpos)) as Hrest.
  pose proof (sum_nonneg Hpos) as Htot.
  set (g1 := get ndvi_rating (KStr "1") 0%Z) in *.
  set (g2 := get ndvi_rating (KStr "2") 0%Z) in *.
  set (g3 := get ndvi_rating (KStr "3") 0%Z) in *.
  set (g4 := get ndvi_rating (KStr "4") 0%Z) in *.
  set (g5 := get ndvi_rating (KStr "5") 0%Z) in *.
  set (t := sum (values ndvi_rating)) in *.
  assert (0 < t)%Z as Ht by lia.
  assert (g1 + g2 + (g3 + g4 + g5) <= t)%Z as Hle by lia.
  destruct (@quotient_range (g1 + g2) t) as [Hq0 Hq1]; [lia|exact Ht|].
  split.
  { setoid_replace (0 : Q) with (0 * 100)%Q by ring.
    apply Qmult_le_compat_r; [exact Hq0|discriminate]. }
  split.
  { setoid_replace (100 : Q) with (1 * 100)%Q at 2 by ring.
    apply Qmult_le_compat_r; [exact Hq1|discriminate]. }
  split; [lia|]. split; [lia|]. split; [lia|]. split.
  - intro Hkeys.
    assert (filter (fun kv => negb (among rating_keys (fst kv))) ndvi_rating
            = []) as Hnil.
    { clear - Hkeys. induction ndvi_rating as [|[k v] d IH]; [reflexivity|].
      cbn [filter fst].
      assert (among rating_keys k = true) as ->
        by (apply among_spec, Hkeys; left; reflexivity).
      cbn [negb]. apply IH; intros k' Hk'; apply Hkeys; right; exact Hk'. }
    rewrite Hnil in Hsplit.
    change (sum (values (@nil (key * Z)))) with 0%Z in Hsplit. lia.
  - replace (scale ^ 2)%Z with (scale * scale)%Z by ring.
    replace (10 ^ 4)%Z with 10000%Z by reflexivity.
    rewrite inject_Z_mult. reflexivity.
Qed.

Lemma rating_summary_range_witness :
  exists r,
    rating_summary [ (KStr "1", 3%Z); (KStr "4", 9%Z) ] 20 = Ok r /\
    (0 <= bad_vegetation_perc r)%Q /\ (bad_vegetation_perc r <= 100)%Q.
Proof.
  destruct (@rating_summary_range [ (KStr "1", 3%Z); (KStr "4", 9%Z) ] 20)
    as [r [Hr [H0 [H100 _]]]].
  - repeat constructor; simpl; intuition discriminate.
  - repeat constructor; discriminate.
  - discriminate.
  - exists r; split; [exact Hr|split; assumption].
Defined.

(** ** Sampling a source *)

Import Sampling.

Section SamplingFacts.

Variable search : Z -> Z -> list OccurrenceRecord.

(** The outcome of a run with a cap that is not negative, read off the
    trace of the loop. *)
Lemma run_trace (N : Z) :
  (0 <= N)%Z ->
  exists front stop,
    pages_fetched search N = front ++ stop /\
    get_gbif_sample search N =
      firstn (Z.to_nat N) (List.concat (front ++ stop)) /\
    Forall (fun page => ~ short page) front /\
    ((exists last, stop = [last] /\ short last /\
        (Z.of_nat (List.length front) < N / per_page + 1)%Z) \/
     (stop = [] /\ Z.of_nat (List.length front) = (N / per_page + 1)%Z)) /\
    (forall j page, nth_error (front ++ stop) j = Some page ->
       page = search (request_offset j) per_page).
Proof.
  intro HN.
  assert (0 <= N / per_page)%Z as Hdiv
    by (apply Z.div_pos; unfold per_page; lia).
  destruct (page_loop_trace search (Z.to_nat (N / per_page + 1)) 0 [] [])
    as [front [stop [Hrun [Hfront [Hstop Hreq]]]]].
  cbn [app] in Hrun.
  exists front, stop.
  split; [unfold pages_fetched, run_pages; rewrite Hrun; reflexivity|].
  split.
  { unfold get_gbif_sample, run_pages, slice_to; rewrite Hrun.
    destruct (Z.ltb_spec N 0) as [Hneg|_]; [lia|reflexivity]. }
  split; [exact Hfront|]. split.
  - destruct Hstop as [[last [-> [Hlast Hlen]]]|[-> Hlen]].
    + left; exists last; split; [reflexivity|split; [exact Hlast|lia]].
    + right; split; [reflexivity|lia].
  - intros j page Hj. rewrite (Hreq j page Hj).
    unfold request_offset; f_equal.
Qed.

End SamplingFacts.

Section PrefixFacts.

Lemma firstn_plus {A : Type} (a b : nat) (l : list A) :
  firstn (a + b) l = firstn a l ++ firstn b (skipn a l).
Proof.
  revert l; induction a as [|a IH]; intro l; [reflexivity|].
  destruct l as [|x l]; cbn [Nat.add firstn skipn app].
  - rewrite firstn_nil; reflexivity.
  - rewrite IH; reflexivity.
Qed.

(** Pages cut one after the other out of a list join to a prefix of it. *)
Lemma pages_join {A : Type} (n : nat) (held : list A)
    (pages : list (list A)) :
  forall k,
    (forall j page, nth_error pages j = Some page ->
       page = firstn n (skipn ((k + j) * n) held)) ->
    List.concat pages = firstn (List.length pages * n) (skipn (k * n) held).
Proof.
  induction pages as [|page pages IH]; intros k Hreq; [reflexivity|].
  cbn [List.concat List.length].
  rewrite (Hreq 0%nat page eq_refl), Nat.add_0_r.
  rewrite (IH (S k)).
  - change (S (List.length pages) * n)%nat
      with (n + List.length pages * n)%nat.
    rewrite firstn_plus, skipn_skipn.
    replace (n + k * n)%nat with (S k * n)%nat by lia. reflexivity.
  - intros j p Hj. rewrite (Hreq (S j) p Hj). do 2 f_equal. lia.
Qed.

Lemma list_source_page (held : list OccurrenceRecord) (j : nat) :
  list_source held (request_offset j) per_page =
    firstn 300 (skipn (j * 300) held).
Proof.
  unfold list_source, request_offset, per_page. do 2 f_equal. lia.
Qed.

End PrefixFacts.

(** X14.  When the source serves a fixed list of records by offset and
    limit, the sample for a cap [N >= 0] is the first [N] records of that
    list (all of them when it holds fewer), and the number of requests is
    the smaller of [N // 300 + 1] and [len(held) // 300 + 1]. *)
Theorem sample_of_list_source (held : list OccurrenceRecord) (N : Z) :
  (0 <= N)%Z ->
  get_gbif_sample (list_source held) N = firstn (Z.to_nat N) held /\
  Z.of_nat (List.length (pages_fetched (list_source held) N)) =
    Z.min (N / 300 + 1) (Z.of_nat (List.length held) / 300 + 1).
Proof.
  intro HN.
  destruct (run_trace (list_source held) HN)
    as [front [stop [Hpages [Hsample [Hfront [Hstop Hreq]]]]]].
  assert (forall j page, nth_error (front ++ stop) j = Some page ->
            page = firstn 300 (skipn ((0 + j) * 300) held)) as Hcut.
  { intros j page Hj. rewrite (Hreq j page Hj). apply list_source_page. }
  pose proof (pages_join 300 held (front ++ stop) 0 Hcut) as Hjoin.
  cbn [Nat.mul skipn] in Hjoin.
  set (T := List.length held).
  assert (forall j, (j < List.length front)%nat -> (300 * (j + 1) <= T)%nat)
    as Hfull.
  { intros j Hj.
    destruct (nth_error front j) as [page|] eqn:Hpage;
      [|apply nth_error_None in Hpage; lia].
    rewrite Forall_forall in Hfront.
    pose proof (Hfront page (nth_error_In _ _ Hpage)) as Hnot.
    assert (nth_error (front ++ stop) j = Some page) as Hj'
      by (rewrite nth_error_app1 by exact Hj; exact Hpage).
    rewrite (Hcut j page Hj') in Hnot. unfold short, per_page in Hnot.
    rewrite length_firstn, length_skipn in Hnot. fold T in Hnot. lia. }
  assert (Z.of_nat (List.length front) <= Z.of_nat T / 300)%Z as Hfront_le.
  { destruct (List.length front) as [|m] eqn:Hm.
    - apply Z.div_pos; lia.
    - specialize (Hfull m ltac:(lia)).
      apply Z.div_le_lower_bound; lia. }
  rewrite Hpages, Hsample, Hjoin, length_app.
  unfold per_page in Hstop.
  destruct Hstop as [[last [-> [Hlast Hlen]]]|[-> Hlen]].
  - assert (nth_error (front ++ [last]) (List.length front) = Some last)
      as Hnth
      by (rewrite nth_error_app2, Nat.sub_diag by lia; reflexivity).
    rewrite (Hcut _ _ Hnth) in Hlast. unfold short, per_page in Hlast.
    rewrite length_firstn, length_skipn in Hlast. fold T in Hlast.
    assert (T < (List.length front + 1) * 300)%nat as Hend by lia.
    assert (Z.of_nat T / 300 < Z.of_nat (List.length front) + 1)%Z as Hup
      by (apply Z.div_lt_upper_bound; lia).
    cbn [List.length]. split.
    + rewrite (firstn_all2 (n := (List.length front + 1) * 300) held)
        by (fold T; lia).
      reflexivity.
    + lia.
  - rewrite firstn_firstn. cbn [List.length].
    pose proof (Z.mul_succ_div_gt N 300 ltac:(lia)) as Hgt.
    split; [f_equal; lia|lia].
Qed.

Lemma sample_of_list_source_witness :
  (0 <= 2)%Z /\
  get_gbif_sample
    (list_source [ {| gbif_key := 1%Z; species := None |};
                   {| gbif_key := 2%Z; species := None |};
                   {| gbif_key := 3%Z; species := None |} ]) 2 =
    [ {| gbif_key := 1%Z; species := None |};
      {| gbif_key := 2%Z; species := None |} ].
Proof.
  assert (0 <= 2)%Z as HN by lia.
  split; [exact HN|].
  exact (proj1 (sample_of_list_source
                  [ {| gbif_key := 1%Z; species := None |};
                    {| gbif_key := 2%Z; species := None |};
                    {| gbif_key := 3%Z; species := None |} ] HN)).
Defined.

(** X15.  With a negative cap no page is requested and the sample is
    empty. *)
Theorem negative_cap_requests_nothing
    (search : Z -> Z -> list OccurrenceRecord) (N : Z) :
  (N < 0)%Z ->
  pages_fetched search N = [] /\ get_gbif_sample search N = [].
Proof.
  intro HN.
  assert (Z.to_nat (N / per_page + 1) = 0%nat) as Hbudget.
  { assert (N / per_page < 0)%Z
      by (apply Z.div_lt_upper_bound; unfold per_page; lia).
    lia. }
  unfold pages_fetched, get_gbif_sample, run_pages. rewrite Hbudget.
  cbn [page_loop fst snd]. split; [reflexivity|].
  unfold slice_to. destruct (N <? 0)%Z; apply firstn_nil.
Qed.

Lemma negative_cap_requests_nothing_witness :
  (-1 < 0)%Z /\ pages_fetched small_source (-1) = [].
Proof.
  assert (-1 < 0)%Z as HN by lia.
  split; [exact HN|].
  exact (proj1 (negative_cap_requests_nothing small_source HN)).
Defined.

(** X16.  The caller asks for [min(occ_total, 10000)] records, so
    whatever the source answers the sample has at most 10000 records and
    at most 34 pages are requested; for a count that is not negative the
    sample has at most that many records. *)
Theorem sample_is_capped (search : Z -> Z -> list OccurrenceRecord)
    (occ_total : Z) :
  (Z.of_nat (List.length (get_gbif_sample search (n_samples occ_total)))
   <= 10000)%Z /\
  (Z.of_nat (List.length (pages_fetched search (n_samples occ_total)))
   <= 34)%Z /\
  ((0 <= occ_total)%Z ->
   (Z.of_nat (List.length (get_gbif_sample search (n_samples occ_total)))
    <= occ_total)%Z).
Proof.
  assert (n_samples occ_total <= 10000)%Z as Hcap
    by (unfold n_samples; destruct (Z.ltb_spec 10000 occ_total); lia).
  assert (n_samples occ_total <= occ_total)%Z as Hle
    by (unfold n_samples; destruct (Z.ltb_spec 10000 occ_total); lia).
  destruct (Z_lt_le_dec (n_samples occ_total) 0) as [Hneg|Hpos].
  - destruct (negative_cap_requests_nothing search Hneg) as [-> ->].
    cbn [List.length]. repeat split; lia.
  - destruct (run_trace search Hpos)
      as [front [stop [Hpages [Hsample [_ [Hstop _]]]]]].
    rewrite Hpages, Hsample.
    pose proof (firstn_le_length (Z.to_nat (n_samples occ_total))
                  (List.concat (front ++ stop))) as Hlen.
    assert (n_samples occ_total / per_page <= 33)%Z as Hdiv.
    { unfold per_page.
      apply (Z.le_trans _ (10000 / 300)); [|reflexivity].
      apply Z.div_le_mono; lia. }
    rewrite length_app.
    destruct Hstop as [[last [-> [_ Hn]]]|[-> Hn]]; cbn [List.length];
      repeat split; lia.
Qed.

Lemma sample_is_capped_witness :
  (0 <= 123456)%Z /\
  (Z.of_nat (List.length (get_gbif_sample small_source (n_samples 123456)))
   <= 123456)%Z.
Proof.
  assert (0 <= 123456)%Z as H by lia.
  split; [exact H|].
  exact (proj2 (proj2 (sample_is_capped small_source 123456)) H).
Defined.

(** ** Species counts and the biodiversity indices *)

Section CounterFacts.

Lemma tally_counter_add (c : list (string * Z)) (s t : string) :
  tally (counter_add c s) t =
    (tally c t + (if String.eqb s t then 1 else 0))%Z.
Proof.
  induction c as [|[u n] c IH]; cbn [counter_add tally].
  - destruct (String.eqb s t); lia.
  - destruct (String.eqb_spec u s) as [->|Hus]; cbn [tally].
    + destruct (String.eqb s t); lia.
    + destruct (String.eqb_spec u t) as [->|Hut].
      * destruct (String.eqb_spec s t); [congruence|lia].
      * exact IH.
Qed.

Lemma tally_fold (l : list string) (c : list (string * Z)) (t : string) :
  tally (fold_left counter_add l c) t =
    (tally c t + Z.of_nat (count_occ string_dec l t))%Z.
Proof.
  revert c; induction l as [|s l IH]; intro c; cbn [fold_left count_occ].
  - lia.
  - rewrite IH, tally_counter_add.
    destruct (string_dec s t) as [E|E].
    + subst; rewrite String.eqb_refl; lia.
    + destruct (String.eqb_spec s t); [contradiction|lia].
Qed.

Lemma entry_tally (c : list (string * Z)) (s : string) (n : Z) :
  NoDup (map fst c) ->
  (In (s, n) c <-> In s (map fst c) /\ tally c s = n).
Proof.
  induction c as [|[u m] c IH]; cbn [map fst In tally]; intro Hnd.
  - tauto.
  - inversion Hnd as [|? ? Hu Hc]; subst. specialize (IH Hc).
    destruct (String.eqb_spec u s) as [->|Hus].
    + split.
      * intros [E|Hin]; [injection E as <-; tauto|].
        exfalso; apply Hu. apply (in_map fst) in Hin; exact Hin.
      * intros [_ <-]; left; reflexivity.
    + split.
      * intros [E|Hin]; [congruence|]. apply IH in Hin. tauto.
      * intros [[E|Hin] Ht]; [congruence|]. right; apply IH; tauto.
Qed.

(** [Counter] holds, for each species of the list, the number of times it
    occurs, and nothing else. *)
Lemma counter_entries (l : list string) (s : string) (n : Z) :
  In (s, n) (Counter l) <->
  In s l /\ n = Z.of_nat (count_occ string_dec l s).
Proof.
  destruct (counter_fold l []) as [_ [Hnd [_ Hkeys]]];
    [constructor|constructor|].
  unfold Counter.
  rewrite (@entry_tally (fold_left counter_add l []) s n Hnd).
  rewrite Hkeys, tally_fold. cbn [map In tally]. intuition lia.
Qed.

Lemma counter_permutation (l l' : list string) :
  Permutation l l' -> Permutation (Counter l) (Counter l').
Proof.
  intro Hperm.
  assert (forall k, NoDup (map fst (Counter k))) as Hnd.
  { intro k. destruct (counter_fold k []) as [_ [H _]];
      [constructor|constructor|exact H]. }
  apply NoDup_Permutation.
  - exact (NoDup_map_inv fst _ (Hnd l)).
  - exact (NoDup_map_inv fst _ (Hnd l')).
  - intros [s n]. rewrite !counter_entries.
    rewrite (proj1 (Permutation_count_occ string_dec l l') Hperm s).
    split; intros [Hin ->]; (split; [|reflexivity]).
    + exact (Permutation_in _ Hperm Hin).
    + exact (Permutation_in _ (Permutation_sym Hperm) Hin).
Qed.

Lemma counter_single (s : string) (k : nat) (n : Z) :
  fold_left counter_add (repeat s k) [(s, n)] = [(s, (n + Z.of_nat k)%Z)].
Proof.
  revert n; induction k as [|k IH]; intro n.
  - cbn [repeat fold_left]. do 2 f_equal. lia.
  - change (repeat s (S k)) with (s :: repeat s k).
    cbn [fold_left counter_add]. rewrite String.eqb_refl, IH.
    do 2 f_equal. lia.
Qed.

Lemma all_equal_repeat (s : string) (l : list string) :
  (forall t, In t l -> t = s) -> l = repeat s (List.length l).
Proof.
  induction l as [|t l IH]; intro H; [reflexivity|].
  cbn [List.length repeat].
  rewrite (H t (or_introl eq_refl)). f_equal.
  apply IH; intros u Hu; apply H; right; exact Hu.
Qed.

End CounterFacts.

Section MaximumFacts.

Lemma fold_max_maximum (xs : list Z) (a : Z) :
  (0 <= a)%Z -> fold_left Z.max xs a = Z.max a (maximum xs).
Proof.
  revert a; induction xs as [|x xs IH]; intros a Ha;
    cbn [fold_left maximum fold_right].
  - lia.
  - rewrite IH by lia. fold (maximum xs). lia.
Qed.

Lemma maximum_upper (xs : list Z) :
  forall x, In x xs -> (x <= maximum xs)%Z.
Proof.
  induction xs as [|y xs IH]; intros x Hx; [destruct Hx|].
  cbn [maximum fold_right]; fold (maximum xs).
  destruct Hx as [->|Hx]; [lia|]. specialize (IH x Hx); lia.
Qed.

Lemma maximum_member (xs : list Z) :
  xs <> [] -> Forall (fun x => 0 < x)%Z xs -> In (maximum xs) xs.
Proof.
  induction xs as [|x xs IH]; intros Hne Hpos; [contradiction|].
  inversion Hpos as [|? ? Hx Hrest]; subst.
  cbn [maximum fold_right]; fold (maximum xs).
  destruct xs as [|y ys].
  - left. cbn [maximum fold_right]. lia.
  - assert (In (maximum (y :: ys)) (y :: ys)) as Hin
      by (apply IH; [discriminate|exact Hrest]).
    destruct (Z.max_spec x (maximum (y :: ys))) as [[_ ->]|[_ ->]];
      [right; exact Hin|left; reflexivity].
Qed.

Lemma maximum_permutation (xs ys : list Z) :
  Permutation xs ys -> maximum xs = maximum ys.
Proof.
  unfold maximum.
  induction 1 as [|x xs ys _ IH|x y xs|xs ys zs _ IH1 _ IH2];
    cbn [fold_right]; try congruence; lia.
Qed.

Lemma big_sum_permutation (xs ys : list R) :
  Permutation xs ys -> big_sum xs = big_sum ys.
Proof.
  unfold big_sum.
  induction 1 as [|x xs ys _ IH|x y xs|xs ys zs _ IH1 _ IH2];
    cbn [fold_right]; try congruence; lra.
Qed.

Lemma length_le_sum (xs : list Z) :
  Forall (fun x => 0 < x)%Z xs -> (Z.of_nat (List.length xs) <= sum xs)%Z.
Proof.
  induction 1 as [|x xs Hx _ IH]; [rewrite sum_nil; cbn; lia|].
  rewrite sum_cons. cbn [List.length]. lia.
Qed.

End MaximumFacts.

Section IndexValues.

Local Open Scope R_scope.

(** The indices of a sample with some species, in terms of the counts
    [Counter] holds. *)
Lemma biodiversity_value (occurrences : list OccurrenceRecord) :
  species_list occurrences <> [] ->
  exists r,
    get_biodiversity_indices occurrences = Ok r /\
    let counts := map snd (Counter (species_list occurrences)) in
    let N := sum counts in
    let S := List.length counts in
    species_richness r = Z.of_nat S /\
    shannon_index r = entropy N counts /\
    Q2R (simpson_index r) = 1 - concentration N counts /\
    Gbif.evenness r =
      (if (1 <? S)%nat then entropy N counts / ln (INR S) else 0) /\
    (berger_parker_dominance r ==
     inject_Z (maximum counts) / inject_Z N)%Q /\
    N = Z.of_nat (List.length (species_list occurrences)) /\
    Forall (fun n => 0 < n)%Z counts /\
    counts <> [].
Proof.
  intro Hne.
  unfold get_biodiversity_indices.
  destruct (species_list occurrences) as [|s l] eqn:Hl; [contradiction|].
  cbv zeta.
  pose proof (counter_total (s :: l)) as HN.
  pose proof (counter_positive (s :: l)) as Hpos.
  set (counts := map snd (Counter (s :: l))) in *.
  set (N := sum counts) in *.
  assert (0 < N)%Z as HNpos by (rewrite HN; cbn [List.length]; lia).
  assert (N <> 0%Z) as HNne by lia.
  assert (counts <> []) as Hcounts.
  { intro E; unfold N in HNpos; rewrite E, sum_nil in HNpos; lia. }
  rewrite (comprehension_ok_map _
    (fun n => (Q2R (inject_Z n / inject_Z N) *
               ln (Q2R (inject_Z n / inject_Z N)))%R)).
  2:{ intros n Hn. rewrite (truediv_ok _ HNne); cbn [bind].
      unfold math_log. rewrite (qpos_quotient n HNpos).
      rewrite Forall_forall in Hpos.
      destruct (Z.ltb_spec 0 n) as [_|Hle]; [reflexivity|].
      specialize (Hpos n Hn); lia. }
  cbn [bind].
  rewrite (comprehension_ok_map _
    (fun n => ((inject_Z n / inject_Z N) ^ 2)%Q)).
  2:{ intros n _. rewrite (truediv_ok _ HNne); reflexivity. }
  cbn [bind].
  assert (exists top, Gbif.max counts = Ok top /\ top = maximum counts)
    as [top [Htop Etop]].
  { destruct counts as [|n ns] eqn:Ec; [contradiction|].
    cbn [Gbif.max]. eexists; split; [reflexivity|].
    inversion Hpos as [|? ? Hn _]; subst.
    rewrite fold_max_maximum by lia.
    cbn [maximum fold_right]. reflexivity. }
  rewrite Htop; cbn [bind]. rewrite (truediv_ok _ HNne); cbn [bind].
  eexists; split; [reflexivity|].
  cbn [species_richness shannon_index simpson_index Gbif.evenness
       berger_parker_dominance].
  assert ((- rsum (map (fun n => Q2R (inject_Z n / inject_Z N) *
                          ln (Q2R (inject_Z n / inject_Z N))) counts))
          = entropy N counts) as Eshannon.
  { unfold entropy. rewrite rsum_big_sum. apply f_equal, f_equal.
    apply map_ext; intro n. rewrite (Q2R_quotient n HNne); reflexivity. }
  split; [unfold counts; rewrite length_map; reflexivity|].
  split; [exact Eshannon|].
  split.
  { unfold Qminus; rewrite Q2R_plus, Q2R_opp, Q2R_qsum, map_map.
    replace (Q2R 1) with 1 by (unfold Q2R; simpl; lra).
    unfold concentration, Rminus. apply f_equal, f_equal, f_equal.
    apply map_ext; intro n.
    change ((inject_Z n / inject_Z N) ^ 2)%Q
      with ((inject_Z n / inject_Z N) * (inject_Z n / inject_Z N))%Q.
    rewrite Q2R_mult, (Q2R_quotient n HNne); simpl; ring. }
  split.
  { rewrite Eshannon.
    replace (List.length counts) with (List.length (Counter (s :: l)))
      by (unfold counts; rewrite length_map; reflexivity).
    reflexivity. }
  split; [rewrite Etop; reflexivity|].
  split; [exact HN|]. split; [exact Hpos|exact Hcounts].
Qed.

End IndexValues.

Lemma species_tally (occurrences : list OccurrenceRecord) (s : string) :
  count_occ string_dec (species_list occurrences) s =
    List.length (filter (bears s) occurrences).
Proof.
  unfold species_list.
  induction occurrences as [|occ l IH]; cbn [flat_map filter]; [reflexivity|].
  unfold bears at 1.
  destruct (species occ) as [t|]; cbn [app count_occ]; [|exact IH].
  destruct (string_dec t s) as [->|Hne].
  - rewrite String.eqb_refl; cbn [List.length]; rewrite IH; reflexivity.
  - destruct (String.eqb_spec t s) as [E|_]; [contradiction|exact IH].
Qed.

(** C6.  The species counts are built from the records that carry a
    species identifier: the count of a species is the number of records
    that bear it, and a sample gets the indices of its species-bearing
    records.  In the record returned the richness [S] is the number of
    distinct species among these records, and Shannon, Simpson, evenness
    and Berger-Parker dominance are formed from the per-species counts
    against [N], the number of species-bearing records; records without a
    species enter neither.  A sample without any species-bearing record,
    the empty sample included, gets the all-zero indices; no sample makes
    the computation raise. *)
Theorem biodiversity_ignores_unidentified (occurrences : list OccurrenceRecord) :
  let bearing := filter has_species occurrences in
  get_biodiversity_indices occurrences = get_biodiversity_indices bearing /\
  (forall s n, In (s, n) (Counter (species_list occurrences)) <->
     (0 < n)%Z /\
     n = Z.of_nat (List.length (filter (bears s) occurrences))) /\
  (exists r,
     get_biodiversity_indices occurrences = Ok r /\
     species_richness r = Z.of_nat (distinct_species bearing) /\
     (bearing <> [] ->
      let counts := map snd (Counter (species_list occurrences)) in
      let N := Z.of_nat (List.length bearing) in
      let S := distinct_species bearing in
      sum counts = N /\
      List.length counts = S /\
      shannon_index r = entropy N counts /\
      Q2R (simpson_index r) = (1 - concentration N counts)%R /\
      Gbif.evenness r =
        (if (1 <? S)%nat then entropy N counts / ln (INR S) else 0)%R /\
      (berger_parker_dominance r ==
       inject_Z (maximum counts) / inject_Z N)%Q)) /\
  ((forall occ, In occ occurrences -> species occ = None) ->
   get_biodiversity_indices occurrences = Ok zero_indices) /\
  get_biodiversity_indices [] = Ok zero_indices.
Proof.
  intro bearing.
  assert (distinct_species bearing = distinct_species occurrences) as Hdistinct
    by (unfold distinct_species, bearing; rewrite species_list_filter;
        reflexivity).
  split; [|split; [|split; [|split]]].
  - unfold get_biodiversity_indices, bearing.
    rewrite species_list_filter; reflexivity.
  - intros s n. rewrite counter_entries, species_tally.
    rewrite (count_occ_In string_dec), species_tally. lia.
  - destruct (species_list occurrences) as [|s0 l0] eqn:Hl.
    + exists zero_indices.
      split; [unfold get_biodiversity_indices; rewrite Hl; reflexivity|].
      split.
      * rewrite Hdistinct; unfold distinct_species; rewrite Hl; reflexivity.
      * intro Hne; exfalso; apply Hne.
        apply length_zero_iff_nil.
        unfold bearing; rewrite <- species_list_length, Hl; reflexivity.
    + assert (species_list occurrences <> []) as Hsome
        by (rewrite Hl; discriminate).
      destruct (biodiversity_value occurrences Hsome)
        as [r [Hr [HS [Hsh [Hsi [Hev [Hbp [HN _]]]]]]]].
      cbv zeta in *. rewrite <- Hl.
      assert (List.length (map snd (Counter (species_list occurrences))) =
              distinct_species bearing) as Hsize.
      { rewrite length_map, counter_size, Hdistinct; reflexivity. }
      assert (sum (map snd (Counter (species_list occurrences))) =
              Z.of_nat (List.length bearing)) as Htotal.
      { rewrite HN; unfold bearing; rewrite species_list_length; reflexivity. }
      exists r; split; [exact Hr|]. rewrite <- Hsize.
      split; [exact HS|]. intros _.
      rewrite <- Htotal.
      split; [reflexivity|]. split; [reflexivity|].
      split; [exact Hsh|]. split; [exact Hsi|]. split; [exact Hev|exact Hbp].
  - intro Hnone. unfold get_biodiversity_indices.
    rewrite (species_list_none _ Hnone); reflexivity.
  - reflexivity.
Qed.

Lemma biodiversity_ignores_unidentified_witness :
  (filter has_species scenario_sample <> [] /\
   exists r,
     get_biodiversity_indices scenario_sample = Ok r /\
     species_richness r =
       Z.of_nat (distinct_species (filter has_species scenario_sample)) /\
     shannon_index r =
       entropy (Z.of_nat (List.length (filter has_species scenario_sample)))
         (map snd (Counter (species_list scenario_sample))) /\
     (berger_parker_dominance r ==
      inject_Z (maximum (map snd (Counter (species_list scenario_sample)))) /
      inject_Z (Z.of_nat (List.length (filter has_species scenario_sample))))%Q) /\
  ((forall occ, In occ unidentified_sample -> species occ = None) /\
   get_biodiversity_indices unidentified_sample = Ok zero_indices).
Proof.
  assert (filter has_species scenario_sample <> []) as Hsome by discriminate.
  assert (forall occ, In occ unidentified_sample -> species occ = None)
    as Hnone by (intros occ [<-|[<-|[]]]; reflexivity).
  split; split.
  - exact Hsome.
  - destruct (biodiversity_ignores_unidentified scenario_sample)
      as [_ [_ [[r [Hr [HS Hvalue]]] _]]].
    destruct (Hvalue Hsome) as [_ [_ [Hsh [_ [_ Hbp]]]]].
    exists r; split; [exact Hr|split; [exact HS|split; [exact Hsh|exact Hbp]]].
  - exact Hnone.
  - exact (proj1 (proj2 (proj2 (proj2
             (biodiversity_ignores_unidentified unidentified_sample)))) Hnone).
Defined.

(** X17.  For a sample with at least one species-bearing record the
    indices are returned, with a richness between 1 and the sample size
    and, in exact arithmetic, within their ranges: Shannon between 0 and
    the logarithm of the richness, Simpson in [0, 1), evenness in [0, 1]
    and Berger-Parker dominance in (0, 1].  The upper bounds of Shannon
    and evenness are attained by equally frequent species, so the rounded
    results of the code can pass them in the last place: five records of
    five species give the evenness 1.0000000000000002 in binary64. *)
Theorem biodiversity_ranges (occurrences : list OccurrenceRecord) :
  species_list occurrences <> [] ->
  exists r,
    get_biodiversity_indices occurrences = Ok r /\
    (1 <= species_richness r <= Z.of_nat (List.length occurrences))%Z /\
    (0 <= shannon_index r <= ln (IZR (species_richness r)))%R /\
    (0 <= simpson_index r)%Q /\ (simpson_index r < 1)%Q /\
    (0 <= Gbif.evenness r <= 1)%R /\
    (0 < berger_parker_dominance r)%Q /\ (berger_parker_dominance r <= 1)%Q.
Proof.
  intro Hne.
  destruct (biodiversity_value occurrences Hne)
    as [r [Hr [HS [Hsh [Hsi [Hev [Hbp [HN [Hpos Hcounts]]]]]]]]].
  cbv zeta in *.
  set (counts := map snd (Counter (species_list occurrences))) in *.
  set (N := sum counts) in *.
  exists r; split; [exact Hr|].
  assert (0 < N)%Z as HNpos.
  { rewrite HN. destruct (species_list occurrences); [contradiction|].
    cbn [List.length]; lia. }
  assert (Forall (fun c => 0 <= c)%Z counts) as Hnonneg
    by (eapply Forall_impl; [|exact Hpos]; intros; simpl in *; lia).
  assert (Forall (fun c => 0 < c <= N)%Z counts) as Hwithin.
  { apply Forall_forall; intros c Hc. rewrite Forall_forall in Hpos.
    split; [apply Hpos; exact Hc|apply member_le_sum; assumption]. }
  assert (1 <= List.length counts)%nat as Hone
    by (destruct counts; [contradiction|cbn [List.length]; lia]).
  pose proof (entropy_nonneg Hwithin) as Hlo.
  pose proof (entropy_le_ln_length Hpos eq_refl Hcounts) as Hhi.
  fold N in Hhi.
  split.
  { rewrite HS. split; [lia|].
    pose proof (length_le_sum Hpos) as Hsum. fold N in Hsum.
    rewrite HN, species_list_length in Hsum.
    pose proof (filter_length_le has_species occurrences). lia. }
  split.
  { rewrite Hsh, HS, <- INR_IZR_INZ. lra. }
  destruct (concentration_bounds Hnonneg eq_refl HNpos) as [Hc0 Hc1].
  fold N in Hc0, Hc1.
  split.
  { apply Rle_Qle. rewrite Hsi.
    replace (Q2R 0) with 0%R by (unfold Q2R; simpl; lra). lra. }
  split.
  { apply Rlt_Qlt. rewrite Hsi.
    replace (Q2R 1) with 1%R by (unfold Q2R; simpl; lra). lra. }
  split.
  { rewrite Hev.
    destruct (Nat.ltb_spec 1 (List.length counts)) as [Hlen|Hlen]; [|lra].
    pose proof (ln_entries_positive Hlen) as Hln.
    assert (entropy N counts / ln (INR (List.length counts))
              * ln (INR (List.length counts)) = entropy N counts)%R as E
      by (field; lra).
    split.
    - apply Rmult_le_pos; [lra|]. left; apply Rinv_0_lt_compat; exact Hln.
    - apply (Rmult_le_reg_r (ln (INR (List.length counts)))); [exact Hln|].
      rewrite E; lra. }
  pose proof (maximum_member Hcounts Hpos) as Hmem.
  assert (0 < maximum counts <= N)%Z as [Hm0 Hm1].
  { rewrite Forall_forall in Hwithin. apply Hwithin; exact Hmem. }
  rewrite Hbp.
  destruct (@quotient_range (maximum counts) N) as [_ Hq1];
    [lia|exact HNpos|].
  split; [|exact Hq1].
  apply Qlt_shift_div_l; [unfold Qlt; simpl; lia|].
  rewrite Qmult_0_l. unfold Qlt; simpl; lia.
Qed.

Lemma biodiversity_ranges_witness :
  species_list scenario_sample <> [] /\
  exists r,
    get_biodiversity_indices scenario_sample = Ok r /\
    (1 <= species_richness r <= Z.of_nat (List.length scenario_sample))%Z.
Proof.
  assert (species_list scenario_sample <> []) as Hne by discriminate.
  split; [exact Hne|].
  destruct (biodiversity_ranges scenario_sample Hne) as [r [Hr [HS _]]].
  exists r; split; [exact Hr|exact HS].
Defined.

(** X18.  The indices do not depend on the order of the records: two
    samples with the same records in different orders get the same
    richness, Shannon index, Simpson index, evenness and Berger-Parker
    dominance. *)
Theorem biodiversity_ignores_order (occurrences occurrences' : list OccurrenceRecord) :
  Permutation occurrences occurrences' ->
  exists r r',
    get_biodiversity_indices occurrences = Ok r /\
    get_biodiversity_indices occurrences' = Ok r' /\
    species_richness r = species_richness r' /\
    shannon_index r = shannon_index r' /\
    (simpson_index r == simpson_index r')%Q /\
    Gbif.evenness r = Gbif.evenness r' /\
    (berger_parker_dominance r == berger_parker_dominance r')%Q.
Proof.
  intro Hperm.
  assert (Permutation (species_list occurrences) (species_list occurrences'))
    as Hspecies by (unfold species_list; apply Permutation_flat_map; exact Hperm).
  destruct (species_list occurrences) as [|s l] eqn:Hl.
  - apply Permutation_nil in Hspecies.
    exists zero_indices, zero_indices.
    unfold get_biodiversity_indices; rewrite Hl, Hspecies.
    repeat split; reflexivity.
  - assert (species_list occurrences <> []) as Hne by (rewrite Hl; discriminate).
    assert (species_list occurrences' <> []) as Hne'.
    { intro E; rewrite E in Hspecies.
      apply Permutation_sym, Permutation_nil in Hspecies; discriminate. }
    rewrite <- Hl in Hspecies.
    destruct (biodiversity_value occurrences Hne)
      as [r [Hr [HS [Hsh [Hsi [Hev [Hbp _]]]]]]].
    destruct (biodiversity_value occurrences' Hne')
      as [r' [Hr' [HS' [Hsh' [Hsi' [Hev' [Hbp' _]]]]]]].
    cbv zeta in *.
    pose proof (Permutation_map snd (counter_permutation Hspecies)) as Hcounts.
    set (counts := map snd (Counter (species_list occurrences))) in *.
    set (counts' := map snd (Counter (species_list occurrences'))) in *.
    assert (sum counts = sum counts') as EN by (apply sum_permutation; exact Hcounts).
    assert (List.length counts = List.length counts') as ES
      by (apply Permutation_length; exact Hcounts).
    assert (entropy (sum counts) counts = entropy (sum counts') counts') as Eent.
    { rewrite <- EN. unfold entropy. f_equal.
      apply big_sum_permutation, Permutation_map; exact Hcounts. }
    assert (concentration (sum counts) counts
            = concentration (sum counts') counts') as Econ.
    { rewrite <- EN. unfold concentration.
      apply big_sum_permutation, Permutation_map; exact Hcounts. }
    exists r, r'. split; [exact Hr|]. split; [exact Hr'|].
    split; [rewrite HS, HS', ES; reflexivity|].
    split; [rewrite Hsh, Hsh'; exact Eent|].
    split; [apply eqR_Qeq; rewrite Hsi, Hsi', Econ; reflexivity|].
    split; [rewrite Hev, Hev', Eent, ES; reflexivity|].
    rewrite Hbp, Hbp', (maximum_permutation Hcounts), EN. reflexivity.
Qed.

Lemma biodiversity_ignores_order_witness :
  Permutation scenario_sample (rev scenario_sample) /\
  exists r r',
    get_biodiversity_indices scenario_sample = Ok r /\
    get_biodiversity_indices (rev scenario_sample) = Ok r' /\
    species_richness r = species_richness r' /\
    shannon_index r = shannon_index r'.
Proof.
  assert (Permutation scenario_sample (rev scenario_sample)) as Hperm
    by apply Permutation_rev.
  split; [exact Hperm|].
  destruct (biodiversity_ignores_order Hperm)
    as [r [r' [Hr [Hr' [HS [Hsh _]]]]]].
  exists r, r'. repeat split; assumption.
Defined.

(** X19.  When all the species-bearing records of a sample name the same
    species, richness is 1, the Shannon and Simpson indices and evenness
    are 0, and Berger-Parker dominance is 1. *)
Theorem single_species_indices (occurrences : list OccurrenceRecord)
    (s : string) :
  species_list occurrences <> [] ->
  (forall t, In t (species_list occurrences) -> t = s) ->
  exists r,
    get_biodiversity_indices occurrences = Ok r /\
    species_richness r = 1%Z /\
    shannon_index r = 0%R /\
    (simpson_index r == 0)%Q /\
    Gbif.evenness r = 0%R /\
    (berger_parker_dominance r == 1)%Q.
Proof.
  intros Hne Hall.
  destruct (biodiversity_value occurrences Hne)
    as [r [Hr [HS [Hsh [Hsi [Hev [Hbp [HN _]]]]]]]].
  cbv zeta in *.
  assert (Counter (species_list occurrences) =
          [(s, Z.of_nat (List.length (species_list occurrences)))]) as Ec.
  { rewrite (all_equal_repeat _ Hall) at 1.
    destruct (List.length (species_list occurrences)) as [|k] eqn:Hk.
    - destruct (species_list occurrences); [contradiction|discriminate].
    - unfold Counter. change (repeat s (S k)) with (s :: repeat s k).
      cbn [fold_left counter_add]. rewrite counter_single.
      do 2 f_equal. lia. }
  rewrite Ec in *. cbn [map snd List.length] in *.
  set (n := Z.of_nat (List.length (species_list occurrences))) in *.
  assert (0 < n)%Z as Hn.
  { unfold n. destruct (species_list occurrences); [contradiction|].
    cbn [List.length]; lia. }
  rewrite sum_cons, sum_nil, Z.add_0_r in *.
  assert (IZR n / IZR n = 1)%R as E1
    by (field; apply not_0_IZR; lia).
  exists r; split; [exact Hr|].
  split; [exact HS|].
  split.
  { rewrite Hsh. unfold entropy. cbn [map big_sum fold_right].
    rewrite E1, ln_1. lra. }
  split.
  { apply eqR_Qeq. rewrite Hsi. unfold concentration.
    cbn [map big_sum fold_right]. rewrite E1.
    unfold Q2R; simpl; lra. }
  split; [rewrite Hev; reflexivity|].
  rewrite Hbp. cbn [maximum fold_right].
  rewrite Z.max_l by lia. field. apply inject_Z_nonzero; lia.
Qed.

Lemma single_species_indices_witness :
  exists r,
    get_biodiversity_indices
      [ {| gbif_key := 1%Z; species := Some "A"%string |};
        {| gbif_key := 2%Z; species := None |};
        {| gbif_key := 3%Z; species := Some "A"%string |} ] = Ok r /\
    species_richness r = 1%Z /\
    shannon_index r = 0%R /\
    (simpson_index r == 0)%Q /\
    Gbif.evenness r = 0%R /\
    (berger_parker_dominance r == 1)%Q.
Proof.
  apply (@single_species_indices _ "A"%string).
  - discriminate.
  - intros t [<-|[<-|[]]]; reflexivity.
Defined.

(** ** Session state *)

Section SessionFacts.

Import Session.

Lemma session_ready_initially : session_ready (init_session empty_session).
Proof.
  unfold session_ready; cbn.
  repeat split; try (eexists; reflexivity). discriminate.
Qed.

Lemma session_ready_step (st : session_state) (e : event) :
  session_ready st -> session_ready (step st e).
Proof.
  intros [[g Hg] [[b Hb] [[c Hc] [[z Hz] Hinv]]]].
  destruct e as [|name|drawing|]; cbn [step].
  - unfold init_session, session_ready; cbn.
    rewrite Hg, Hb, Hc, Hz; cbn.
    repeat split; try (eexists; reflexivity).
    intro E; rewrite <- Hg; apply Hinv. rewrite Hb; exact E.
  - unfold set_region.
    destruct (region_lookup regions name) as [[center zoom]|e]; cbn [bind].
    + unfold session_ready; cbn.
      repeat split; try (eexists; eassumption); try (eexists; reflexivity).
      exact Hinv.
    + unfold session_ready.
      repeat split; try (eexists; eassumption). exact Hinv.
  - unfold store_drawing, session_ready; cbn.
    repeat split; try (eexists; eassumption); try (eexists; reflexivity).
  - unfold reset_aoi, session_ready; cbn.
    repeat split; try (eexists; eassumption); try (eexists; reflexivity).
    discriminate.
Qed.

End SessionFacts.

(** X20.  After the first run of the script and any sequence of reruns,
    region choices, drawings and resets, the four session keys the script
    reads are present, and whenever the map is hidden
    ([show_map] is [False]) a drawn area is stored under
    ["geojson_input"]: the analysis branch never parses [None]. *)
Theorem session_keeps_drawing (events : list Session.event) :
  Session.session_ready (Session.session_after events).
Proof.
  unfold Session.session_after.
  generalize session_ready_initially.
  generalize (Session.init_session Session.empty_session) as st.
  induction events as [|e events IH]; intros st Hst; cbn [fold_left].
  - exact Hst.
  - apply IH, session_ready_step; exact Hst.
Qed.

(** ** Initialising Earth Engine *)

Section InitFacts.

Import GeeUtils.

Variable credentials : Type.

Lemma calls_when_initialized (calls : list (credentials * bool))
    (st : ee_state credentials) :
  initialized st = true ->
  fold_left (fun st call => fst (init_ee (fst call) (snd call) st)) calls st
    = st.
Proof.
  revert st; induction calls as [|[creds ok] calls IH]; intros st Hst;
    cbn [fold_left]; [reflexivity|].
  unfold init_ee at 2; cbn [fst snd]. rewrite Hst; cbn [fst].
  apply IH; exact Hst.
Qed.

Lemma calls_when_not_initialized (calls : list (credentials * bool))
    (st : ee_state credentials) :
  initialized st = false ->
  fold_left (fun st call => fst (init_ee (fst call) (snd call) st)) calls st
    = {| initialized := existsb snd calls;
         initialize_calls :=
           initialize_calls st ++ through_first_success calls |}.
Proof.
  revert st; induction calls as [|[creds ok] calls IH]; intros st Hst;
    cbn [fold_left existsb through_first_success].
  - rewrite app_nil_r. destruct st; cbn in *; subst; reflexivity.
  - unfold init_ee at 2; cbn [fst snd]. rewrite Hst.
    destruct ok; cbn [fst orb].
    + rewrite calls_when_initialized by reflexivity. reflexivity.
    + rewrite IH by reflexivity. cbn [initialize_calls].
      rewrite <- app_assoc. reflexivity.
Qed.

End InitFacts.

(** X21.  Whatever calls of [init_ee] are made, [ee.Initialize] is called
    for each of them up to the first call on which it succeeds and never
    again, and [is_ee_initialized] tells whether one of them succeeded;
    once initialised, [init_ee] returns without changing anything. *)
Theorem init_ee_initializes_once (credentials : Type)
    (calls : list (credentials * bool)) :
  GeeUtils.initialize_calls (GeeUtils.after_calls calls) =
    GeeUtils.through_first_success calls /\
  GeeUtils.is_ee_initialized (GeeUtils.after_calls calls) =
    existsb snd calls /\
  forall creds succeeds,
    GeeUtils.is_ee_initialized (GeeUtils.after_calls calls) = true ->
    GeeUtils.init_ee creds succeeds (GeeUtils.after_calls calls) =
      (GeeUtils.after_calls calls, true).
Proof.
  unfold GeeUtils.after_calls.
  rewrite calls_when_not_initialized by reflexivity.
  split; [reflexivity|]. split; [reflexivity|].
  intros creds succeeds Hinit. unfold GeeUtils.init_ee.
  unfold GeeUtils.is_ee_initialized in Hinit. rewrite Hinit. reflexivity.
Qed.

Lemma init_ee_initializes_once_witness :
  GeeUtils.is_ee_initialized
    (GeeUtils.after_calls [ (1%Z, false); (2%Z, true); (3%Z, true) ]) = true /\
  GeeUtils.init_ee 4%Z true
    (GeeUtils.after_calls [ (1%Z, false); (2%Z, true); (3%Z, true) ]) =
    (GeeUtils.after_calls [ (1%Z, false); (2%Z, true); (3%Z, true) ], true).
Proof.
  assert (GeeUtils.is_ee_initialized
            (GeeUtils.after_calls [ (1%Z, false); (2%Z, true); (3%Z, true) ])
          = true) as Hinit by reflexivity.
  split; [exact Hinit|].
  exact (proj2 (proj2 (init_ee_initializes_once
                         [ (1%Z, false); (2%Z, true); (3%Z, true) ]))
           4%Z true Hinit).
Defined.

(** ** Reading the stored drawing *)

Section GeojsonFacts.

Import Geojson.

Lemma select_from_collection (geom : json) (rest : list json) :
  select_geometry (feature_collection (feature geom :: rest)) = Some geom.
Proof. reflexivity. Qed.

Lemma select_from_feature (geom : json) :
  select_geometry (feature geom) = Some geom.
Proof. reflexivity. Qed.

End GeojsonFacts.

(** X22.  [geojson_to_ee] reads back what the drawing block stores: for a
    text that parses to a feature collection, the geometry handed to
    [ee.Geometry] is the geometry of its first feature, whatever follows;
    a single feature and a bare geometry (an object whose ["type"] is
    neither of the two) are read to the same geometry.  A collection
    without features, a text that does not parse and the value [None] all
    end in [ValueError]. *)
Theorem geojson_round_trip (geometry : Type)
    (loads : string -> option Geojson.json)
    (Geometry : Geojson.json -> option geometry)
    (text : string) (geom : Geojson.json) (rest : list Geojson.json) :
  (loads text =
     Some (Geojson.feature_collection (Geojson.feature geom :: rest)) ->
   Geojson.geojson_to_ee loads Geometry (Some text) =
     Geojson.geometry_or_error Geometry geom) /\
  (loads text = Some (Geojson.feature geom) ->
   Geojson.geojson_to_ee loads Geometry (Some text) =
     Geojson.geometry_or_error Geometry geom) /\
  (loads text = Some geom ->
   (exists kind, Geojson.member geom "type" = Some kind /\
                 Geojson.is_text kind "FeatureCollection" = false /\
                 Geojson.is_text kind "Feature" = false) ->
   Geojson.geojson_to_ee loads Geometry (Some text) =
     Geojson.geometry_or_error Geometry geom) /\
  (loads text = Some (Geojson.feature_collection []) ->
   Geojson.geojson_to_ee loads Geometry (Some text) = Raise ValueError) /\
  (loads text = None ->
   Geojson.geojson_to_ee loads Geometry (Some text) = Raise ValueError) /\
  Geojson.geojson_to_ee loads Geometry None = Raise ValueError.
Proof.
  unfold Geojson.geojson_to_ee, Geojson.geometry_or_error.
  split; [|split; [|split; [|split; [|split]]]].
  - intro H. cbn [Geojson.option_bind]. rewrite H.
    cbn [Geojson.option_bind].
    rewrite select_from_collection. reflexivity.
  - intro H. cbn [Geojson.option_bind]. rewrite H.
    cbn [Geojson.option_bind].
    rewrite select_from_feature. reflexivity.
  - intros H [kind [Hkind [Hfc Hf]]]. cbn [Geojson.option_bind]. rewrite H.
    cbn [Geojson.option_bind]. unfold Geojson.select_geometry.
    rewrite Hkind; cbn [Geojson.option_bind]. rewrite Hfc, Hf. reflexivity.
  - intro H. cbn [Geojson.option_bind]. rewrite H. reflexivity.
  - intro H. cbn [Geojson.option_bind]. rewrite H. reflexivity.
  - reflexivity.
Qed.

Lemma geojson_round_trip_witness :
  Geojson.geojson_to_ee
    (fun _ => Some (Geojson.drawn Geojson.unit_square))
    (fun geom => Some geom) (Some "drawing"%string) =
  Ok Geojson.unit_square.
Proof.
  exact (proj1 (@geojson_round_trip Geojson.json
                  (fun _ => Some (Geojson.drawn Geojson.unit_square))
                  (fun geom => Some geom) "drawing"%string
                  Geojson.unit_square []) eq_refl).
Defined.

(** ** The analysis as a whole *)

Section AnalysisFacts.

Import Analysis.

Context {G : GeometryService}.

Variables Metrics Image : Type.
Variable geojson_to_ee : option string -> result geometry.
Variable get_landcover_metrics : geometry -> result Metrics.
Variable get_ndvi_rating_map : geometry -> result Image.
Variable get_number_of_occurrences : geometry -> result Z.
Variable get_gbif_sample : geometry -> Z -> result (list OccurrenceRecord).
Variable get_ndvi_rating_summary : Image -> geometry -> Z -> result (dict Z).

(** The block with every service answering: the area of interest is
    parsed twice, so the second call of [get_landcover_metrics], the two
    occurrence queries and the rating histogram are asked for the area as
    drawn, not for its substitute. *)
Lemma run_analysis_steps (geojson_input : option string) (aoi : geometry)
    (m0 m : Metrics) (ndvi_map : Image) (occ_total : Z)
    (samples : list OccurrenceRecord) (ndvi_rating : dict Z) :
  geojson_to_ee geojson_input = Ok aoi ->
  get_landcover_metrics (enforce_area_limit MAX_AOI_KM2 aoi) = Ok m0 ->
  get_ndvi_rating_map (enforce_area_limit MAX_AOI_KM2 aoi) = Ok ndvi_map ->
  get_landcover_metrics aoi = Ok m ->
  get_number_of_occurrences aoi = Ok occ_total ->
  get_gbif_sample aoi (n_samples occ_total) = Ok samples ->
  get_ndvi_rating_summary ndvi_map aoi
    (scale_adjusted (area aoi / 1000000)) = Ok ndvi_rating ->
  run_analysis geojson_to_ee get_landcover_metrics get_ndvi_rating_map
    get_number_of_occurrences get_gbif_sample get_ndvi_rating_summary
    geojson_input =
  bind (get_biodiversity_indices samples) (fun bio =>
  bind (rating_summary ndvi_rating (scale_adjusted (area aoi / 1000000)))
    (fun rating =>
  Ok {| metrics := m; bio_metrics := bio; rating := rating |})).
Proof.
  intros Hparse Hm0 Hmap Hm Htotal Hsamples Hrating.
  unfold run_analysis.
  rewrite Hparse; cbn [bind]. rewrite Hm0; cbn [bind].
  rewrite Hmap; cbn [bind]. rewrite Hm; cbn [bind].
  rewrite Htotal; cbn [bind]. rewrite Hsamples; cbn [bind].
  destruct (get_biodiversity_indices samples) as [bio|e]; cbn [bind];
    [|reflexivity].
  rewrite Hrating; cbn [bind]. reflexivity.
Qed.

End AnalysisFacts.

(** X23.  When every service answers, "Run Analysis" reports the
    land-cover metrics, the occurrence sample and the rating histogram of
    the area as it was drawn, also when that area exceeds the ceiling and
    the map shows its substitute; the sample is asked for with the cap
    [min(occ_total, 10000)].  If the rating histogram has total 0 the
    whole analysis ends in [ZeroDivisionError], although the other
    metrics were computed. *)
Theorem analysis_measures_drawn_area {G : GeometryService}
    (Metrics Image : Type)
    (geojson_to_ee : option string -> result geometry)
    (get_landcover_metrics : geometry -> result Metrics)
    (get_ndvi_rating_map : geometry -> result Image)
    (get_number_of_occurrences : geometry -> result Z)
    (get_gbif_sample : geometry -> Z -> result (list OccurrenceRecord))
    (get_ndvi_rating_summary : Image -> geometry -> Z -> result (dict Z))
    (geojson_input : option string) (aoi : geometry)
    (m0 m : Metrics) (ndvi_map : Image) (occ_total : Z)
    (samples : list OccurrenceRecord) (ndvi_rating : dict Z) :
  geojson_to_ee geojson_input = Ok aoi ->
  get_landcover_metrics (enforce_area_limit MAX_AOI_KM2 aoi) = Ok m0 ->
  get_ndvi_rating_map (enforce_area_limit MAX_AOI_KM2 aoi) = Ok ndvi_map ->
  get_landcover_metrics aoi = Ok m ->
  get_number_of_occurrences aoi = Ok occ_total ->
  get_gbif_sample aoi (n_samples occ_total) = Ok samples ->
  get_ndvi_rating_summary ndvi_map aoi
    (scale_adjusted (area aoi / 1000000)) = Ok ndvi_rating ->
  (sum (values ndvi_rating) <> 0%Z ->
   exists bio summary,
     get_biodiversity_indices samples = Ok bio /\
     rating_summary ndvi_rating (scale_adjusted (area aoi / 1000000))
       = Ok summary /\
     Analysis.run_analysis geojson_to_ee get_landcover_metrics
       get_ndvi_rating_map get_number_of_occurrences get_gbif_sample
       get_ndvi_rating_summary geojson_input =
     Ok {| Analysis.metrics := m;
           Analysis.bio_metrics := bio;
           Analysis.rating := summary |}) /\
  (sum (values ndvi_rating) = 0%Z ->
   Analysis.run_analysis geojson_to_ee get_landcover_metrics
     get_ndvi_rating_map get_number_of_occurrences get_gbif_sample
     get_ndvi_rating_summary geojson_input = Raise ZeroDivisionError).
Proof.
  intros Hparse Hm0 Hmap Hm Htotal Hsamples Hrating.
  rewrite (run_analysis_steps _ _ _ _ _ _ _ Hparse Hm0 Hmap Hm Htotal
             Hsamples Hrating).
  destruct (biodiversity_returns samples) as [bio [Hbio _]].
  rewrite Hbio; cbn [bind]. split.
  - intro Hne.
    destruct (@rating_summary_positive_total ndvi_rating
                (scale_adjusted (area aoi / 1000000)) Hne) as [summary Hs].
    exists bio, summary. rewrite Hs; cbn [bind].
    split; [reflexivity|split; reflexivity].
  - intro Hzero.
    rewrite (@rating_summary_zero_total ndvi_rating _ Hzero). reflexivity.
Qed.

Lemma analysis_measures_drawn_area_witness :
  exists bio summary,
    @Analysis.run_analysis Plane R shape
      (fun _ => Ok oversized_aoi)
      (fun aoi => Ok (shape_area aoi))
      (fun aoi => Ok aoi)
      (fun _ => Ok 3%Z)
      (fun _ _ => Ok unidentified_sample)
      (fun _ _ _ => Ok [ (KStr "4", 8%Z) ])
      (Some "drawing"%string) =
    Ok {| Analysis.metrics := shape_area oversized_aoi;
          Analysis.bio_metrics := bio;
          Analysis.rating := summary |}.
Proof.
  destruct (proj1 (@analysis_measures_drawn_area Plane R shape
              (fun _ => Ok oversized_aoi)
              (fun aoi => Ok (shape_area aoi))
              (fun aoi => Ok aoi)
              (fun _ => Ok 3%Z)
              (fun _ _ => Ok unidentified_sample)
              (fun _ _ _ => Ok [ (KStr "4", 8%Z) ])
              (Some "drawing"%string) oversized_aoi
              (shape_area (@enforce_area_limit Plane MAX_AOI_KM2 oversized_aoi))
              (shape_area oversized_aoi)
              (@enforce_area_limit Plane MAX_AOI_KM2 oversized_aoi)
              3%Z unidentified_sample [ (KStr "4", 8%Z) ]
              eq_refl eq_refl eq_refl eq_refl eq_refl eq_refl eq_refl))
    as [bio [summary [_ [_ Hrun]]]].
  - discriminate.
  - exists bio, summary. exact Hrun.
Defined.
